(** * nice: JSON log lines to tab-separated text

    A shallow embedding of [main.go] of the repository lnquy/nice: the line
    formatter [print], the colour-spec parser [getColorFormat], the pumps
    [pipeFile] and [pipeStdin] and the run of [main], together with the
    parts of the Go libraries they call ([strings], [bufio],
    [github.com/fatih/color], [github.com/tidwall/gjson]), and the
    properties of the program proved on it.

    Go strings and byte slices are sequences of bytes; they are modelled by
    [string], whose characters are the 256 byte values. *)

From Stdlib Require Import String Ascii List Bool Arith NArith Lia.
Import ListNotations.
Open Scope string_scope.

(** ** Bytes *)

(** The numeric value of a byte, used for Go's comparisons such as
    [json[i] > '\\']. *)
Definition code (c : ascii) : N := N_of_ascii c.

(** [byteIs c n]: the byte [c] has value [n]. *)
Definition byteIs (c : ascii) (n : N) : bool := N.eqb (code c) n.

Definition TAB : ascii := "009"%char.
Definition LF : ascii := "010"%char.
Definition ESC : ascii := "027"%char.
Definition QUOTE : ascii := "034"%char.
Definition BACKSLASH : ascii := "092"%char.

(** One-byte strings. *)
Definition str1 (c : ascii) : string := String c EmptyString.

(** Reversal of a byte sequence (a helper for scanning from the right). *)
Fixpoint rev_append (s acc : string) : string :=
  match s with
  | EmptyString => acc
  | String c r => rev_append r (String c acc)
  end.

Definition reverse (s : string) : string := rev_append s EmptyString.

(** [len(s) == 0]. *)
Definition isEmpty (s : string) : bool :=
  match s with EmptyString => true | String _ _ => false end.

(** ** Package [strings] of the Go standard library *)

Module strings.

(** The ASCII white space of [unicode.IsSpace]:
    ['\t'], ['\n'], ['\v'], ['\f'], ['\r'], [' ']. *)
Definition asciiSpace (c : ascii) : bool :=
  (N.leb 9 (code c) && N.leb (code c) 13) || byteIs c 32.

(** The two-byte UTF-8 encodings of white space: U+0085 (NEL) and
    U+00A0 (NBSP). *)
Definition space2 (c1 c2 : ascii) : bool :=
  byteIs c1 194 && (byteIs c2 133 || byteIs c2 160).

(** The three-byte UTF-8 encodings of white space: U+1680,
    U+2000..U+200A, U+2028, U+2029, U+202F, U+205F and U+3000. *)
Definition space3 (c1 c2 c3 : ascii) : bool :=
  (byteIs c1 225 && byteIs c2 154 && byteIs c3 128)
  || (byteIs c1 226 && byteIs c2 128
      && ((N.leb 128 (code c3) && N.leb (code c3) 138)
          || byteIs c3 168 || byteIs c3 169 || byteIs c3 175))
  || (byteIs c1 226 && byteIs c2 129 && byteIs c3 159)
  || (byteIs c1 227 && byteIs c2 128 && byteIs c3 128).

(** [TrimLeftFunc(s, unicode.IsSpace)]: drops the white-space runes at
    the front of [s]. A byte that starts no white-space encoding (an
    invalid byte included) stops the scan. *)
Fixpoint trimLeft (s : string) : string :=
  match s with
  | EmptyString => s
  | String c1 r1 =>
      if asciiSpace c1 then trimLeft r1
      else
        match r1 with
        | EmptyString => s
        | String c2 r2 =>
            if space2 c1 c2 then trimLeft r2
            else
              match r2 with
              | EmptyString => s
              | String c3 r3 => if space3 c1 c2 c3 then trimLeft r3 else s
              end
        end
  end.

(** The same scan over the reversed string: [c1] is the last byte. *)
Fixpoint trimLeftRev (s : string) : string :=
  match s with
  | EmptyString => s
  | String c1 r1 =>
      if asciiSpace c1 then trimLeftRev r1
      else
        match r1 with
        | EmptyString => s
        | String c2 r2 =>
            if space2 c2 c1 then trimLeftRev r2
            else
              match r2 with
              | EmptyString => s
              | String c3 r3 => if space3 c3 c2 c1 then trimLeftRev r3 else s
              end
        end
  end.

(** [TrimRightFunc(s, unicode.IsSpace)]. *)
Definition trimRight (s : string) : string := reverse (trimLeftRev (reverse s)).

(** [strings.TrimSpace]: [s] without leading and trailing white space. *)
Definition TrimSpace (s : string) : string := trimRight (trimLeft s).

(** [s] holds only bytes below [utf8.RuneSelf]. *)
Fixpoint isASCII (s : string) : bool :=
  match s with
  | EmptyString => true
  | String c r => N.ltb (code c) 128 && isASCII r
  end.

(** ['A'..'Z'] to ['a'..'z'], other bytes unchanged. *)
Definition lowerByte (c : ascii) : ascii :=
  if N.leb 65 (code c) && N.leb (code c) 90
  then ascii_of_N (code c + 32) else c.

Fixpoint mapBytes (f : ascii -> ascii) (s : string) : string :=
  match s with
  | EmptyString => EmptyString
  | String c r => String (f c) (mapBytes f r)
  end.

(** [strings.Split(s, ",")]: the pieces of [s] between commas; a string
    with no comma is its single piece, the empty string included. *)
Fixpoint Split (s : string) : list string :=
  match s with
  | EmptyString => [EmptyString]
  | String c r =>
      if byteIs c 44 then EmptyString :: Split r
      else
        match Split r with
        | piece :: pieces => String c piece :: pieces
        | [] => [str1 c]
        end
  end.

Section ToLower.

(** [strings.Map(unicode.ToLower, s)] for a string with a non-ASCII byte:
    the Unicode case tables of the Go runtime are a parameter. *)
Variable mapUnicodeToLower : string -> string.

(** [strings.ToLower]: ASCII strings are lowered byte by byte, the others
    go through the Unicode tables. *)
Definition ToLower (s : string) : string :=
  if isASCII s then mapBytes lowerByte s else mapUnicodeToLower s.

End ToLower.

End strings.

(** ** Package [github.com/fatih/color] *)

Module color.

(** The attributes the program uses, with their SGR parameters. *)
Inductive Attribute : Set :=
  | Reset
  | FgBlack | FgRed | FgGreen | FgYellow
  | FgBlue | FgMagenta | FgCyan | FgWhite.

(** [strconv.Itoa(int(a))]. *)
Definition itoa (a : Attribute) : string :=
  match a with
  | Reset => "0"
  | FgBlack => "30" | FgRed => "31" | FgGreen => "32" | FgYellow => "33"
  | FgBlue => "34" | FgMagenta => "35" | FgCyan => "36" | FgWhite => "37"
  end.

(** A [*color.Color]: the list of its attributes. *)
Record Color : Set := New' { params : list Attribute }.

(** [color.New(a)]. *)
Definition New (a : Attribute) : Color := New' [a].

(** [c.sequence()]: the parameters joined by [;]. *)
Definition sequence (c : Color) : string := String.concat ";" (map itoa (params c)).

(** [c.format()] and [c.unformat()]: the escape sequences that switch the
    colour on and back off. *)
Definition format (c : Color) : string := str1 ESC ++ "[" ++ sequence c ++ "m".
Definition unformat (c : Color) : string := str1 ESC ++ "[" ++ itoa Reset ++ "m".

Section NoColor.

(** The package variable [color.NoColor]: set at start-up when the
    standard output is no terminal (or [TERM] is [dumb]). *)
Variable NoColor : bool.

(** [c.wrap(s)]. *)
Definition wrap (c : Color) (s : string) : string :=
  if NoColor then s else format c ++ s ++ unformat c.

(** [c.Sprintf(format, a...)], given the text [fmt.Sprintf(format, a...)]:
    that text, wrapped. *)
Definition Sprintf (c : Color) (formatted : string) : string := wrap c formatted.

End NoColor.

End color.

(** ** Package [github.com/tidwall/gjson]

    The program calls [gjson.ParseBytes(line)] and [Result.Get(path)], and
    reads the fields [Type], [Raw] and [Str] of the result. The package is
    a dependency of the program, not part of it; the embedding follows its
    scanners ([Parse], [Get], [parseObject], [parseArray], [parseString],
    [parseSquash], [parseNumber], [parseLiteral], [unescape]) as of the
    releases of 2019, for paths made of plain parts separated by dots: an
    object key, or a decimal index into an array. Wildcards, [#] queries,
    modifiers, pipes and the [..] prefix of the path language are not
    covered.

    The library scans by index over the input; here each scanner takes the
    input that is still to be read and returns what is left of it. As its
    documentation says of [Parse] and [Get], the library expects well-formed
    json and does not validate it: invalid json does not panic, but may give
    unexpected results. A query reads just as far as it needs to. *)

Module gjson.

(** [gjson.Type]. *)
Inductive Type_ : Set := Null | False_ | Number | String_ | True_ | JSON.

Definition Type_eqb (a b : Type_) : bool :=
  match a, b with
  | Null, Null | False_, False_ | Number, Number
  | String_, String_ | True_, True_ | JSON, JSON => true
  | _, _ => false
  end.

(** [gjson.Result]: [Raw] is the raw json of the value, [Str] the decoded
    text of a json string (empty for every other type). The fields [Num]
    and [Index] are not read by the program and are left out. *)
Record Result : Set := mkResult { Typ : Type_; Raw : string; Str : string }.

(** [Result{}], what a query that matches nothing returns. *)
Definition zero : Result := mkResult Null "" "".

(** [t.Exists()]. *)
Definition Exists (t : Result) : bool :=
  negb (Type_eqb (Typ t) Null && isEmpty (Raw t)).

(** *** [unescape] *)

Definition hexval (c : ascii) : option N :=
  let n := code c in
  if N.leb 48 n && N.leb n 57 then Some (n - 48)%N
  else if N.leb 97 n && N.leb n 102 then Some (n - 87)%N
  else if N.leb 65 n && N.leb n 70 then Some (n - 55)%N
  else None.

(** [runeit]: four hexadecimal digits as a number, 0 when one is none. *)
Definition runeit (h1 h2 h3 h4 : ascii) : N :=
  match hexval h1, hexval h2, hexval h3, hexval h4 with
  | Some a, Some b, Some c, Some d => (((a * 16 + b) * 16 + c) * 16 + d)%N
  | _, _, _, _ => 0%N
  end.

(** [utf16.IsSurrogate] and [utf16.DecodeRune]. *)
Definition isSurrogate (r : N) : bool := N.leb 55296 r && N.ltb r 57344.

Definition decodeRune16 (r1 r2 : N) : N :=
  if N.leb 55296 r1 && N.ltb r1 56320 && N.leb 56320 r2 && N.ltb r2 57344
  then ((r1 - 55296) * 1024 + (r2 - 56320) + 65536)%N
  else 65533%N.

Definition byteOf (n : N) : ascii := ascii_of_N n.

(** [utf8.EncodeRune]. *)
Definition encodeRune (r : N) : string :=
  if N.ltb r 128 then str1 (byteOf r)
  else if N.ltb r 2048 then
    String (byteOf (192 + r / 64)) (str1 (byteOf (128 + r mod 64)))
  else if isSurrogate r || N.ltb 1114111 r then
    String (byteOf 239) (String (byteOf 191) (str1 (byteOf 189)))
  else if N.ltb r 65536 then
    String (byteOf (224 + r / 4096))
      (String (byteOf (128 + (r / 64) mod 64)) (str1 (byteOf (128 + r mod 64))))
  else
    String (byteOf (240 + r / 262144))
      (String (byteOf (128 + (r / 4096) mod 64))
         (String (byteOf (128 + (r / 64) mod 64)) (str1 (byteOf (128 + r mod 64))))).

(** The one-letter escapes. *)
Definition simpleEscape (e : ascii) : option ascii :=
  if byteIs e 92 then Some BACKSLASH
  else if byteIs e 47 then Some "/"%char
  else if byteIs e 98 then Some "008"%char
  else if byteIs e 102 then Some "012"%char
  else if byteIs e 110 then Some LF
  else if byteIs e 114 then Some "013"%char
  else if byteIs e 116 then Some TAB
  else if byteIs e 34 then Some QUOTE
  else None.

(** [unescape(json)]: the text of a json string with its escapes decoded.
    Decoding stops at a control byte and at an escape it does not know. *)
Fixpoint unescape (s : string) : string :=
  match s with
  | EmptyString => EmptyString
  | String c r =>
      if N.ltb (code c) 32 then EmptyString
      else if byteIs c 92 then
        match r with
        | EmptyString => EmptyString
        | String e r' =>
            match simpleEscape e with
            | Some b => String b (unescape r')
            | None =>
                if byteIs e 117 then
                  match r' with
                  | String h1 (String h2 (String h3 (String h4 r4))) =>
                      let u := runeit h1 h2 h3 h4 in
                      if isSurrogate u then
                        match r4 with
                        | String b1 (String b2 (String k1 (String k2 (String k3 (String k4 r6))))) =>
                            if byteIs b1 92 && byteIs b2 117
                            then encodeRune (decodeRune16 u (runeit k1 k2 k3 k4)) ++ unescape r6
                            else encodeRune u ++ unescape r4
                        | _ => encodeRune u ++ unescape r4
                        end
                      else encodeRune u ++ unescape r4
                  | _ => EmptyString
                  end
                else EmptyString
            end
        end
      else String c (unescape r)
  end.

(** *** Scanners of one value *)

(** The search for the quote that closes a json string; [s] starts after
    the opening quote. The library decides whether a quote is escaped by
    counting the backslashes before it; [odd] holds the parity of the run of
    backslashes read last, [esc] whether a backslash was read at all.
    The result is the text between the quotes, what follows the closing
    quote, and [esc]; [None] when no quote closes the string. *)
Fixpoint scanString (odd esc : bool) (s : string) : option (string * string * bool) :=
  match s with
  | EmptyString => None
  | String c r =>
      if byteIs c 34 && negb odd then Some (EmptyString, r, esc)
      else
        match (if byteIs c 92 then scanString (negb odd) true r
               else scanString false esc r) with
        | Some (k, rest, e) => Some (String c k, rest, e)
        | None => None
        end
  end.

(** [parseSquash]: reads to the bracket that closes the container whose
    opening bracket was just read, skipping nested containers and strings.
    [inStr] is [Some odd] inside a string. The result is the text read
    (closing bracket included) and what follows it; input that ends early is
    read to its end. *)
Fixpoint squash (inStr : option bool) (depth : nat) (s : string) : string * string :=
  match s with
  | EmptyString => (EmptyString, EmptyString)
  | String c r =>
      let cons (p : string * string) := (String c (fst p), snd p) in
      match inStr with
      | Some odd =>
          if byteIs c 34 then
            cons (squash (if odd then Some false else None) depth r)
          else if byteIs c 92 then cons (squash (Some (negb odd)) depth r)
          else cons (squash (Some false) depth r)
      | None =>
          if byteIs c 34 then cons (squash (Some false) depth r)
          else if byteIs c 123 || byteIs c 91 then cons (squash None (S depth) r)
          else if byteIs c 125 || byteIs c 93 then
            match depth with
            | S (S d) => cons (squash None (S d) r)
            | _ => (str1 c, r)
            end
          else cons (squash None depth r)
      end
  end.

(** [parseSquash(json, i)] with [json[i] = open]. *)
Definition parseSquash (open : ascii) (s : string) : string * string :=
  let (body, rest) := squash None 1 s in (String open body, rest).

(** The rest of a number: up to white space, [,], []] or [}]. *)
Fixpoint numberTail (s : string) : string * string :=
  match s with
  | EmptyString => (EmptyString, EmptyString)
  | String c r =>
      if N.leb (code c) 32 || byteIs c 44 || byteIs c 93 || byteIs c 125
      then (EmptyString, s)
      else let (n, rest) := numberTail r in (String c n, rest)
  end.

(** [parseNumber(json, i)] with [json[i] = c]. *)
Definition parseNumber (c : ascii) (s : string) : string * string :=
  let (n, rest) := numberTail s in (String c n, rest).

(** The rest of a literal: the lower-case letters that follow. *)
Fixpoint literalTail (s : string) : string * string :=
  match s with
  | EmptyString => (EmptyString, EmptyString)
  | String c r =>
      if N.ltb (code c) 97 || N.ltb 122 (code c)
      then (EmptyString, s)
      else let (n, rest) := literalTail r in (String c n, rest)
  end.

(** [parseLiteral(json, i)] with [json[i] = c]. *)
Definition parseLiteral (c : ascii) (s : string) : string * string :=
  let (n, rest) := literalTail s in (String c n, rest).

(** The results the scanners build on a hit. *)
Definition stringResult (content : string) (vesc : bool) : Result :=
  mkResult String_ (String QUOTE content ++ str1 QUOTE)
    (if vesc then unescape content else content).

Definition literalResult (c : ascii) (raw : string) : Result :=
  mkResult (if byteIs c 116 then True_ else if byteIs c 102 then False_ else Null)
    raw EmptyString.

Definition isNumberStart (c : ascii) : bool :=
  byteIs c 45 || (N.leb 48 (code c) && N.leb (code c) 57).

Definition isLiteralStart (c : ascii) : bool :=
  byteIs c 116 || byteIs c 102 || byteIs c 110.

(** *** Paths *)

(** [parseObjectPath] and [parseArrayPath] on a plain path: the part before
    the first dot, and the path after it when there is a dot. *)
Fixpoint splitPath (path : string) : string * option string :=
  match path with
  | EmptyString => (EmptyString, None)
  | String c r =>
      if byteIs c 46 then (EmptyString, Some r)
      else let (part, more) := splitPath r in (String c part, more)
  end.

Definition isSome {A : Type} (o : option A) : bool :=
  match o with Some _ => true | None => false end.

(** [parseUint]: a non-empty string of decimal digits as an [int], with
    the wrap-around of Go's 64-bit arithmetic. *)
Fixpoint parseUintFrom (n : N) (s : string) : option N :=
  match s with
  | EmptyString => Some n
  | String c r =>
      if N.leb 48 (code c) && N.leb (code c) 57
      then parseUintFrom ((n * 10 + (code c - 48)) mod 18446744073709551616)%N r
      else None
  end.

Definition parseUint (s : string) : option N :=
  match s with
  | EmptyString => None
  | _ => parseUintFrom 0 s
  end.

(** [partidx == h] for the element counter [h] of [parseArray]. *)
Definition indexMatches (part : string) (h : N) : bool :=
  match parseUint part with
  | Some n => N.eqb n h
  | None => false
  end.

(** *** [parseObject] and [parseArray]

    [objKey] is the loop of [parseObject] that looks for the next key,
    [objVal] the one that reads the value after a key, [arrVal] the loop of
    [parseArray] over the elements. Each returns the result on a hit and
    the input left to read. [fuel] bounds the number of steps; every step
    reads at least one byte, so the length of the input is enough. *)
Fixpoint objKey (fuel : nat) (path s : string) {struct fuel} : option Result * string :=
  match fuel with
  | O => (None, EmptyString)
  | S fuel =>
      match s with
      | EmptyString => (None, EmptyString)
      | String c r =>
          if byteIs c 34 then
            match scanString false false r with
            | None => (None, EmptyString)
            | Some (key, r', kesc) =>
                let (part, more) := splitPath path in
                let pmatch := String.eqb part (if kesc then unescape key else key) in
                objVal fuel path pmatch r'
            end
          else if byteIs c 125 then (None, r)
          else objKey fuel path r
      end
  end

with objVal (fuel : nat) (path : string) (pmatch : bool) (s : string) {struct fuel}
  : option Result * string :=
  match fuel with
  | O => (None, EmptyString)
  | S fuel =>
      let (part, more) := splitPath path in
      let hit := pmatch && negb (isSome more) in
      let sub := match more with Some p => p | None => EmptyString end in
      match s with
      | EmptyString => (None, EmptyString)
      | String c r =>
          if byteIs c 34 then
            match scanString false false r with
            | None => (None, EmptyString)
            | Some (content, r', vesc) =>
                if hit then (Some (stringResult content vesc), r')
                else objKey fuel path r'
            end
          else if byteIs c 123 then
            if pmatch && negb hit then
              match objKey fuel sub r with
              | (Some v, r') => (Some v, r')
              | (None, r') => objKey fuel path r'
              end
            else
              let (raw, r') := parseSquash c r in
              if hit then (Some (mkResult JSON raw EmptyString), r')
              else objKey fuel path r'
          else if byteIs c 91 then
            if pmatch && negb hit then
              match arrVal fuel sub 0 r with
              | (Some v, r') => (Some v, r')
              | (None, r') => objKey fuel path r'
              end
            else
              let (raw, r') := parseSquash c r in
              if hit then (Some (mkResult JSON raw EmptyString), r')
              else objKey fuel path r'
          else if isNumberStart c then
            let (raw, r') := parseNumber c r in
            if hit then (Some (mkResult Number raw EmptyString), r')
            else objKey fuel path r'
          else if isLiteralStart c then
            let (raw, r') := parseLiteral c r in
            if hit then (Some (literalResult c raw), r')
            else objKey fuel path r'
          else objVal fuel path pmatch r
      end
  end

with arrVal (fuel : nat) (path : string) (h : N) (s : string) {struct fuel}
  : option Result * string :=
  match fuel with
  | O => (None, EmptyString)
  | S fuel =>
      let (part, more) := splitPath path in
      let pmatch := indexMatches part h in
      let hit := pmatch && negb (isSome more) in
      let sub := match more with Some p => p | None => EmptyString end in
      match s with
      | EmptyString => (None, EmptyString)
      | String c r =>
          if byteIs c 34 then
            match scanString false false r with
            | None => (None, EmptyString)
            | Some (content, r', vesc) =>
                if hit then (Some (stringResult content vesc), r')
                else arrVal fuel path (h + 1) r'
            end
          else if byteIs c 123 then
            if pmatch && negb hit then
              match objKey fuel sub r with
              | (Some v, r') => (Some v, r')
              | (None, r') => arrVal fuel path (h + 1) r'
              end
            else
              let (raw, r') := parseSquash c r in
              if hit then (Some (mkResult JSON raw EmptyString), r')
              else arrVal fuel path (h + 1) r'
          else if byteIs c 91 then
            if pmatch && negb hit then
              match arrVal fuel sub 0 r with
              | (Some v, r') => (Some v, r')
              | (None, r') => arrVal fuel path (h + 1) r'
              end
            else
              let (raw, r') := parseSquash c r in
              if hit then (Some (mkResult JSON raw EmptyString), r')
              else arrVal fuel path (h + 1) r'
          else if isNumberStart c then
            let (raw, r') := parseNumber c r in
            if hit then (Some (mkResult Number raw EmptyString), r')
            else arrVal fuel path (h + 1) r'
          else if isLiteralStart c then
            let (raw, r') := parseLiteral c r in
            if hit then (Some (literalResult c raw), r')
            else arrVal fuel path (h + 1) r'
          else if byteIs c 93 then (None, r)
          else arrVal fuel path h r
      end
  end.

Definition parseObject (path s : string) : option Result * string :=
  objKey (S (String.length s)) path s.

Definition parseArray (path s : string) : option Result * string :=
  arrVal (S (String.length s)) path 0 s.

Definition valueOf (r : option Result * string) : Result :=
  match fst r with Some v => v | None => zero end.

(** [gjson.Get(json, path)]: the query starts at the first [{] or [[]. *)
Fixpoint Get (json path : string) : Result :=
  match json with
  | EmptyString => zero
  | String c r =>
      if byteIs c 123 then valueOf (parseObject path r)
      else if byteIs c 91 then valueOf (parseArray path r)
      else Get r path
  end.

(** [tonum], [tolit] and [tostr]: the raw text [Parse] takes for a line
    that starts with a scalar. *)
Fixpoint tonumTail (s : string) : string :=
  match s with
  | EmptyString => EmptyString
  | String c r =>
      let n := code c in
      if N.leb n 45 then
        if N.leb n 32 || byteIs c 44 then EmptyString else String c (tonumTail r)
      else if N.ltb n 93 then String c (tonumTail r)
      else if byteIs c 101 || byteIs c 69 then String c (tonumTail r)
      else EmptyString
  end.

Definition tonum (c : ascii) (s : string) : string := String c (tonumTail s).

Definition tolit (c : ascii) (s : string) : string := fst (parseLiteral c s).

(** [s] holds a backslash. *)
Fixpoint hasBackslash (s : string) : bool :=
  match s with
  | EmptyString => false
  | String c r => byteIs c 92 || hasBackslash r
  end.

(** [tostr]: the raw text and the decoded text. With an escape in the
    string the raw text loses a closing quote that ends the input; a
    string that is not closed is taken to the end of the input, and
    decoded when it holds a backslash. *)
Definition tostr (s : string) : string * string :=
  match scanString false false s with
  | Some (content, rest, false) =>
      (String QUOTE content ++ str1 QUOTE, content)
  | Some (content, rest, true) =>
      (String QUOTE content ++ (if isEmpty rest then EmptyString else str1 QUOTE),
       unescape content)
  | None => (String QUOTE s, if hasBackslash s then unescape s else s)
  end.

(** [gjson.Parse(json)]. A line that starts, after white space, with [{]
    or [[] is taken whole as a container. *)
Fixpoint Parse (json : string) : Result :=
  match json with
  | EmptyString => zero
  | String c r =>
      if byteIs c 123 || byteIs c 91 then mkResult JSON json EmptyString
      else if N.leb (code c) 32 then Parse r
      else if byteIs c 110 then mkResult Null (tolit c r) EmptyString
      else if byteIs c 116 then mkResult True_ (tolit c r) EmptyString
      else if byteIs c 102 then mkResult False_ (tolit c r) EmptyString
      else if byteIs c 34 then
        let (raw, str) := tostr r in mkResult String_ raw str
      else if isNumberStart c then mkResult Number (tonum c r) EmptyString
      else zero
  end.

(** [gjson.ParseBytes(json)]. *)
Definition ParseBytes (json : string) : Result := Parse json.

(** [t.Get(path)]: the query runs over the raw text of [t]. *)
Definition Result_Get (t : Result) (path : string) : Result := Get (Raw t) path.

(** [gjson.GetBytes(json, path)]: [Get] on the bytes of [json]. *)
Definition GetBytes (json path : string) : Result := Get json path.

End gjson.

(** ** Packages [io] and [bufio] of the Go standard library

    [pipeStdin] reads the standard input with [bufio.Reader.ReadLine],
    [pipeFile] reads a file with a [bufio.Scanner] and its default split
    function [ScanLines]. Both are told on the bytes that are still to be
    read from an input that delivers them all and then ends; how the
    bytes arrive in reads plays no part in what either returns. *)

Definition CR : ascii := "013"%char.

Module io.

(** The errors a read can end with: [io.EOF], or any other error. *)
Inductive error : Set := EOF | ErrOther.

End io.

Module bufio.

(** [defaultBufSize], the size of the buffer of [NewReader], and
    [MaxScanTokenSize], the largest buffer of a [Scanner]. *)
Definition defaultBufSize : N := 4096.
Definition MaxScanTokenSize : N := 65536.

(** How the search for the end of a line stops. *)
Inductive Stop : Set :=
  | Delim        (* the newline was read *)
  | BufferFull   (* the buffer is full and holds no newline *)
  | EndOfInput.  (* the input ended before a newline *)

(** The bytes read into a buffer with [room] free bytes, up to the first
    newline (which is read too), and the input left. The buffer is
    searched before more is read, so a full buffer stops the search even
    when the input ends right there. *)
Fixpoint fill (room : N) (s : string) : string * Stop * string :=
  if N.eqb room 0 then (EmptyString, BufferFull, s)
  else
    match s with
    | EmptyString => (EmptyString, EndOfInput, EmptyString)
    | String c r =>
        if byteIs c 10 then (str1 c, Delim, r)
        else let '(line, stop, rest) := fill (N.pred room) r in (String c line, stop, rest)
    end.

(** [s] without its last byte when that byte is [c]. *)
Definition dropLast (c : ascii) (s : string) : string :=
  match reverse s with
  | String d r => if Ascii.eqb d c then reverse r else s
  | EmptyString => s
  end.

(** The last byte of [s] is [c]. *)
Definition endsIn (c : ascii) (s : string) : bool :=
  match reverse s with
  | String d _ => Ascii.eqb d c
  | EmptyString => false
  end.

(** [b.ReadLine()] on a reader with a buffer of [size] bytes whose input
    still holds [s]: the line, [isPrefix], the error, and the input left.
    A line that does not fit the buffer is handed out in pieces, each with
    [isPrefix] set; a carriage return at the end of a piece is kept back
    for the next call. The end of the input is reported once nothing is
    left to hand out. *)
Definition ReadLine (size : N) (s : string)
  : string * bool * option io.error * string :=
  match fill size s with
  | (line, BufferFull, rest) =>
      if endsIn CR line then (dropLast CR line, true, None, String CR rest)
      else (line, true, None, rest)
  | (line, _, rest) =>
      if isEmpty line then (EmptyString, false, Some io.EOF, rest)
      else if endsIn LF line then (dropLast CR (dropLast LF line), false, None, rest)
      else (line, false, None, rest)
  end.

(** What the [n]-th call of [ReadLine] returns, counting from 0. *)
Fixpoint readLineAt (size : N) (s : string) (n : nat) : string * bool * option io.error :=
  match n with
  | O => fst (ReadLine size s)
  | S n => readLineAt size (snd (ReadLine size s)) n
  end.

(** [dropCR]. *)
Definition dropCR (data : string) : string := dropLast CR data.

(** The tokens [Scan] yields with the split function [ScanLines] on an
    input that holds [s], and whether [Err] reports [ErrTooLong] in the
    end: the buffer grows up to [maxTokenSize] bytes, and a line that
    fills it without its newline stops the scanner. [fuel] bounds the
    number of tokens. *)
Fixpoint scanLines (fuel : nat) (maxTokenSize : N) (s : string) : list string * bool :=
  match fuel with
  | O => ([], false)
  | S fuel =>
      match fill maxTokenSize s with
      | (line, Delim, rest) =>
          let (toks, err) := scanLines fuel maxTokenSize rest in
          (dropCR (dropLast LF line) :: toks, err)
      | (_, BufferFull, _) => ([], true)
      | (line, EndOfInput, _) =>
          if isEmpty line then ([], false) else ([dropCR line], false)
      end
  end.

(** A scanner made by [NewScanner]; every token takes at least one byte
    of the input. *)
Definition Scan (s : string) : list string * bool :=
  scanLines (S (String.length s)) MaxScanTokenSize s.

End bufio.

(** Test lines are written with ['] for the double quote of JSON. *)
Definition q (s : string) : string :=
  strings.mapBytes (fun c => if byteIs c 39 then QUOTE else c) s.

(** ** The program: [main.go] *)

(** What [pipeFile] writes to the log. *)
Inductive LogEntry : Set :=
  | LogOpenFailed      (* failed to open file *)
  | LogCloseFailed     (* failed to close file *)
  | LogCancelReceived  (* context cancel received. Exit *)
  | LogScannerError    (* file scanner error *)
  | LogAllProcessed.   (* all logs processed (EOF). Exit *)

(** An opened input file as [bufio.Scanner] presents it: the lines
    [Scan] yields one by one, whether [Err] reports an error once [Scan]
    has returned false, and whether [Close] fails. *)
Record File : Set := mkFile {
  tokens : list string;
  scanErr : bool;
  closeErr : bool
}.

Section Nice.

(** The environment of a run: the colour switch of the colour package and
    the Unicode case tables behind [strings.ToLower]. *)
Variable NoColor : bool.
Variable mapUnicodeToLower : string -> string.

(** The value [print] takes from a query result:
    [val := jsField.Str; if jsField.Type == gjson.JSON { val = jsField.Raw }]. *)
Definition fieldValue (jsField : gjson.Result) : string :=
  if gjson.Type_eqb (gjson.Typ jsField) gjson.JSON
  then gjson.Raw jsField else gjson.Str jsField.

(** What one iteration of the loop of [print] appends to the buffer for the
    field at index [idx]: nothing when the value trims to the empty string;
    else the value and a tab, through [outColors[idx].Sprintf] when
    [idx < len(outColors)] (that is, when [nth_error] finds a colour). *)
Definition segment (jsonLine : gjson.Result) (outColors : list color.Color)
    (idx : nat) (field : string) : string :=
  let jsField := gjson.Result_Get jsonLine field in
  let val := fieldValue jsField in
  if String.eqb (strings.TrimSpace val) EmptyString then EmptyString
  else
    match nth_error outColors idx with
    | Some c => color.Sprintf NoColor c (val ++ str1 TAB)
    | None => val ++ str1 TAB
    end.

(** [for idx, field := range outFields { ... buff.WriteString(...) }],
    from index [idx] on. *)
Fixpoint writeFields (jsonLine : gjson.Result) (outColors : list color.Color)
    (idx : nat) (outFields : list string) (buff : string) : string :=
  match outFields with
  | [] => buff
  | field :: rest =>
      writeFields jsonLine outColors (S idx) rest
        (buff ++ segment jsonLine outColors idx field)
  end.

(** [print(line, outFields, outColors, buff, out)]. [buff] is the content
    of the caller's buffer; [out] is the writer, modelled by the list of the
    payloads written to it so far ([fmt.Fprintf] makes one [Write] call).
    The result is the buffer and the writer afterwards. A failed write is
    only logged, so nothing of it reaches the caller. *)
Definition print (line : string) (outFields : list string)
    (outColors : list color.Color) (buff : string) (out : list string)
  : string * list string :=
  let jsonLine := gjson.ParseBytes line in
  let buff := writeFields jsonLine outColors 0 outFields buff in
  if Nat.eqb (String.length buff) 0 then (buff, out)
  else
    let buff := buff ++ str1 LF in
    (buff, (out ++ [buff])%list).

(** The [switch] of [getColorFormat] on the lowered, trimmed token. *)
Definition colorOf (name : string) : color.Color :=
  if String.eqb name "black" then color.New color.FgBlack
  else if String.eqb name "red" then color.New color.FgRed
  else if String.eqb name "green" then color.New color.FgGreen
  else if String.eqb name "yellow" then color.New color.FgYellow
  else if String.eqb name "blue" then color.New color.FgBlue
  else if String.eqb name "magenta" then color.New color.FgMagenta
  else if String.eqb name "cyan" then color.New color.FgCyan
  else if String.eqb name "white" then color.New color.FgWhite
  else color.New color.Reset.

(** The colour one token of the spec stands for. *)
Definition tokenColor (c : string) : color.Color :=
  colorOf (strings.ToLower mapUnicodeToLower (strings.TrimSpace c)).

(** [getColorFormat(inStr)]. *)
Definition getColorFormat (inStr : string) : list color.Color :=
  if Nat.eqb (String.length inStr) 0
     || String.eqb (strings.TrimSpace inStr) EmptyString
  then []
  else map tokenColor (strings.Split inStr).

(** The [for { select { ... } }] loop of [pipeFile]. [done n] tells
    whether [ctx.Done()] is closed when the loop reaches its [select] for
    the [n]-th time: a closed channel is ready, so [select] takes that case
    and never the [default]. [buff] is reset before every call of
    [print]. The result is the writer and the log afterwards. *)
Fixpoint scanLoop (done : nat -> bool) (n : nat) (lines : list string) (err : bool)
    (outFields : list string) (outColors : list color.Color)
    (buff : string) (out : list string) (log : list LogEntry) {struct lines}
  : list string * list LogEntry :=
  if done n then (out, (log ++ [LogCancelReceived])%list)
  else
    match lines with
    | [] => (out, (log ++ [if err then LogScannerError else LogAllProcessed])%list)
    | line :: rest =>
        let (buff', out') := print line outFields outColors EmptyString out in
        scanLoop done (S n) rest err outFields outColors buff' out' log
    end.

(** [pipeFile(ctx, wg, filepath, outputFields, outColors, out)]:
    [file] is what [os.OpenFile] returns, [None] for an error. The deferred
    [Close] runs on every path after a successful open. *)
Definition pipeFile (done : nat -> bool) (file : option File)
    (outputFields : list string) (outColors : list color.Color)
    (out : list string) : list string * list LogEntry :=
  match file with
  | None => (out, [LogOpenFailed])
  | Some f =>
      let (out', log) :=
        scanLoop done 0 (tokens f) (scanErr f) outputFields outColors
          EmptyString out [] in
      (out', if closeErr f then (log ++ [LogCloseFailed])%list else log)
  end.

(** What the pump has written once it has formatted [lines] in order,
    each on a buffer reset before. *)
Definition emitLines (outFields : list string) (outColors : list color.Color)
    (lines : list string) (out : list string) : list string :=
  fold_left (fun o line => snd (print line outFields outColors EmptyString o)) lines out.

End Nice.

Section Stdin.

Variable NoColor : bool.

(** [pipeStdin(outputFields, outColors, out)]. [reader n] is what the
    [n]-th call of [reader.ReadLine()] returns. The loop has no bound of
    its own: the first component of the result tells whether it has
    returned within [fuel] rounds, the second is the writer by then. *)
Fixpoint pipeStdin (fuel : nat) (reader : nat -> string * bool * option io.error)
    (n : nat) (outputFields : list string) (outColors : list color.Color)
    (out : list string) : bool * list string :=
  match fuel with
  | O => (false, out)
  | S fuel =>
      let '(line, _, err) := reader n in
      match err with
      | Some io.EOF => (true, out)
      | _ =>
          let (_, out') := print NoColor line outputFields outColors EmptyString out in
          pipeStdin fuel reader (S n) outputFields outColors out'
      end
  end.

End Stdin.

(** *** The earlier revision of [print]

    The revision of [main.go] without colours queries the line itself
    with [gjson.GetBytes], where the present one parses the line first and
    queries the result. *)

Module Earlier.

Fixpoint writeFields (line : string) (outFields : list string) (buff : string) : string :=
  match outFields with
  | [] => buff
  | field :: rest =>
      let jsField := gjson.GetBytes line field in
      let val := fieldValue jsField in
      writeFields line rest
        (if String.eqb (strings.TrimSpace val) EmptyString then buff
         else buff ++ (val ++ str1 TAB))
  end.

(** [print(line, outFields, buff, out)]. *)
Definition print (line : string) (outFields : list string)
    (buff : string) (out : list string) : string * list string :=
  let buff := writeFields line outFields buff in
  if Nat.eqb (String.length buff) 0 then (buff, out)
  else
    let buff := buff ++ str1 LF in
    (buff, (out ++ [buff])%list).

End Earlier.

(** *** [main]

    [main] starts one goroutine that pumps the standard input, when that
    is piped, and one per input file; all of them write to [os.Stdout].
    The run of the program is told as a machine whose steps are chosen by
    a schedule: a step of [main] itself, a step of one pump, or the
    arrival of [SIGINT] or [SIGTERM]. A pump takes a step for each thing
    it does that the others can see or that sees the others: the [select]
    on [ctx.Done()], and the [Scan] or [ReadLine] of one line with the
    [print] of it, which makes at most one write. What is logged is left
    out. *)

(** What [main] reads from its environment. *)
Record Env : Type := mkEnv {
  fInputFiles : string;
  fOutputFormat : string;
  fFieldColors : string;
  (** [os.Stdin.Stat()]: [None] for an error, else whether the mode has
      [os.ModeCharDevice] cleared, that is whether the input is piped. *)
  stdinPiped : option bool;
  (** The results of the calls of [ReadLine] on the standard input. *)
  stdinReader : nat -> string * bool * option io.error;
  (** [os.OpenFile] on a path. *)
  openFile : string -> option File;
  (** Whether [os.Stdout.Close()] fails. *)
  closeFails : bool
}.

(** Who made a write. *)
Inductive Writer : Set := FromStdin | FromFile (i : nat).

(** Where [main] stands. *)
Inductive Phase : Set :=
  | Starting      (* the goroutines are started, signals not yet trapped *)
  | AwaitSignal   (* [sig := <-stopChan] *)
  | AwaitPumps    (* [wg.Wait()] *)
  | Closed        (* the output is closed *)
  | Exited        (* [main] has returned *)
  | Killed        (* ended by a signal that was not trapped *)
  | Panicked.     (* [log.Panicf] *)

(** Where the goroutine of [pipeFile] for one file stands. *)
Inductive Pump : Set :=
  | Spawned (filepath : string)      (* before [os.OpenFile] *)
  | Selecting (lines : list string)  (* at the [select], [lines] still to scan *)
  | Scanning (lines : list string)   (* in the [default] case, before [Scan] *)
  | Returned.

(** Where the goroutine of [pipeStdin] stands. *)
Inductive StdinPump : Set :=
  | NoStdin              (* not started: the input is not piped *)
  | Reading (n : nat)    (* before the [n]-th [ReadLine] *)
  | StdinReturned.

Record State : Set := mkState {
  phase : Phase;
  cancelled : bool;                    (* [ctxCancel()] was called *)
  stdinPump : StdinPump;
  pumps : list Pump;
  written : list (Writer * string)     (* the writes to [os.Stdout] so far *)
}.

Inductive Event : Set :=
  | Signal               (* [SIGINT] or [SIGTERM] arrives *)
  | StepMain
  | StepStdin
  | StepFile (i : nat).

Section Main.

Variable NoColor : bool.
Variable mapUnicodeToLower : string -> string.
Variable env : Env.

(** [if fInputFiles != "" { fileStrs = strings.Split(fInputFiles, ",") }]. *)
Definition fileStrs : list string :=
  if isEmpty (fInputFiles env) then [] else strings.Split (fInputFiles env).

Definition outFields : list string := strings.Split (fOutputFormat env).

Definition outColors : list color.Color :=
  getColorFormat mapUnicodeToLower (fFieldColors env).

Definition isPiped : bool :=
  match stdinPiped env with Some piped => piped | None => false end.

(** The state once [main] has started its goroutines; a failed [Stat]
    panics before that. *)
Definition start : State :=
  match stdinPiped env with
  | None => mkState Panicked false NoStdin [] []
  | Some piped =>
      mkState Starting false (if piped then Reading 0 else NoStdin)
        (map Spawned fileStrs) []
  end.

Definition running (p : Phase) : bool :=
  match p with
  | Exited | Killed | Panicked => false
  | _ => true
  end.

Definition isReturned (p : Pump) : bool :=
  match p with Returned => true | _ => false end.

(** The writes of one call of [print] on a buffer that was reset, marked
    with their writer. *)
Definition writesOf (w : Writer) (line : string) : list (Writer * string) :=
  map (pair w) (snd (print NoColor line outFields outColors EmptyString [])).

(** One step of [main]. *)
Definition stepMain (st : State) : State :=
  match phase st with
  | Starting =>
      mkState (if isPiped then AwaitSignal else AwaitPumps)
        (cancelled st) (stdinPump st) (pumps st) (written st)
  | AwaitPumps =>
      if forallb isReturned (pumps st) then
        mkState (if closeFails env then Panicked else Closed)
          (cancelled st) (stdinPump st) (pumps st) (written st)
      else st
  | Closed => mkState Exited (cancelled st) (stdinPump st) (pumps st) (written st)
  | _ => st
  end.

(** A signal: trapped once [signal.Notify] has run, which happens only
    when the input is piped; [main] takes the first one it traps and
    cancels the context. *)
Definition stepSignal (st : State) : State :=
  match phase st with
  | AwaitSignal => mkState AwaitPumps true (stdinPump st) (pumps st) (written st)
  | Starting => mkState Killed (cancelled st) (stdinPump st) (pumps st) (written st)
  | _ =>
      if isPiped then st
      else mkState Killed (cancelled st) (stdinPump st) (pumps st) (written st)
  end.

(** One round of the loop of [pipeStdin]. A write to the closed output
    fails and leaves no trace but in the log. *)
Definition stepStdin (st : State) : State :=
  match stdinPump st with
  | Reading n =>
      let '(line, _, err) := stdinReader env n in
      match err with
      | Some io.EOF =>
          mkState (phase st) (cancelled st) StdinReturned (pumps st) (written st)
      | _ =>
          mkState (phase st) (cancelled st) (Reading (S n)) (pumps st)
            (match phase st with
             | Closed => written st
             | _ => written st ++ writesOf FromStdin line
             end)%list
      end
  | _ => st
  end.

(** One step of the goroutine of [pipeFile] number [i]. *)
Definition stepPump (i : nat) (p : Pump) (cancel : bool)
  : Pump * list (Writer * string) :=
  match p with
  | Spawned filepath =>
      match openFile env filepath with
      | None => (Returned, [])
      | Some f => (Selecting (tokens f), [])
      end
  | Selecting lines => (if cancel then Returned else Scanning lines, [])
  | Scanning [] => (Returned, [])
  | Scanning (line :: lines) => (Selecting lines, writesOf (FromFile i) line)
  | Returned => (Returned, [])
  end.

Fixpoint setNth {A : Type} (i : nat) (x : A) (l : list A) : list A :=
  match l, i with
  | [], _ => []
  | _ :: r, O => x :: r
  | y :: r, S i => y :: setNth i x r
  end.

Definition stepFile (i : nat) (st : State) : State :=
  match nth_error (pumps st) i with
  | None => st
  | Some p =>
      let (p', ws) := stepPump i p (cancelled st) in
      mkState (phase st) (cancelled st) (stdinPump st)
        (setNth i p' (pumps st)) (written st ++ ws)%list
  end.

Definition step (e : Event) (st : State) : State :=
  if running (phase st) then
    match e with
    | Signal => stepSignal st
    | StepMain => stepMain st
    | StepStdin => stepStdin st
    | StepFile i => stepFile i st
    end
  else st.

(** The run of [main] under a schedule. *)
Definition run (schedule : list Event) : State :=
  fold_left (fun st e => step e st) schedule start.

End Main.

(** * Vocabulary of the properties *)

(** ** Lines of output *)

(** The values [print] reads for the fields of a line, and the line it
    builds from those that are not blank when there are no colours. *)
Definition fieldValues (line : string) (outFields : list string) : list string :=
  map (fun field => fieldValue (gjson.Result_Get (gjson.ParseBytes line) field)) outFields.

Definition notBlank (val : string) : bool :=
  negb (String.eqb (strings.TrimSpace val) EmptyString).

Fixpoint tabbed (vals : list string) : string :=
  match vals with
  | [] => EmptyString
  | v :: vs => (v ++ str1 TAB) ++ tabbed vs
  end.

(** [endsWith s c]: [s] is not empty and its last byte is [c]. *)
Definition endsWith (s : string) (c : ascii) : Prop := exists b, s = b ++ str1 c.

(** The names the [switch] of [getColorFormat] knows. *)
Definition colorTable : list (string * color.Attribute) :=
  [("black", color.FgBlack); ("red", color.FgRed); ("green", color.FgGreen);
   ("yellow", color.FgYellow); ("blue", color.FgBlue); ("magenta", color.FgMagenta);
   ("cyan", color.FgCyan); ("white", color.FgWhite)].

(** ** Classes of bytes and texts *)

(** [allBytes p s]: every byte of [s] satisfies [p]. *)
Fixpoint allBytes (p : ascii -> bool) (s : string) : bool :=
  match s with
  | EmptyString => true
  | String c r => p c && allBytes p r
  end.

(** A string of ASCII white space only. *)
Definition isBlank (s : string) : bool := allBytes strings.asciiSpace s.

Definition noOpen (c : ascii) : bool := negb (byteIs c 123 || byteIs c 91).

(** [occurs s t]: the text [s] stands in [t], byte for byte. *)
Definition occurs (s t : string) : Prop := exists before after, t = before ++ s ++ after.

(** ** The results of the scanners *)

(** The four shapes of result the scanners build. *)
Inductive hitShape : gjson.Result -> Prop :=
  | shape_string content vesc : hitShape (gjson.stringResult content vesc)
  | shape_json raw : hitShape (gjson.mkResult gjson.JSON raw "")
  | shape_number raw : hitShape (gjson.mkResult gjson.Number raw "")
  | shape_literal c raw : hitShape (gjson.literalResult c raw).

Definition hitOk (r : option gjson.Result * string) : Prop :=
  match fst r with Some v => hitShape v | None => True end.

(** ** Well-formed JSON text

    To speak of every well-formed line, JSON documents are given as
    syntax trees that keep what the text has between its tokens: [render]
    writes the text of a tree, and every JSON text is the text of a tree.
    Numbers, string bodies and keys are kept as they are written. *)

Inductive value : Set :=
  | VNull
  | VTrue
  | VFalse
  | VNumber (raw : string)
  | VString (body : string)
  | VArray (inner : string) (elems : elements)
  | VObject (inner : string) (membs : members)
with elements : Set :=
  | ENil
  | ECons (pre : string) (v : value) (post : string) (rest : elements)
with members : Set :=
  | MNil
  | MCons (pre key mid pre' : string) (v : value) (post : string) (rest : members).

Scheme value_mut := Induction for value Sort Prop
  with elements_mut := Induction for elements Sort Prop
  with members_mut := Induction for members Sort Prop.

Combined Scheme value_elements_members_ind from value_mut, elements_mut, members_mut.

(** The comma before the elements or members that follow. *)
Definition elemSep (rest : elements) : string :=
  match rest with ENil => "" | ECons _ _ _ _ => "," end.

Definition memberSep (rest : members) : string :=
  match rest with MNil => "" | MCons _ _ _ _ _ _ _ => "," end.

(** The text of a tree. [inner] is the white space of an empty container;
    [pre], [mid], [pre'] and [post] are the white space around a key, a
    colon and a value. *)
Fixpoint render (v : value) : string :=
  match v with
  | VNull => "null"
  | VTrue => "true"
  | VFalse => "false"
  | VNumber raw => raw
  | VString body => String QUOTE body ++ str1 QUOTE
  | VArray inner ENil => "[" ++ inner ++ "]"
  | VArray _ es => "[" ++ renderElems es ++ "]"
  | VObject inner MNil => "{" ++ inner ++ "}"
  | VObject _ ms => "{" ++ renderMembers ms ++ "}"
  end
with renderElems (es : elements) : string :=
  match es with
  | ENil => ""
  | ECons pre v post rest =>
      pre ++ render v ++ post ++ elemSep rest ++ renderElems rest
  end
with renderMembers (ms : members) : string :=
  match ms with
  | MNil => ""
  | MCons pre key mid pre' v post rest =>
      pre ++ String QUOTE key ++ str1 QUOTE ++ mid ++ ":" ++ pre' ++ render v ++ post
      ++ memberSep rest ++ renderMembers rest
  end.

(** The text between the brackets of a container. *)
Definition objBody (inner : string) (ms : members) : string :=
  match ms with MNil => inner | MCons _ _ _ _ _ _ _ => renderMembers ms end.

Definition arrBody (inner : string) (es : elements) : string :=
  match es with ENil => inner | ECons _ _ _ _ => renderElems es end.

(** The white space of JSON: space, tab, line feed, carriage return. *)
Definition jsonSpace (c : ascii) : bool :=
  byteIs c 32 || byteIs c 9 || byteIs c 10 || byteIs c 13.

Definition isJsonSpace (s : string) : bool := allBytes jsonSpace s.

(** The body of a string: no bare quote, and every backslash is followed
    by a byte it escapes. *)
Fixpoint okBody (s : string) : bool :=
  match s with
  | EmptyString => true
  | String c r =>
      if byteIs c 34 then false
      else if byteIs c 92 then
        match r with
        | EmptyString => false
        | String _ r' => okBody r'
        end
      else okBody r
  end.

(** The bytes of a number after its first: digits, [.], [e], [E], [+], [-]. *)
Definition numberByte (c : ascii) : bool :=
  (N.leb 48 (code c) && N.leb (code c) 57)
  || byteIs c 46 || byteIs c 101 || byteIs c 69 || byteIs c 43 || byteIs c 45.

Definition okNumber (s : string) : bool :=
  match s with
  | EmptyString => false
  | String c r => gjson.isNumberStart c && allBytes numberByte r
  end.

Definition lowerWord (w : string) : bool :=
  allBytes (fun c => N.leb 97 (code c) && N.leb (code c) 122) w.

(** The trees of JSON texts. *)
Fixpoint wf (v : value) : bool :=
  match v with
  | VNull | VTrue | VFalse => true
  | VNumber raw => okNumber raw
  | VString body => okBody body
  | VArray inner es => isJsonSpace inner && wfElems es
  | VObject inner ms => isJsonSpace inner && wfMembers ms
  end
with wfElems (es : elements) : bool :=
  match es with
  | ENil => true
  | ECons pre v post rest =>
      isJsonSpace pre && wf v && isJsonSpace post && wfElems rest
  end
with wfMembers (ms : members) : bool :=
  match ms with
  | MNil => true
  | MCons pre key mid pre' v post rest =>
      isJsonSpace pre && okBody key && isJsonSpace mid && isJsonSpace pre'
      && wf v && isJsonSpace post && wfMembers rest
  end.

Definition isContainer (v : value) : bool :=
  match v with
  | VArray _ _ | VObject _ _ => true
  | _ => false
  end.

(** ** The value at a path *)

(** [s] holds a backslash. *)
Fixpoint hasEscape (s : string) : bool :=
  match s with
  | EmptyString => false
  | String c r => byteIs c 92 || hasEscape r
  end.

(** The key a member is found by: its body, decoded when it has escapes. *)
Definition keyText (key : string) : string :=
  if hasEscape key then gjson.unescape key else key.

(** The first member with the given name. *)
Fixpoint memberNamed (name : string) (ms : members) : option value :=
  match ms with
  | MNil => None
  | MCons _ key _ _ v _ rest =>
      if String.eqb name (keyText key) then Some v else memberNamed name rest
  end.

(** The element with index [n], counting from [h]. *)
Fixpoint elementAt (n h : N) (es : elements) : option value :=
  match es with
  | ENil => None
  | ECons _ v _ rest => if N.eqb n h then Some v else elementAt n (h + 1) rest
  end.

(** The member of an object by name, the element of an array by index. *)
Definition child (v : value) (part : string) : option value :=
  match v with
  | VObject _ ms => memberNamed part ms
  | VArray _ es =>
      match gjson.parseUint part with
      | Some n => elementAt n 0 es
      | None => None
      end
  | _ => None
  end.

(** The value a path leads to, part by part. *)
Fixpoint valueAt (v : value) (parts : list string) : option value :=
  match parts with
  | [] => Some v
  | part :: rest =>
      match child v part with
      | Some v' => valueAt v' rest
      | None => None
      end
  end.

(** A plain part of a path: letters, digits, [_], [-] and bytes of
    non-ASCII characters; none of the bytes the path language gives a
    meaning to. *)
Definition plainByte (c : ascii) : bool :=
  (N.leb 48 (code c) && N.leb (code c) 57)
  || (N.leb 65 (code c) && N.leb (code c) 90)
  || (N.leb 97 (code c) && N.leb (code c) 122)
  || byteIs c 95 || byteIs c 45 || N.leb 128 (code c).

Definition plainPart (part : string) : bool :=
  negb (isEmpty part) && allBytes plainByte part.

(** A plain path: plain bytes and dots, with no dot in front. *)
Definition plainPath (path : string) : bool :=
  allBytes (fun c => plainByte c || byteIs c 46) path
  && match path with
     | String c _ => negb (byteIs c 46)
     | EmptyString => true
     end.

(** The path with the given parts. *)
Fixpoint joinPath (parts : list string) : string :=
  match parts with
  | [] => ""
  | [part] => part
  | part :: rest => part ++ "." ++ joinPath rest
  end.

(** ** The search of the scanners, told on the tree *)

(** The result a query gives for a value it has reached. *)
Definition resultOf (v : value) : gjson.Result :=
  match v with
  | VNull => gjson.mkResult gjson.Null "null" ""
  | VTrue => gjson.mkResult gjson.True_ "true" ""
  | VFalse => gjson.mkResult gjson.False_ "false" ""
  | VNumber raw => gjson.mkResult gjson.Number raw ""
  | VString body => gjson.stringResult body (hasEscape body)
  | VArray _ _ | VObject _ _ => gjson.mkResult gjson.JSON (render v) ""
  end.

(** The search of [parseObject] and [parseArray], told on the tree: the
    members (elements) are tried in order; one that matches the first part
    of the path is the result when the path ends there, and is searched
    with the rest of the path when it is a container. *)
Fixpoint findMembers (path : string) (ms : members) : option gjson.Result :=
  match ms with
  | MNil => None
  | MCons _ key _ _ v _ rest =>
      let (part, more) := gjson.splitPath path in
      let pmatch := String.eqb part (keyText key) in
      match more with
      | None => if pmatch then Some (resultOf v) else findMembers path rest
      | Some sub =>
          if pmatch then
            match v with
            | VObject _ ms' =>
                match findMembers sub ms' with
                | Some r => Some r
                | None => findMembers path rest
                end
            | VArray _ es' =>
                match findElems sub 0 es' with
                | Some r => Some r
                | None => findMembers path rest
                end
            | _ => findMembers path rest
            end
          else findMembers path rest
      end
  end
with findElems (path : string) (h : N) (es : elements) : option gjson.Result :=
  match es with
  | ENil => None
  | ECons _ v _ rest =>
      let (part, more) := gjson.splitPath path in
      let pmatch := gjson.indexMatches part h in
      match more with
      | None => if pmatch then Some (resultOf v) else findElems path (h + 1) rest
      | Some sub =>
          if pmatch then
            match v with
            | VObject _ ms' =>
                match findMembers sub ms' with
                | Some r => Some r
                | None => findElems path (h + 1) rest
                end
            | VArray _ es' =>
                match findElems sub 0 es' with
                | Some r => Some r
                | None => findElems path (h + 1) rest
                end
            | _ => findElems path (h + 1) rest
            end
          else findElems path (h + 1) rest
      end
  end.

(** The search from the root of a document. *)
Definition find (doc : value) (path : string) : option gjson.Result :=
  match doc with
  | VObject _ ms => findMembers path ms
  | VArray _ es => findElems path 0 es
  | _ => None
  end.

(** ** What the scanners do on the text of a tree *)

(** [consStr s p]: [s] in front of the text a scanner has read. *)
Definition consStr (s : string) (p : string * string) : string * string :=
  (s ++ fst p, snd p).

(** What may follow a number or a literal: the end of the text, white
    space, [,], []] or [}]. *)
Definition delimited (s : string) : bool :=
  match s with
  | EmptyString => true
  | String c _ => N.leb (code c) 32 || byteIs c 44 || byteIs c 93 || byteIs c 125
  end.

(** The bytes each loop steps over. *)
Definition keySkip (c : ascii) : bool := negb (byteIs c 34) && negb (byteIs c 125).

Definition valSkip (c : ascii) : bool :=
  negb (byteIs c 34) && negb (byteIs c 123) && negb (byteIs c 91)
  && negb (gjson.isNumberStart c) && negb (gjson.isLiteralStart c).

Definition elemSkip (c : ascii) : bool := valSkip c && negb (byteIs c 93).

(** The bytes [parseSquash] reads without a change of state. *)
Definition neutral (c : ascii) : bool :=
  negb (byteIs c 34) && negb (byteIs c 123) && negb (byteIs c 91)
  && negb (byteIs c 125) && negb (byteIs c 93).

(** The parts of a path, as the loops read them. *)
Definition pathMore (path : string) : option string := snd (gjson.splitPath path).

Definition hitOf (path : string) (pmatch : bool) : bool :=
  pmatch && negb (gjson.isSome (pathMore path)).

Definition subOf (path : string) : string :=
  match pathMore path with Some p => p | None => "" end.

(** The same for the loop over the elements of an array; the element
    counter decides the match. *)
Definition pmAt (path : string) (h : N) : bool :=
  gjson.indexMatches (fst (gjson.splitPath path)) h.

Definition hitAt (path : string) (h : N) : bool :=
  pmAt path h && negb (gjson.isSome (pathMore path)).

(** [agrees res expected rest]: the scanner found what the search on the
    tree finds, and when that is nothing it stopped at [rest]. *)
Definition agrees (res : option gjson.Result * string)
    (expected : option gjson.Result) (rest : string) : Prop :=
  fst res = expected /\ (expected = None -> snd res = rest).

Definition scansMembers (ms : members) : Prop :=
  wfMembers ms = true ->
  forall path fuel lead rest,
    allBytes keySkip lead = true ->
    String.length (lead ++ renderMembers ms ++ String "}" rest) < fuel ->
    agrees (gjson.objKey fuel path (lead ++ renderMembers ms ++ String "}" rest))
      (findMembers path ms) rest.

Definition scansElems (es : elements) : Prop :=
  wfElems es = true ->
  forall path h fuel lead rest,
    allBytes elemSkip lead = true ->
    String.length (lead ++ renderElems es ++ String "]" rest) < fuel ->
    agrees (gjson.arrVal fuel path h (lead ++ renderElems es ++ String "]" rest))
      (findElems path h es) rest.

Definition scansValue (v : value) : Prop :=
  wf v = true ->
  match v with
  | VObject inner ms =>
      forall path fuel rest,
        String.length (objBody inner ms ++ String "}" rest) < fuel ->
        agrees (gjson.objKey fuel path (objBody inner ms ++ String "}" rest))
          (findMembers path ms) rest
  | VArray inner es =>
      forall path h fuel rest,
        String.length (arrBody inner es ++ String "]" rest) < fuel ->
        agrees (gjson.arrVal fuel path h (arrBody inner es ++ String "]" rest))
          (findElems path h es) rest
  | _ => True
  end.

(** ** The lines a pump writes *)

(** What [print] writes for one line on a buffer that was reset. *)
Definition lineOutput (NoColor : bool) (outFields : list string)
    (outColors : list color.Color) (line : string) : list string :=
  snd (print NoColor line outFields outColors EmptyString []).

(** A whole line of output: a body that is not empty, then the newline. *)
Definition completeLine (payload : string) : Prop :=
  exists body, body <> EmptyString /\ payload = body ++ str1 LF.

(** The lines of an input file; none when it could not be opened. *)
Definition linesOf (file : option File) : list string :=
  match file with Some f => tokens f | None => [] end.

(** The lines a reader of the standard input hands out in its first [k]
    calls. *)
Definition linesRead (reader : nat -> string * bool * option io.error) (k : nat)
  : list string :=
  map (fun j => fst (fst (reader j))) (seq 0 k).

(** The text of a file with the given lines, each ended by a newline. *)
Fixpoint unlines (lines : list string) : string :=
  match lines with
  | [] => EmptyString
  | l :: ls => l ++ String LF (unlines ls)
  end.

Definition noLF (c : ascii) : bool := negb (byteIs c 10).

(** A line that fits a buffer of [size] bytes together with its newline. *)
Definition fits (size : N) (l : string) : Prop :=
  allBytes noLF l = true /\ (N.of_nat (String.length l) < size)%N.

(** An opened file with the given content, as its scanner presents it. *)
Definition fileOf (content : string) (closeErr : bool) : File :=
  mkFile (fst (bufio.Scan content)) (snd (bufio.Scan content)) closeErr.

(** A string of [n] bytes [c]. *)
Definition bytes (n : N) (c : ascii) : string := N.iter n (String c) EmptyString.

(** ** The text of a string value *)

(** The text of a json string: its body, decoded when it has escapes. *)
Definition decoded (body : string) : string :=
  if hasEscape body then gjson.unescape body else body.

(** The values that are neither strings nor containers. *)
Definition isScalarNoText (v : value) : bool :=
  match v with
  | VNull | VTrue | VFalse | VNumber _ => true
  | _ => false
  end.

(** What a query finds in a document, [Result{}] when it finds nothing. *)
Definition found (doc : value) (path : string) : gjson.Result :=
  match find doc path with Some r => r | None => gjson.zero end.

Definition hexDigit (n : N) : ascii :=
  if N.ltb n 10 then ascii_of_N (48 + n) else ascii_of_N (87 + n).

(** The escapes a writer of JSON puts for the bytes of a text: the quote,
    the backslash and the control bytes are escaped, every other byte is
    written as it is. *)
Definition escapeByte (c : ascii) : string :=
  if byteIs c 34 then String BACKSLASH (str1 QUOTE)
  else if byteIs c 92 then String BACKSLASH (str1 BACKSLASH)
  else if byteIs c 10 then String BACKSLASH "n"
  else if byteIs c 13 then String BACKSLASH "r"
  else if byteIs c 9 then String BACKSLASH "t"
  else if N.ltb (code c) 32 then
    String BACKSLASH
      ("u00" ++ String (hexDigit (code c / 16)) (str1 (hexDigit (code c mod 16))))
  else str1 c.

Fixpoint escape (s : string) : string :=
  match s with
  | EmptyString => EmptyString
  | String c r => escapeByte c ++ escape r
  end.

(** ** The start of a line *)

(** The first byte of a line above the space. *)
Fixpoint firstByte (s : string) : option ascii :=
  match s with
  | EmptyString => None
  | String c r => if N.leb (code c) 32 then firstByte r else Some c
  end.

(** The line starts, after white space, with [{] or [[]. *)
Definition opensContainer (line : string) : bool :=
  match firstByte line with
  | Some c => byteIs c 123 || byteIs c 91
  | None => false
  end.

(** The bytes a JSON value can start with. *)
Definition opensValue (c : ascii) : bool :=
  byteIs c 123 || byteIs c 91 || byteIs c 34
  || gjson.isNumberStart c || gjson.isLiteralStart c.

Definition noComma (c : ascii) : bool := negb (byteIs c 44).

(** ** The run of [main] *)

Definition Writer_eqb (a b : Writer) : bool :=
  match a, b with
  | FromStdin, FromStdin => true
  | FromFile i, FromFile j => Nat.eqb i j
  | _, _ => false
  end.

(** The payloads one writer has written, in order. *)
Definition payloads (w : Writer) (ws : list (Writer * string)) : list string :=
  map snd (filter (fun p => Writer_eqb (fst p) w) ws).

(** The lines of the [i]-th input file; none when there is no such file or
    it cannot be opened. *)
Definition fileLines (env : Env) (i : nat) : list string :=
  match nth_error (fileStrs env) i with
  | Some filepath =>
      match openFile env filepath with
      | Some f => tokens f
      | None => []
      end
  | None => []
  end.

Section MainVocabulary.

Variable NoColor : bool.
Variable mapUnicodeToLower : string -> string.
Variable env : Env.

(** The payloads of one line under the flags of [env]. *)
Definition lineOut (line : string) : list string :=
  lineOutput NoColor (outFields env) (outColors mapUnicodeToLower env) line.

(** What a file pump has written, given where it stands. *)
Definition pumpInv (cancel : bool) (i : nat) (p : Pump) (ws : list string) : Prop :=
  match p with
  | Spawned filepath => nth_error (fileStrs env) i = Some filepath /\ ws = []
  | Selecting lines | Scanning lines =>
      exists k, lines = skipn k (fileLines env i)
                /\ ws = flat_map lineOut (firstn k (fileLines env i))
  | Returned =>
      (exists k, ws = flat_map lineOut (firstn k (fileLines env i)))
      /\ (cancel = false -> ws = flat_map lineOut (fileLines env i))
  end.

(** [main] has not closed the output. *)
Definition outputOpen (p : Phase) : bool :=
  match p with
  | Starting | AwaitSignal | AwaitPumps => true
  | _ => false
  end.

(** What the pump of the standard input has written, given where it
    stands. *)
Definition stdinInv (ph : Phase) (p : StdinPump) (ws : list string) : Prop :=
  (exists k, ws = flat_map lineOut (linesRead (stdinReader env) k))
  /\ match p with
     | NoStdin => ws = []
     | Reading n =>
         outputOpen ph = true -> ws = flat_map lineOut (linesRead (stdinReader env) n)
     | StdinReturned => True
     end.

(** The invariant of the run. *)
Record Inv (st : State) : Prop := mkInv {
  inv_pumps : forall i p, nth_error (pumps st) i = Some p ->
      pumpInv (cancelled st) i p (payloads (FromFile i) (written st));
  inv_nopump : forall i, nth_error (pumps st) i = None ->
      payloads (FromFile i) (written st) = [];
  inv_stdin : stdinInv (phase st) (stdinPump st) (payloads FromStdin (written st));
  inv_lines : Forall completeLine (map snd (written st));
  inv_done : phase st = Closed \/ phase st = Exited ->
      forallb isReturned (pumps st) = true;
  inv_unpiped : isPiped env = false -> cancelled st = false /\ stdinPump st = NoStdin;
  inv_length : stdinPiped env <> None -> length (pumps st) = length (fileStrs env);
  inv_await : phase st = AwaitSignal -> isPiped env = true
}.

(** The line a pump has taken the [default] case for and not yet
    scanned. *)
Definition inFlight (p : option Pump) : nat :=
  match p with
  | Some (Scanning (_ :: _)) => 1
  | _ => 0
  end.

End MainVocabulary.

(** A pump has no line in flight: it is not between the [default] case of
    its [select] and the [Scan] of a line that is there to be read. *)
Definition settled (p : option Pump) : bool :=
  match p with
  | Some (Scanning (_ :: _)) => false
  | _ => true
  end.

(** ** Sample inputs *)

(** The document
    [{"time":"T1","n": 5, "msg":"a\tb\u00e9","ok":true,"tags":["x","y"]}]. *)
Definition sampleDoc : value :=
  VObject ""
    (MCons "" "time" "" "" (VString "T1") ""
       (MCons "" "n" "" " " (VNumber "5") ""
          (MCons " " "msg" "" ""
             (VString (String "a" (String BACKSLASH ("tb" ++ String BACKSLASH "u00e9")))) ""
             (MCons "" "ok" "" "" VTrue ""
                (MCons "" "tags" "" ""
                   (VArray "" (ECons "" (VString "x") "" (ECons "" (VString "y") "" ENil)))
                   "" MNil))))).

(** The document [{"msg":"..."}] with the given text, escaped. *)
Definition msgDoc (text : string) : value :=
  VObject "" (MCons "" "msg" "" "" (VString (escape text)) "" MNil).

(** A reader of standard input that hands out the given lines and then
    the end of the file. *)
Definition readerOf (lines : list string) (n : nat) : string * bool * option io.error :=
  match nth_error lines n with
  | Some line => (line, false, None)
  | None => (EmptyString, false, Some io.EOF)
  end.

(** A reader whose every read fails with an error that is not the end of
    the file. *)
Definition brokenReader (n : nat) : string * bool * option io.error :=
  (EmptyString, false, Some io.ErrOther).

(** Two input files, [a.log] with two lines and [b.log] with one; no other
    file can be opened. *)
Definition sampleFiles (filepath : string) : option File :=
  if String.eqb filepath "a.log"
  then Some (mkFile [q "{'msg':'a1'}"; q "{'msg':'a2'}"] false false)
  else if String.eqb filepath "b.log"
  then Some (mkFile [q "{'msg':'b1'}"] false false)
  else None.

(** [nice --files a.log,b.log -f msg], with a terminal or a pipe as
    standard input. *)
Definition sampleEnv (piped : bool) : Env :=
  mkEnv "a.log,b.log" "msg" "" (Some piped) (readerOf [q "{'msg':'in'}"])
    sampleFiles false.


(** * Properties *)

(** ** Byte strings *)

Lemma append_nil_r (s : string) : s ++ "" = s.
Proof. induction s as [|c s IH]; simpl; [reflexivity | now rewrite IH]. Qed.

Lemma append_assoc (s1 s2 s3 : string) : (s1 ++ s2) ++ s3 = s1 ++ (s2 ++ s3).
Proof. induction s1 as [|c s1 IH]; simpl; [reflexivity | now rewrite IH]. Qed.

Lemma length_append (s1 s2 : string) :
  String.length (s1 ++ s2) = String.length s1 + String.length s2.
Proof. induction s1 as [|c s1 IH]; simpl; [reflexivity | now rewrite IH]. Qed.

Lemma append_eq_nil (s1 s2 : string) : s1 ++ s2 = "" -> s1 = "" /\ s2 = "".
Proof. destruct s1; simpl; [auto | discriminate]. Qed.

Lemma length_zero (s : string) : Nat.eqb (String.length s) 0 = true <-> s = "".
Proof.
  destruct s; simpl; split; intro H; try reflexivity; discriminate.
Qed.

Lemma endsWith_append (s1 s2 : string) (c : ascii) :
  endsWith s2 c -> endsWith (s1 ++ s2) c.
Proof.
  intros [b ->]. exists (s1 ++ b). now rewrite append_assoc.
Qed.

Lemma endsWith_last (b : string) (c d : ascii) : endsWith (b ++ str1 c) d -> c = d.
Proof.
  intros [b' H]. revert b' H.
  induction b as [|x b IH]; intros [|y b'] H; simpl in H.
  - now inversion H.
  - inversion H as [[Hc Hb]]. destruct b'; discriminate.
  - inversion H as [[Hc Hb]]. destruct b; discriminate.
  - inversion H. eauto.
Qed.

(** ** The results of a query *)

#[local] Hint Constructors hitShape : core.

Ltac split_scan :=
  repeat match goal with
    | |- context [if ?b then _ else _] => destruct b
    | |- context [match ?x with _ => _ end] => destruct x eqn:?
    | |- context [let (_, _) := ?x in _] => destruct x eqn:?
    end.

Lemma scan_hitShape (fuel : nat) :
  (forall path s, hitOk (gjson.objKey fuel path s))
  /\ (forall path pm s, hitOk (gjson.objVal fuel path pm s))
  /\ (forall path h s, hitOk (gjson.arrVal fuel path h s)).
Proof.
  induction fuel as [|fuel (IHk & IHv & IHa)]; [repeat split; intros; exact I|].
  repeat split; intros; simpl.
  - destruct s as [|c r]; [exact I|].
    destruct (byteIs c 34).
    + destruct (gjson.scanString false false r) as [[[key r'] kesc]|]; [|exact I].
      destruct (gjson.splitPath path). apply IHv.
    + destruct (byteIs c 125); [exact I | apply IHk].
  - destruct (gjson.splitPath path) as [part more].
    destruct s as [|c r]; [exact I|].
    pose proof (IHk (match more with Some p => p | None => "" end) r) as Hk.
    pose proof (IHa (match more with Some p => p | None => "" end) 0%N r) as Ha.
    unfold hitOk in Hk, Ha.
    split_scan; simpl in *; subst;
      try exact I; try apply IHk; try apply IHv; try (unfold hitOk; simpl; now auto).
  - destruct (gjson.splitPath path) as [part more].
    destruct s as [|c r]; [exact I|].
    pose proof (IHk (match more with Some p => p | None => "" end) r) as Hk.
    pose proof (IHa (match more with Some p => p | None => "" end) 0%N r) as Ha.
    unfold hitOk in Hk, Ha.
    split_scan; simpl in *; subst;
      try exact I; try apply IHa; try (unfold hitOk; simpl; now auto).
Qed.

(** Every result of [Get] is [Result{}] or has one of the four shapes. *)
Lemma Get_shape (json path : string) :
  gjson.Get json path = gjson.zero \/ hitShape (gjson.Get json path).
Proof.
  induction json as [|c r IH]; simpl; [now left|].
  destruct (byteIs c 123).
  - unfold gjson.valueOf, gjson.parseObject.
    pose proof (proj1 (scan_hitShape (S (String.length r))) path r) as H.
    unfold hitOk in H. destruct (fst _); auto.
  - destruct (byteIs c 91); [|exact IH].
    unfold gjson.valueOf, gjson.parseArray.
    pose proof (proj2 (proj2 (scan_hitShape (S (String.length r)))) path 0%N r) as H.
    unfold hitOk in H. destruct (fst _); auto.
Qed.

(** A result that does not exist is [Result{}]: its value is empty. *)
Lemma not_Exists_zero (json path : string) :
  gjson.Exists (gjson.Get json path) = false -> gjson.Get json path = gjson.zero.
Proof.
  destruct (Get_shape json path) as [H|H]; [auto|].
  intro E. destruct H; try discriminate.
  unfold gjson.Exists, gjson.literalResult in *. simpl in *.
  destruct (byteIs c 116); [discriminate|].
  destruct (byteIs c 102); [discriminate|].
  destruct raw; [reflexivity | discriminate].
Qed.

(** ** The fuel of the scanners is enough *)

Lemma scanString_length (s : string) :
  forall odd esc k rest e,
    gjson.scanString odd esc s = Some (k, rest, e) -> String.length rest < String.length s.
Proof.
  induction s as [|c s IH]; [discriminate|].
  cbn [gjson.scanString String.length]. intros odd esc k rest e.
  destruct (byteIs c 34 && negb odd); [intros [= _ <- _]; lia|].
  destruct (byteIs c 92).
  - destruct (gjson.scanString (negb odd) true s) as [[[k' r'] e']|] eqn:E; [|discriminate].
    intros [= _ <- _]. apply IH in E. lia.
  - destruct (gjson.scanString false esc s) as [[[k' r'] e']|] eqn:E; [|discriminate].
    intros [= _ <- _]. apply IH in E. lia.
Qed.

Lemma squash_length (s : string) :
  forall m d, String.length (snd (gjson.squash m d s)) <= String.length s.
Proof.
  induction s as [|c s IH]; intros m d; [simpl; lia|].
  cbn [gjson.squash String.length].
  repeat match goal with
    | |- context [match ?x with _ => _ end] => destruct x
    end; cbn [snd]; try lia;
  match goal with |- context [gjson.squash ?m' ?d' s] => specialize (IH m' d'); lia end.
Qed.

Lemma parseSquash_length (c : ascii) (s raw rest : string) :
  gjson.parseSquash c s = (raw, rest) -> String.length rest <= String.length s.
Proof.
  unfold gjson.parseSquash. pose proof (squash_length s None 1) as H.
  destruct (gjson.squash None 1 s). intros [= _ <-]. exact H.
Qed.

Lemma numberTail_length (s : string) :
  String.length (snd (gjson.numberTail s)) <= String.length s.
Proof.
  induction s as [|c s IH]; [simpl; lia|]. cbn [gjson.numberTail].
  destruct (N.leb (code c) 32 || byteIs c 44 || byteIs c 93 || byteIs c 125); [simpl; lia|].
  destruct (gjson.numberTail s). simpl in *. lia.
Qed.

Lemma parseNumber_length (c : ascii) (s raw rest : string) :
  gjson.parseNumber c s = (raw, rest) -> String.length rest <= String.length s.
Proof.
  unfold gjson.parseNumber. pose proof (numberTail_length s) as H.
  destruct (gjson.numberTail s). intros [= _ <-]. exact H.
Qed.

Lemma literalTail_length (s : string) :
  String.length (snd (gjson.literalTail s)) <= String.length s.
Proof.
  induction s as [|c s IH]; [simpl; lia|]. cbn [gjson.literalTail].
  destruct (N.ltb (code c) 97 || N.ltb 122 (code c)); [simpl; lia|].
  destruct (gjson.literalTail s). simpl in *. lia.
Qed.

Lemma parseLiteral_length (c : ascii) (s raw rest : string) :
  gjson.parseLiteral c s = (raw, rest) -> String.length rest <= String.length s.
Proof.
  unfold gjson.parseLiteral. pose proof (literalTail_length s) as H.
  destruct (gjson.literalTail s). intros [= _ <-]. exact H.
Qed.

(** What the equations of a case analysis say on lengths. *)
Ltac scan_lengths :=
  repeat match goal with
    | H : gjson.scanString _ _ _ = Some _ |- _ => apply scanString_length in H
    | H : gjson.parseSquash _ _ = _ |- _ => apply parseSquash_length in H
    | H : gjson.parseNumber _ _ = _ |- _ => apply parseNumber_length in H
    | H : gjson.parseLiteral _ _ = _ |- _ => apply parseLiteral_length in H
    end.

(** A scanner never returns more than it was given. *)
Lemma scan_rest_le (fuel : nat) :
  (forall path s, String.length (snd (gjson.objKey fuel path s)) <= String.length s)
  /\ (forall path pm s,
        String.length (snd (gjson.objVal fuel path pm s)) <= String.length s)
  /\ (forall path h s,
        String.length (snd (gjson.arrVal fuel path h s)) <= String.length s).
Proof.
  induction fuel as [|fuel (IHk & IHv & IHa)]; [repeat split; intros; simpl; lia|].
  repeat split; intros.
  - cbn [gjson.objKey]. destruct s as [|c r]; [simpl; lia|]. cbn [String.length].
    destruct (byteIs c 34).
    + destruct (gjson.scanString false false r) as [[[key r'] kesc]|] eqn:E; [|simpl; lia].
      destruct (gjson.splitPath path). scan_lengths.
      match goal with |- context [gjson.objVal fuel ?p ?b r'] => pose proof (IHv p b r') end.
      lia.
    + destruct (byteIs c 125); [simpl; lia|]. pose proof (IHk path r). lia.
  - cbn [gjson.objVal]. destruct (gjson.splitPath path) as [part more].
    destruct s as [|c r]; [simpl; lia|]. cbn [String.length].
    split_scan; scan_lengths; cbn [snd String.length]; try lia;
      repeat match goal with
        | H : gjson.objKey fuel ?p ?x = _ |- _ =>
            let H' := fresh in pose proof (IHk p x) as H'; rewrite H in H'; cbn [snd] in H';
            clear H
        | H : gjson.arrVal fuel ?p ?n ?x = _ |- _ =>
            let H' := fresh in pose proof (IHa p n x) as H'; rewrite H in H'; cbn [snd] in H';
            clear H
        end;
      repeat match goal with
        | |- context [gjson.objKey fuel ?p ?x] => pose proof (IHk p x); generalize dependent (gjson.objKey fuel p x); intros
        | |- context [gjson.objVal fuel ?p ?b ?x] => pose proof (IHv p b x); generalize dependent (gjson.objVal fuel p b x); intros
        end;
      cbn [String.length] in *; try lia.
  - cbn [gjson.arrVal]. destruct (gjson.splitPath path) as [part more].
    destruct s as [|c r]; [simpl; lia|]. cbn [String.length].
    split_scan; scan_lengths; cbn [snd String.length]; try lia;
      repeat match goal with
        | H : gjson.objKey fuel ?p ?x = _ |- _ =>
            let H' := fresh in pose proof (IHk p x) as H'; rewrite H in H'; cbn [snd] in H';
            clear H
        | H : gjson.arrVal fuel ?p ?n ?x = _ |- _ =>
            let H' := fresh in pose proof (IHa p n x) as H'; rewrite H in H'; cbn [snd] in H';
            clear H
        end;
      repeat match goal with
        | |- context [gjson.arrVal fuel ?p ?n ?x] => pose proof (IHa p n x); generalize dependent (gjson.arrVal fuel p n x); intros
        end;
      cbn [String.length] in *; try lia.
Qed.

(** With more fuel than the input is long, the fuel plays no part. *)
Lemma fuel_enough (f1 : nat) :
  forall f2,
    (forall path s, String.length s < f1 -> String.length s < f2 ->
       gjson.objKey f1 path s = gjson.objKey f2 path s)
    /\ (forall path pm s, String.length s < f1 -> String.length s < f2 ->
          gjson.objVal f1 path pm s = gjson.objVal f2 path pm s)
    /\ (forall path h s, String.length s < f1 -> String.length s < f2 ->
          gjson.arrVal f1 path h s = gjson.arrVal f2 path h s).
Proof.
  induction f1 as [|f1 IH]; intros [|f2]; repeat split; intros; try lia;
    destruct (IH f2) as (IHk & IHv & IHa);
    destruct (scan_rest_le f2) as (Lk & Lv & La).
  - cbn [gjson.objKey]. destruct s as [|c r]; [reflexivity|]. cbn [String.length] in *.
    destruct (byteIs c 34).
    + destruct (gjson.scanString false false r) as [[[key r'] kesc]|] eqn:E; [|reflexivity].
      apply scanString_length in E. destruct (gjson.splitPath path). apply IHv; lia.
    + destruct (byteIs c 125); [reflexivity | apply IHk; lia].
  - cbn [gjson.objVal]. destruct (gjson.splitPath path) as [part more].
    destruct s as [|c r]; [reflexivity|]. cbn [String.length] in *.
    repeat first
      [ reflexivity
      | match goal with
        | |- context [gjson.objKey f1 ?p ?x] =>
            rewrite (IHk p x) by (cbn [String.length snd] in *; lia)
        | |- context [gjson.objVal f1 ?p ?b ?x] =>
            rewrite (IHv p b x) by (cbn [String.length snd] in *; lia)
        | |- context [gjson.arrVal f1 ?p ?n ?x] =>
            rewrite (IHa p n x) by (cbn [String.length snd] in *; lia)
        end
      | match goal with
        | |- context [gjson.scanString ?a ?b ?x] =>
            destruct (gjson.scanString a b x) as [[[? ?] ?]|] eqn:?; scan_lengths
        | |- context [gjson.parseSquash ?a ?x] =>
            destruct (gjson.parseSquash a x) eqn:?; scan_lengths
        | |- context [gjson.parseNumber ?a ?x] =>
            destruct (gjson.parseNumber a x) eqn:?; scan_lengths
        | |- context [gjson.parseLiteral ?a ?x] =>
            destruct (gjson.parseLiteral a x) eqn:?; scan_lengths
        | |- context [match gjson.objKey f2 ?p ?x with _ => _ end] =>
            pose proof (Lk p x); destruct (gjson.objKey f2 p x) as [[?|] ?]
        | |- context [match gjson.arrVal f2 ?p ?n ?x with _ => _ end] =>
            pose proof (La p n x); destruct (gjson.arrVal f2 p n x) as [[?|] ?]
        | |- context [if ?b then _ else _] => destruct b
        end ].
  - cbn [gjson.arrVal]. destruct (gjson.splitPath path) as [part more].
    destruct s as [|c r]; [reflexivity|]. cbn [String.length] in *.
    repeat first
      [ reflexivity
      | match goal with
        | |- context [gjson.objKey f1 ?p ?x] =>
            rewrite (IHk p x) by (cbn [String.length snd] in *; lia)
        | |- context [gjson.objVal f1 ?p ?b ?x] =>
            rewrite (IHv p b x) by (cbn [String.length snd] in *; lia)
        | |- context [gjson.arrVal f1 ?p ?n ?x] =>
            rewrite (IHa p n x) by (cbn [String.length snd] in *; lia)
        end
      | match goal with
        | |- context [gjson.scanString ?a ?b ?x] =>
            destruct (gjson.scanString a b x) as [[[? ?] ?]|] eqn:?; scan_lengths
        | |- context [gjson.parseSquash ?a ?x] =>
            destruct (gjson.parseSquash a x) eqn:?; scan_lengths
        | |- context [gjson.parseNumber ?a ?x] =>
            destruct (gjson.parseNumber a x) eqn:?; scan_lengths
        | |- context [gjson.parseLiteral ?a ?x] =>
            destruct (gjson.parseLiteral a x) eqn:?; scan_lengths
        | |- context [match gjson.objKey f2 ?p ?x with _ => _ end] =>
            pose proof (Lk p x); destruct (gjson.objKey f2 p x) as [[?|] ?]
        | |- context [match gjson.arrVal f2 ?p ?n ?x with _ => _ end] =>
            pose proof (La p n x); destruct (gjson.arrVal f2 p n x) as [[?|] ?]
        | |- context [if ?b then _ else _] => destruct b
        end ].
Qed.

(** [parseObject] and [parseArray] give the input all the fuel it needs. *)
Lemma parseObject_fuel (path s : string) (fuel : nat) :
  String.length s < fuel -> gjson.objKey fuel path s = gjson.parseObject path s.
Proof. intro H. unfold gjson.parseObject. apply fuel_enough; lia. Qed.

Lemma parseArray_fuel (path s : string) (fuel : nat) :
  String.length s < fuel -> gjson.arrVal fuel path 0 s = gjson.parseArray path s.
Proof. intro H. unfold gjson.parseArray. apply fuel_enough; lia. Qed.

(** ** The loop of [print] *)

Section PrintFacts.

Variable NoColor : bool.

Lemma writeFields_buff (jl : gjson.Result) (cs : list color.Color)
    (fs : list string) (idx : nat) (buff : string) :
  writeFields NoColor jl cs idx fs buff = buff ++ writeFields NoColor jl cs idx fs "".
Proof.
  revert idx buff. induction fs as [|f fs IH]; intros idx buff; simpl.
  - now rewrite append_nil_r.
  - rewrite IH. rewrite (IH _ (segment NoColor jl cs idx f)).
    now rewrite append_assoc.
Qed.

Lemma writeFields_app (jl : gjson.Result) (cs : list color.Color)
    (fs1 fs2 : list string) (idx : nat) (buff : string) :
  writeFields NoColor jl cs idx (fs1 ++ fs2)%list buff =
  writeFields NoColor jl cs (idx + length fs1) fs2
    (writeFields NoColor jl cs idx fs1 buff).
Proof.
  revert idx buff. induction fs1 as [|f fs1 IH]; intros idx buff; simpl.
  - now rewrite Nat.add_0_r.
  - rewrite IH. now rewrite Nat.add_succ_r.
Qed.

(** A segment is empty exactly when the value of the field is blank. *)
Lemma segment_blank (jl : gjson.Result) (cs : list color.Color) (idx : nat) (f : string) :
  strings.TrimSpace (fieldValue (gjson.Result_Get jl f)) = "" ->
  segment NoColor jl cs idx f = "".
Proof. intro H. unfold segment. now rewrite H. Qed.

Lemma segment_absent (json : gjson.Result) (cs : list color.Color) (idx : nat) (f : string) :
  gjson.Exists (gjson.Result_Get json f) = false ->
  segment NoColor json cs idx f = "".
Proof.
  intro H. apply segment_blank. unfold gjson.Result_Get in *.
  now rewrite (not_Exists_zero _ _ H).
Qed.

(** Without colours the index of a field plays no part. *)
Lemma writeFields_plain_idx (jl : gjson.Result) (fs : list string) (i j : nat) (buff : string) :
  writeFields NoColor jl [] i fs buff = writeFields NoColor jl [] j fs buff.
Proof.
  revert i j buff. induction fs as [|f fs IH]; intros i j buff; simpl; [reflexivity|].
  unfold segment. destruct i, j; simpl; apply IH.
Qed.

(** A segment that is written ends with the tab, or with the [m] that
    closes the escape sequence of [unformat]. *)
Lemma segment_end (jl : gjson.Result) (cs : list color.Color) (idx : nat) (f : string) :
  segment NoColor jl cs idx f = ""
  \/ endsWith (segment NoColor jl cs idx f) TAB
  \/ endsWith (segment NoColor jl cs idx f) "m"%char.
Proof.
  unfold segment.
  destruct (String.eqb _ ""); [now left | right].
  set (val := fieldValue _).
  destruct (nth_error cs idx) as [c|].
  - unfold color.Sprintf, color.wrap. destruct NoColor.
    + left. now exists val.
    + right. unfold color.unformat.
      exists (color.format c ++ (val ++ str1 TAB) ++ str1 ESC ++ "[" ++ color.itoa color.Reset).
      now rewrite !append_assoc.
  - left. now exists val.
Qed.

Lemma writeFields_end (jl : gjson.Result) (cs : list color.Color) (fs : list string) (idx : nat) :
  writeFields NoColor jl cs idx fs "" = ""
  \/ endsWith (writeFields NoColor jl cs idx fs "") TAB
  \/ endsWith (writeFields NoColor jl cs idx fs "") "m"%char.
Proof.
  revert idx. induction fs as [|f fs IH]; intro idx; simpl; [now left|].
  rewrite writeFields_buff.
  destruct (IH (S idx)) as [E|[E|E]].
  - rewrite E, append_nil_r. apply segment_end.
  - right; left. now apply endsWith_append.
  - right; right. now apply endsWith_append.
Qed.

(** The colours past the last field are never looked up. *)
Lemma writeFields_firstn (jl : gjson.Result) (cs : list color.Color)
    (fs : list string) (idx : nat) (buff : string) :
  writeFields NoColor jl (firstn (idx + length fs) cs) idx fs buff =
  writeFields NoColor jl cs idx fs buff.
Proof.
  revert idx buff. induction fs as [|f fs IH]; intros idx buff; simpl; [reflexivity|].
  rewrite <- Nat.add_succ_comm. rewrite IH. f_equal. f_equal.
  unfold segment. rewrite nth_error_firstn.
  destruct (Nat.ltb_spec idx (S idx + length fs)); [reflexivity | lia].
Qed.

(** C5: a field whose path is absent from the line, or whose value trims
    to the empty string, adds no byte to the output line: the fields before
    and after it are written as they would be next to each other, each with
    the colour of its own index, and with no colours the line is the one
    printed without the field. *)
Theorem absent_or_blank_field_skipped (line : string)
    (before : list string) (field : string) (after : list string)
    (outColors : list color.Color) (buff : string) (out : list string) :
  gjson.Exists (gjson.Result_Get (gjson.ParseBytes line) field) = false
  \/ strings.TrimSpace (fieldValue (gjson.Result_Get (gjson.ParseBytes line) field)) = "" ->
  segment NoColor (gjson.ParseBytes line) outColors (length before) field = ""
  /\ writeFields NoColor (gjson.ParseBytes line) outColors 0 (before ++ field :: after)%list buff
     = writeFields NoColor (gjson.ParseBytes line) outColors (S (length before)) after
         (writeFields NoColor (gjson.ParseBytes line) outColors 0 before buff)
  /\ print NoColor line (before ++ field :: after)%list [] buff out
     = print NoColor line (before ++ after)%list [] buff out.
Proof.
  intro H.
  assert (Hseg : forall cs idx, segment NoColor (gjson.ParseBytes line) cs idx field = "").
  { intros cs idx. destruct H as [H|H];
      [now apply segment_absent | now apply segment_blank]. }
  split; [apply Hseg|]. split.
  - rewrite writeFields_app. simpl. now rewrite Hseg, append_nil_r.
  - unfold print. rewrite !writeFields_app. simpl.
    rewrite Hseg, append_nil_r.
    now rewrite (writeFields_plain_idx _ _ (S (length before)) (length before)).
Qed.

(** Fields that are all absent or blank leave the buffer as it is. *)
Lemma writeFields_all_blank (jl : gjson.Result) (cs : list color.Color)
    (fs : list string) (buff : string) :
  Forall (fun field =>
            gjson.Exists (gjson.Result_Get jl field) = false
            \/ strings.TrimSpace (fieldValue (gjson.Result_Get jl field)) = "") fs ->
  forall idx, writeFields NoColor jl cs idx fs buff = buff.
Proof.
  intro H. revert buff. induction H as [|f fs Hf _ IH]; intros buff idx; simpl; [reflexivity|].
  destruct Hf as [Hf|Hf];
    [rewrite segment_absent by exact Hf | rewrite segment_blank by exact Hf];
    rewrite append_nil_r; apply IH.
Qed.

(** C6: when every requested field is absent or blank, [print] writes
    nothing to the writer: no payload at all, not even a newline. *)
Theorem all_fields_blank_no_output (line : string) (outFields : list string)
    (outColors : list color.Color) (out : list string) :
  Forall (fun field =>
            gjson.Exists (gjson.Result_Get (gjson.ParseBytes line) field) = false
            \/ strings.TrimSpace (fieldValue (gjson.Result_Get (gjson.ParseBytes line) field)) = "")
         outFields ->
  print NoColor line outFields outColors "" out = ("", out).
Proof.
  intro H. unfold print. now rewrite (writeFields_all_blank _ _ _ _ H).
Qed.

(** C9, as the code has it: the colour of a field is the one at the
    field's own position in the field list. For a field that is not blank
    and stands after the fields [before], the payload of [print] is what
    the loop writes for [before], then the segment of the field, then what
    the loop writes from the next index on for the fields after it, then
    the newline. The segment is the value and its tab, wrapped in the
    escape sequences of the colour at index [length before] when there is
    one and the colour package has colours switched on; it is plain when
    colours are switched off, and plain when the colour list ends before
    that index. Colours past the last field change nothing. *)
Theorem color_by_field_position (line : string) (before : list string) (field : string)
    (after : list string) (outColors : list color.Color) (out : list string) :
  strings.TrimSpace (fieldValue (gjson.Result_Get (gjson.ParseBytes line) field)) <> "" ->
  print NoColor line (before ++ field :: after)%list outColors "" out
  = (let payload :=
       writeFields NoColor (gjson.ParseBytes line) outColors 0 before ""
       ++ match nth_error outColors (length before) with
          | Some c =>
              if NoColor
              then fieldValue (gjson.Result_Get (gjson.ParseBytes line) field) ++ str1 TAB
              else color.format c
                   ++ (fieldValue (gjson.Result_Get (gjson.ParseBytes line) field) ++ str1 TAB)
                   ++ color.unformat c
          | None => fieldValue (gjson.Result_Get (gjson.ParseBytes line) field) ++ str1 TAB
          end
       ++ writeFields NoColor (gjson.ParseBytes line) outColors (S (length before)) after ""
       ++ str1 LF in
     (payload, (out ++ [payload])%list))
  /\ (length outColors <= length before ->
      nth_error outColors (length before) = None)
  /\ (forall (outFields : list string) (buff : string),
        print NoColor line outFields outColors buff out
        = print NoColor line outFields (firstn (length outFields) outColors) buff out).
Proof.
  intro Hval. split; [|split].
  - unfold print. cbv zeta.
    rewrite writeFields_app. cbn [writeFields]. rewrite Nat.add_0_l.
    rewrite (writeFields_buff _ _ after).
    assert (Hseg : segment NoColor (gjson.ParseBytes line) outColors (length before) field
                   = match nth_error outColors (length before) with
                     | Some c =>
                         if NoColor
                         then fieldValue (gjson.Result_Get (gjson.ParseBytes line) field)
                              ++ str1 TAB
                         else color.format c
                              ++ (fieldValue (gjson.Result_Get (gjson.ParseBytes line) field)
                                  ++ str1 TAB)
                              ++ color.unformat c
                     | None => fieldValue (gjson.Result_Get (gjson.ParseBytes line) field)
                               ++ str1 TAB
                     end).
    { unfold segment. apply String.eqb_neq in Hval. rewrite Hval.
      destruct (nth_error outColors (length before)); [|reflexivity].
      unfold color.Sprintf, color.wrap. now destruct NoColor. }
    rewrite Hseg.
    set (cell := match nth_error outColors (length before) with Some _ => _ | None => _ end).
    assert (Hcell : cell <> "").
    { unfold cell. destruct (nth_error outColors (length before)); [destruct NoColor|];
        intro H; repeat (apply append_eq_nil in H as [? H]); try discriminate;
        match goal with E : _ ++ str1 TAB = "" |- _ => apply append_eq_nil in E as [_ E]; discriminate
        | _ => idtac end. }
    set (pre := writeFields NoColor (gjson.ParseBytes line) outColors 0 before "").
    set (post := writeFields NoColor (gjson.ParseBytes line) outColors (S (length before)) after "").
    destruct (Nat.eqb (String.length ((pre ++ cell) ++ post)) 0) eqn:E.
    + apply length_zero in E. apply append_eq_nil in E as [E _].
      apply append_eq_nil in E as [_ E]. contradiction.
    + now rewrite !append_assoc.
  - intro H. now apply nth_error_None.
  - intros outFields buff. unfold print.
    now rewrite <- (writeFields_firstn _ outColors outFields 0 buff).
Qed.

(** C10: one call of [print] makes at most one write to the writer, and
    a payload it writes ends with the newline [print] appends. On a buffer
    that was reset, as both pumps call it, the payload is a non-empty body
    followed by that newline, and the body does not itself end with a
    newline: never a bare newline, never a line without its end. *)
Theorem print_one_terminated_write (line : string) (outFields : list string)
    (outColors : list color.Color) (buff : string) (out : list string) :
  (snd (print NoColor line outFields outColors buff out) = out
   \/ exists payload,
        snd (print NoColor line outFields outColors buff out) = (out ++ [payload])%list
        /\ endsWith payload LF)
  /\ (print NoColor line outFields outColors "" out = ("", out)
      \/ exists body,
           print NoColor line outFields outColors "" out
           = (body ++ str1 LF, (out ++ [(body ++ str1 LF)%string])%list)
           /\ body <> "" /\ ~ endsWith body LF).
Proof.
  split.
  { unfold print. destruct (Nat.eqb _ 0); cbn [snd]; [now left | right].
    eexists. split; [reflexivity|]. eexists. reflexivity. }
  unfold print.
  destruct (writeFields_end (gjson.ParseBytes line) outColors outFields 0) as [E|E].
  - left. now rewrite E.
  - right. set (body := writeFields _ _ _ _ _ _) in *. exists body.
    assert (Hne : body <> "").
    { intros E'. rewrite E' in E. destruct E as [[b E]|[b E]];
        symmetry in E; apply append_eq_nil in E; destruct E; discriminate. }
    destruct (Nat.eqb (String.length body) 0) eqn:L.
    + apply length_zero in L. contradiction.
    + repeat split; [exact Hne|].
      intro Hlf. destruct E as [[b E]|[b E]]; rewrite E in Hlf;
        apply endsWith_last in Hlf; discriminate.
Qed.

Lemma writeFields_plain (line : string) (outFields : list string) (idx : nat) :
  writeFields NoColor (gjson.ParseBytes line) [] idx outFields ""
  = tabbed (filter notBlank (fieldValues line outFields)).
Proof.
  revert idx. induction outFields as [|f fs IH]; intro idx; simpl; [reflexivity|].
  rewrite writeFields_buff, IH. unfold segment, notBlank.
  destruct (String.eqb _ ""); simpl; [reflexivity|].
  now destruct idx.
Qed.

(** C1, as the code has it: every field that is written is followed by a
    tab, the last one too, and the newline comes after that tab. With no
    colours the payload is the non-blank values, each with its tab, and the
    newline. The first scenario line gives [T1\tinfo\thi\t\n], the second
    [T1\t\n]. *)
Theorem plain_line_tab_after_every_field (line : string) (outFields : list string)
    (out : list string) :
  print NoColor line outFields [] "" out
  = (let body := tabbed (filter notBlank (fieldValues line outFields)) in
     if Nat.eqb (String.length body) 0 then ("", out)
     else (body ++ str1 LF, (out ++ [(body ++ str1 LF)%string])%list))
  /\ snd (print NoColor (q "{'time':'T1','level':'info','msg':'hi'}")
            ["time"; "level"; "msg"] [] "" [])
     = ["T1" ++ str1 TAB ++ "info" ++ str1 TAB ++ "hi" ++ str1 TAB ++ str1 LF]
  /\ snd (print NoColor (q "{'time':'T1','msg':''}") ["time"; "msg"] [] "" [])
     = ["T1" ++ str1 TAB ++ str1 LF].
Proof.
  split; [|split].
  - unfold print. cbv zeta. rewrite writeFields_plain.
    destruct (Nat.eqb _ 0) eqn:E; [|reflexivity].
    apply length_zero in E. now rewrite E.
  - unfold print. cbv zeta. rewrite writeFields_plain. reflexivity.
  - unfold print. cbv zeta. rewrite writeFields_plain. reflexivity.
Qed.

(** The writer only grows. *)
Lemma print_extends (line : string) (outFields : list string)
    (outColors : list color.Color) (buff : string) (out : list string) :
  exists written, snd (print NoColor line outFields outColors buff out) = (out ++ written)%list.
Proof.
  unfold print. destruct (Nat.eqb _ 0); simpl.
  - exists []. now rewrite app_nil_r.
  - eexists. reflexivity.
Qed.

Lemma emitLines_extends (outFields : list string) (outColors : list color.Color)
    (lines : list string) (out : list string) :
  exists written, emitLines NoColor outFields outColors lines out = (out ++ written)%list.
Proof.
  revert out. induction lines as [|l ls IH]; intro out; simpl.
  - exists []. now rewrite app_nil_r.
  - unfold emitLines in *. cbn [fold_left].
    destruct (print_extends l outFields outColors "" out) as [w1 E1].
    rewrite E1. destruct (IH (out ++ w1)%list) as [w2 E2].
    rewrite E2. exists (w1 ++ w2)%list. now rewrite app_assoc.
Qed.

Lemma scanLoop_cancel (done : nat -> bool) (err : bool)
    (outFields : list string) (outColors : list color.Color) (k : nat) :
  forall (lines : list string) (n : nat) (buff : string) (out : list string)
         (log : list LogEntry),
    (forall j, j < k -> done (n + j) = false) ->
    done (n + k) = true ->
    k <= length lines ->
    scanLoop NoColor done n lines err outFields outColors buff out log
    = (emitLines NoColor outFields outColors (firstn k lines) out,
       (log ++ [LogCancelReceived])%list).
Proof.
  induction k as [|k IH]; intros lines n buff out log Hbefore Hat Hlen.
  - rewrite Nat.add_0_r in Hat. destruct lines; simpl; now rewrite Hat.
  - destruct lines as [|l ls]; [simpl in Hlen; lia|].
    cbn [scanLoop]. rewrite <- (Nat.add_0_r n) at 1. rewrite Hbefore by lia.
    destruct (print NoColor l outFields outColors "" out) as [buff' out'] eqn:E.
    rewrite (IH ls (S n) buff' out' log).
    + unfold emitLines. cbn [firstn fold_left]. now rewrite E.
    + intros j Hj. rewrite Nat.add_succ_comm. apply Hbefore. lia.
    + now rewrite Nat.add_succ_comm.
    + simpl in Hlen. lia.
Qed.

End PrintFacts.

(** ** White space and letter case *)

Lemma asciiSpace_le (c : ascii) : strings.asciiSpace c = true -> (code c <= 32)%N.
Proof.
  unfold strings.asciiSpace, byteIs.
  rewrite orb_true_iff, andb_true_iff, !N.leb_le, N.eqb_eq. lia.
Qed.

Lemma byteIs_above (c : ascii) (n : N) : (code c <= 32)%N -> (32 < n)%N -> byteIs c n = false.
Proof. intros H1 H2. unfold byteIs. apply N.eqb_neq. lia. Qed.

Lemma space2_ascii_r (c1 c2 : ascii) :
  strings.asciiSpace c2 = true -> strings.space2 c1 c2 = false.
Proof.
  intro H. apply asciiSpace_le in H. unfold strings.space2.
  rewrite !(byteIs_above c2) by (auto; lia). simpl. apply andb_false_r.
Qed.

Lemma space3_ascii_m (c1 c2 c3 : ascii) :
  strings.asciiSpace c2 = true -> strings.space3 c1 c2 c3 = false.
Proof.
  intro H. apply asciiSpace_le in H. unfold strings.space3.
  rewrite !(byteIs_above c2) by (auto; lia).
  now rewrite !andb_false_r.
Qed.

Lemma space3_ascii_r (c1 c2 c3 : ascii) :
  strings.asciiSpace c3 = true -> strings.space3 c1 c2 c3 = false.
Proof.
  intro H. apply asciiSpace_le in H. unfold strings.space3.
  rewrite !(byteIs_above c3) by (auto; lia).
  replace (N.leb 128 (code c3)) with false by (symmetry; apply N.leb_gt; lia).
  now rewrite !andb_false_r.
Qed.

Lemma rev_append_app (s acc : string) : rev_append s acc = reverse s ++ acc.
Proof.
  unfold reverse. revert acc. induction s as [|c s IH]; intro acc; simpl; [reflexivity|].
  rewrite IH, (IH (String c "")). now rewrite append_assoc.
Qed.

Lemma reverse_cons (c : ascii) (s : string) : reverse (String c s) = reverse s ++ str1 c.
Proof. unfold reverse at 1. simpl. apply rev_append_app. Qed.

Lemma reverse_app (s1 s2 : string) : reverse (s1 ++ s2) = reverse s2 ++ reverse s1.
Proof.
  induction s1 as [|c s1 IH]; simpl.
  - now rewrite append_nil_r.
  - now rewrite !reverse_cons, IH, append_assoc.
Qed.

Lemma allBytes_app (p : ascii -> bool) (s1 s2 : string) :
  allBytes p (s1 ++ s2) = allBytes p s1 && allBytes p s2.
Proof. induction s1 as [|c s1 IH]; simpl; [reflexivity | now rewrite IH, andb_assoc]. Qed.

Lemma allBytes_reverse (p : ascii -> bool) (s : string) :
  allBytes p (reverse s) = allBytes p s.
Proof.
  induction s as [|c s IH]; [reflexivity|].
  rewrite reverse_cons, allBytes_app, IH. simpl. now rewrite andb_true_r, andb_comm.
Qed.

(** Leading ASCII white space is dropped. *)
Lemma trimLeft_blank_app (pre s : string) :
  isBlank pre = true -> strings.trimLeft (pre ++ s) = strings.trimLeft s.
Proof.
  induction pre as [|c pre IH]; [reflexivity|].
  unfold isBlank. simpl. intros [Hc Hp]%andb_true_iff. rewrite Hc. now apply IH.
Qed.

Lemma trimLeftRev_blank_app (pre s : string) :
  isBlank pre = true -> strings.trimLeftRev (pre ++ s) = strings.trimLeftRev s.
Proof.
  induction pre as [|c pre IH]; [reflexivity|].
  unfold isBlank. simpl. intros [Hc Hp]%andb_true_iff. rewrite Hc. now apply IH.
Qed.

Lemma trimLeft_blank (s : string) : isBlank s = true -> strings.trimLeft s = "".
Proof. intro H. rewrite <- (append_nil_r s). now rewrite trimLeft_blank_app. Qed.

(** Trailing ASCII white space is dropped. *)
Lemma trimRight_app_blank (s post : string) :
  isBlank post = true -> strings.trimRight (s ++ post) = strings.trimRight s.
Proof.
  intro H. unfold strings.trimRight. rewrite reverse_app, trimLeftRev_blank_app; [reflexivity|].
  unfold isBlank. now rewrite allBytes_reverse.
Qed.

(** White space that follows does not change what is dropped in front. *)
Lemma trimLeft_app_blank (post : string) :
  isBlank post = true ->
  forall n s, String.length s < n ->
    strings.trimLeft (s ++ post)
    = if isEmpty (strings.trimLeft s) then "" else strings.trimLeft s ++ post.
Proof.
  intros Hpost n. induction n as [|n IH]; intros s Hlen; [lia|].
  destruct s as [|c1 r1].
  - simpl. now apply trimLeft_blank.
  - cbn [append strings.trimLeft].
    destruct (strings.asciiSpace c1) eqn:E1; [apply IH; simpl in Hlen; lia|].
    destruct r1 as [|c2 r2].
    + cbn [append isEmpty]. destruct post as [|p ps]; [reflexivity|].
      unfold isBlank in Hpost. simpl in Hpost. apply andb_true_iff in Hpost as [Hp Hps].
      rewrite (space2_ascii_r c1 p Hp).
      destruct ps as [|p2 ps]; [reflexivity|].
      now rewrite (space3_ascii_m c1 p p2 Hp).
    + cbn [append].
      destruct (strings.space2 c1 c2) eqn:E2; [apply IH; simpl in Hlen; lia|].
      destruct r2 as [|c3 r3].
      * cbn [append isEmpty]. destruct post as [|p ps]; [reflexivity|].
        unfold isBlank in Hpost. simpl in Hpost. apply andb_true_iff in Hpost as [Hp Hps].
        now rewrite (space3_ascii_r c1 c2 p Hp).
      * cbn [append].
        destruct (strings.space3 c1 c2 c3) eqn:E3; [apply IH; simpl in Hlen; lia|].
        reflexivity.
Qed.

(** [TrimSpace] does not see ASCII white space around a token. *)
Lemma TrimSpace_padded (pre tok post : string) :
  isBlank pre = true -> isBlank post = true ->
  strings.TrimSpace (pre ++ tok ++ post) = strings.TrimSpace tok.
Proof.
  intros Hpre Hpost. unfold strings.TrimSpace.
  rewrite trimLeft_blank_app by exact Hpre.
  rewrite (trimLeft_app_blank post Hpost (S (String.length tok)) tok) by lia.
  destruct (strings.trimLeft tok) eqn:E; [reflexivity|].
  cbn [isEmpty]. now apply trimRight_app_blank.
Qed.

Lemma TrimSpace_blank (s : string) : isBlank s = true -> strings.TrimSpace s = "".
Proof. intro H. unfold strings.TrimSpace. now rewrite trimLeft_blank. Qed.

(** On ASCII bytes only the one-byte white space matters. *)
Lemma byteIs_ascii (c : ascii) (n : N) : (code c < 128)%N -> (128 <= n)%N -> byteIs c n = false.
Proof. intros H1 H2. unfold byteIs. apply N.eqb_neq. lia. Qed.

Lemma trimLeft_ascii_cons (c : ascii) (r : string) :
  (code c < 128)%N ->
  strings.trimLeft (String c r)
  = if strings.asciiSpace c then strings.trimLeft r else String c r.
Proof.
  intro H. cbn [strings.trimLeft]. destruct (strings.asciiSpace c); [reflexivity|].
  destruct r as [|c2 r2]; [reflexivity|].
  unfold strings.space2, strings.space3.
  rewrite !(byteIs_ascii c) by (auto; lia). simpl.
  now destruct r2.
Qed.

Lemma trimLeftRev_ascii_cons (c : ascii) (r : string) :
  (code c < 128)%N ->
  strings.trimLeftRev (String c r)
  = if strings.asciiSpace c then strings.trimLeftRev r else String c r.
Proof.
  intro H. cbn [strings.trimLeftRev]. destruct (strings.asciiSpace c); [reflexivity|].
  destruct r as [|c2 r2]; [reflexivity|].
  unfold strings.space2, strings.space3.
  rewrite !(byteIs_ascii c) by (auto; lia).
  replace (N.leb 128 (code c)) with false by (symmetry; apply N.leb_gt; lia).
  repeat (simpl; rewrite ?andb_false_r).
  destruct r2; [reflexivity|].
  now repeat (simpl; rewrite ?andb_false_r).
Qed.

Lemma code_lowerByte (c : ascii) :
  code (strings.lowerByte c)
  = if N.leb 65 (code c) && N.leb (code c) 90 then (code c + 32)%N else code c.
Proof.
  unfold strings.lowerByte.
  destruct (N.leb 65 (code c) && N.leb (code c) 90) eqn:E; [|reflexivity].
  apply andb_true_iff in E as [E1 E2]. apply N.leb_le in E1, E2.
  unfold code at 1. apply N_ascii_embedding. lia.
Qed.

Lemma lowerByte_ascii (c : ascii) : (code c < 128)%N -> (code (strings.lowerByte c) < 128)%N.
Proof.
  intro H. rewrite code_lowerByte.
  destruct (N.leb 65 (code c) && N.leb (code c) 90) eqn:E; [|exact H].
  apply andb_true_iff in E as [E1 E2]. apply N.leb_le in E1, E2. lia.
Qed.

Lemma asciiSpace_lowerByte (c : ascii) :
  strings.asciiSpace (strings.lowerByte c) = strings.asciiSpace c.
Proof.
  unfold strings.asciiSpace, byteIs. rewrite code_lowerByte.
  destruct (N.leb 65 (code c) && N.leb (code c) 90) eqn:E; [|reflexivity].
  apply andb_true_iff in E as [E1 E2]. apply N.leb_le in E1, E2.
  replace (N.leb (code c + 32) 13) with false by (symmetry; apply N.leb_gt; lia).
  replace (N.leb (code c) 13) with false by (symmetry; apply N.leb_gt; lia).
  replace (N.eqb (code c + 32) 32) with false by (symmetry; apply N.eqb_neq; lia).
  replace (N.eqb (code c) 32) with false by (symmetry; apply N.eqb_neq; lia).
  now rewrite !andb_false_r.
Qed.

Lemma isASCII_cons (c : ascii) (r : string) :
  strings.isASCII (String c r) = true <-> (code c < 128)%N /\ strings.isASCII r = true.
Proof. simpl. now rewrite andb_true_iff, N.ltb_lt. Qed.

Lemma isASCII_app (s1 s2 : string) :
  strings.isASCII (s1 ++ s2) = strings.isASCII s1 && strings.isASCII s2.
Proof. induction s1 as [|c s1 IH]; simpl; [reflexivity | now rewrite IH, andb_assoc]. Qed.

Lemma isASCII_reverse (s : string) : strings.isASCII (reverse s) = strings.isASCII s.
Proof.
  induction s as [|c s IH]; [reflexivity|].
  rewrite reverse_cons, isASCII_app, IH. simpl. now rewrite andb_true_r, andb_comm.
Qed.

Lemma mapBytes_app (f : ascii -> ascii) (s1 s2 : string) :
  strings.mapBytes f (s1 ++ s2) = strings.mapBytes f s1 ++ strings.mapBytes f s2.
Proof. induction s1 as [|c s1 IH]; simpl; [reflexivity | now rewrite IH]. Qed.

Lemma mapBytes_reverse (f : ascii -> ascii) (s : string) :
  strings.mapBytes f (reverse s) = reverse (strings.mapBytes f s).
Proof.
  induction s as [|c s IH]; [reflexivity|].
  cbn [strings.mapBytes]. now rewrite !reverse_cons, mapBytes_app, IH.
Qed.

Lemma trimLeft_lower (s : string) :
  strings.isASCII s = true ->
  strings.trimLeft (strings.mapBytes strings.lowerByte s)
  = strings.mapBytes strings.lowerByte (strings.trimLeft s)
  /\ strings.isASCII (strings.trimLeft s) = true.
Proof.
  induction s as [|c s IH]; [now split|].
  intro H. pose proof H as [Hc Hs]%isASCII_cons.
  cbn [strings.mapBytes].
  rewrite !trimLeft_ascii_cons by auto using lowerByte_ascii.
  rewrite asciiSpace_lowerByte.
  destruct (strings.asciiSpace c); [now apply IH | now split].
Qed.

Lemma trimLeftRev_lower (s : string) :
  strings.isASCII s = true ->
  strings.trimLeftRev (strings.mapBytes strings.lowerByte s)
  = strings.mapBytes strings.lowerByte (strings.trimLeftRev s)
  /\ strings.isASCII (strings.trimLeftRev s) = true.
Proof.
  induction s as [|c s IH]; [now split|].
  intro H. pose proof H as [Hc Hs]%isASCII_cons.
  cbn [strings.mapBytes].
  rewrite !trimLeftRev_ascii_cons by auto using lowerByte_ascii.
  rewrite asciiSpace_lowerByte.
  destruct (strings.asciiSpace c); [now apply IH | now split].
Qed.

(** On ASCII text, trimming and lowering commute. *)
Lemma TrimSpace_lower (s : string) :
  strings.isASCII s = true ->
  strings.TrimSpace (strings.mapBytes strings.lowerByte s)
  = strings.mapBytes strings.lowerByte (strings.TrimSpace s)
  /\ strings.isASCII (strings.TrimSpace s) = true.
Proof.
  intro H. unfold strings.TrimSpace, strings.trimRight.
  destruct (trimLeft_lower s H) as [E1 A1]. rewrite E1.
  rewrite <- mapBytes_reverse.
  assert (A2 : strings.isASCII (reverse (strings.trimLeft s)) = true)
    by now rewrite isASCII_reverse.
  destruct (trimLeftRev_lower _ A2) as [E2 A3]. rewrite E2.
  split; [now rewrite mapBytes_reverse | now rewrite isASCII_reverse].
Qed.

(** ** [getColorFormat] *)

Section ColorFormatFacts.

Variable mapUnicodeToLower : string -> string.

Lemma ToLower_ascii (s : string) :
  strings.isASCII s = true ->
  strings.ToLower mapUnicodeToLower s = strings.mapBytes strings.lowerByte s.
Proof. intro H. unfold strings.ToLower. now rewrite H. Qed.

Lemma tokenColor_ascii (tok : string) :
  strings.isASCII tok = true ->
  tokenColor mapUnicodeToLower tok
  = colorOf (strings.TrimSpace (strings.mapBytes strings.lowerByte tok)).
Proof.
  intro H. unfold tokenColor. destruct (TrimSpace_lower tok H) as [E A].
  now rewrite ToLower_ascii, E.
Qed.

Lemma colorOf_table (name : string) (a : color.Attribute) :
  In (name, a) colorTable -> colorOf name = color.New a.
Proof.
  unfold colorTable. simpl.
  intros H. repeat (destruct H as [H|H]; [now inversion H|]). contradiction.
Qed.

Lemma colorOf_other (name : string) :
  ~ In name (map fst colorTable) -> colorOf name = color.New color.Reset.
Proof.
  unfold colorTable, colorOf. simpl. intro H.
  repeat match goal with
    | |- context [String.eqb name ?n] =>
        destruct (String.eqb_spec name n); [exfalso; apply H; subst; tauto|]
    end.
  reflexivity.
Qed.

(** C8: an empty or blank colour spec gives no colour at all; any other
    spec gives one colour per comma-separated token, in order. The colour
    of a token is looked up by its trimmed, lowered text: white space around
    the token and the case of its letters do not matter, the eight names
    give their colours, and every other token gives [Reset]. The function
    is total: no spec is an error. *)
Theorem getColorFormat_tokens (inStr : string) :
  (inStr = "" \/ isBlank inStr = true \/ strings.TrimSpace inStr = "" ->
   getColorFormat mapUnicodeToLower inStr = [])
  /\ (strings.TrimSpace inStr <> "" ->
      getColorFormat mapUnicodeToLower inStr
      = map (tokenColor mapUnicodeToLower) (strings.Split inStr)
      /\ length (getColorFormat mapUnicodeToLower inStr) = length (strings.Split inStr))
  /\ (forall pre tok post,
        isBlank pre = true -> isBlank post = true ->
        tokenColor mapUnicodeToLower (pre ++ tok ++ post)
        = tokenColor mapUnicodeToLower tok)
  /\ (forall a b,
        strings.isASCII a = true -> strings.isASCII b = true ->
        strings.mapBytes strings.lowerByte a = strings.mapBytes strings.lowerByte b ->
        tokenColor mapUnicodeToLower a = tokenColor mapUnicodeToLower b)
  /\ (forall tok name attr,
        In (name, attr) colorTable ->
        strings.ToLower mapUnicodeToLower (strings.TrimSpace tok) = name ->
        tokenColor mapUnicodeToLower tok = color.New attr)
  /\ (forall tok,
        ~ In (strings.ToLower mapUnicodeToLower (strings.TrimSpace tok))
             (map fst colorTable) ->
        tokenColor mapUnicodeToLower tok = color.New color.Reset).
Proof.
  repeat split.
  - intro H. unfold getColorFormat.
    assert (E : strings.TrimSpace inStr = "").
    { destruct H as [->|[H|H]]; [reflexivity | now apply TrimSpace_blank | exact H]. }
    rewrite E. simpl. now rewrite orb_true_r.
  - unfold getColorFormat. apply String.eqb_neq in H. rewrite H.
    destruct inStr; [discriminate H | reflexivity].
  - unfold getColorFormat. apply String.eqb_neq in H. rewrite H.
    destruct inStr; [discriminate H | simpl; now rewrite length_map].
  - intros pre tok post Hpre Hpost. unfold tokenColor.
    now rewrite TrimSpace_padded.
  - intros a b Ha Hb E. now rewrite !tokenColor_ascii, E.
  - intros tok name attr Hin E. unfold tokenColor. rewrite E.
    now apply colorOf_table.
  - intros tok H. unfold tokenColor. now apply colorOf_other.
Qed.

End ColorFormatFacts.

(** ** The scenario lines *)

(** C1: the first scenario line is printed with a tab between the last
    field and the newline, so not as [T1\tinfo\thi\n]; the second as
    [T1\t\n], not as [T1\n]. *)
Lemma scenario_lines_end_with_tab :
  snd (print false (q "{'time':'T1','level':'info','msg':'hi'}")
         ["time"; "level"; "msg"] [] "" [])
  = ["T1" ++ str1 TAB ++ "info" ++ str1 TAB ++ "hi" ++ str1 TAB ++ str1 LF]
  /\ snd (print false (q "{'time':'T1','level':'info','msg':'hi'}")
            ["time"; "level"; "msg"] [] "" [])
     <> ["T1" ++ str1 TAB ++ "info" ++ str1 TAB ++ "hi" ++ str1 LF]
  /\ snd (print false (q "{'time':'T1','msg':''}") ["time"; "msg"] [] "" [])
     = ["T1" ++ str1 TAB ++ str1 LF]
  /\ snd (print false (q "{'time':'T1','msg':''}") ["time"; "msg"] [] "" [])
     <> ["T1" ++ str1 LF].
Proof. repeat split; try reflexivity; vm_compute; discriminate. Qed.

(** C2: the number at [count] is found, but its text is in [Raw] and
    [print] reads [Str]: the field is dropped and nothing is written. *)
Lemma number_field_is_dropped :
  gjson.Result_Get (gjson.ParseBytes (q "{'count':5}")) "count"
  = gjson.mkResult gjson.Number "5" ""
  /\ fieldValue (gjson.Result_Get (gjson.ParseBytes (q "{'count':5}")) "count") = ""
  /\ print false (q "{'count':5}") ["count"] [] "" [] = ("", [])
  /\ print false (q "{'ok':true,'n':1.5,'msg':'hi'}") ["ok"; "n"; "msg"] [] "" []
     = ("hi" ++ str1 TAB ++ str1 LF, ["hi" ++ str1 TAB ++ str1 LF]).
Proof. repeat split; reflexivity. Qed.

(** C3: a line cut off after its first member is no JSON document, yet
    the lookup finds the member and the line is printed. *)
Lemma truncated_line_is_printed :
  fieldValue (gjson.Result_Get (gjson.ParseBytes (q "{'msg':'hi'")) "msg") = "hi"
  /\ snd (print false (q "{'msg':'hi'") ["msg"] [] "" [])
     = ["hi" ++ str1 TAB ++ str1 LF].
Proof. split; reflexivity. Qed.

(** C5 on two lines: a blank [msg] and a missing [msg] are both printed as
    if [msg] had not been asked for. *)
Lemma absent_or_blank_field_skipped_witness :
  print false (q "{'time':'T1','msg':'  ','level':'info'}") ["time"; "msg"; "level"] [] "" []
  = print false (q "{'time':'T1','msg':'  ','level':'info'}") ["time"; "level"] [] "" []
  /\ print false (q "{'time':'T1','level':'info'}") ["time"; "msg"; "level"] [] "" []
     = print false (q "{'time':'T1','level':'info'}") ["time"; "level"] [] "" [].
Proof.
  split.
  - apply (absent_or_blank_field_skipped false
             (q "{'time':'T1','msg':'  ','level':'info'}") ["time"] "msg" ["level"] [] "" []).
    right. reflexivity.
  - apply (absent_or_blank_field_skipped false
             (q "{'time':'T1','level':'info'}") ["time"] "msg" ["level"] [] "" []).
    left. reflexivity.
Defined.

(** C6 on the line [{}]: nothing is written. *)
Lemma all_fields_blank_no_output_witness :
  print false (q "{}") ["time"; "msg"] [] "" [] = ("", []).
Proof.
  apply (all_fields_blank_no_output false (q "{}") ["time"; "msg"] [] []).
  repeat constructor; left; reflexivity.
Defined.

(** C9: with colours switched off, as they are when the standard output
    is no terminal, a field that has a colour at its index is written
    plain, not wrapped in the escape sequence of that colour. *)
Lemma colored_field_is_plain_without_terminal :
  print true (q "{'time':'T1'}") ["time"] [color.New color.FgRed] "" []
  = ("T1" ++ str1 TAB ++ str1 LF, ["T1" ++ str1 TAB ++ str1 LF]).
Proof. reflexivity. Qed.

(** C9 on three fields with three colours, and on two fields with one
    colour: the second field is then plain. *)
Lemma color_by_field_position_witness :
  print false (q "{'time':'T1','level':'info','msg':'hi'}") ["time"; "level"; "msg"]
    [color.New color.FgRed; color.New color.FgGreen; color.New color.FgBlue] "" []
  = (str1 ESC ++ "[31mT1" ++ str1 TAB ++ str1 ESC ++ "[0m"
     ++ str1 ESC ++ "[32minfo" ++ str1 TAB ++ str1 ESC ++ "[0m"
     ++ str1 ESC ++ "[34mhi" ++ str1 TAB ++ str1 ESC ++ "[0m" ++ str1 LF,
     [str1 ESC ++ "[31mT1" ++ str1 TAB ++ str1 ESC ++ "[0m"
      ++ str1 ESC ++ "[32minfo" ++ str1 TAB ++ str1 ESC ++ "[0m"
      ++ str1 ESC ++ "[34mhi" ++ str1 TAB ++ str1 ESC ++ "[0m" ++ str1 LF])
  /\ print false (q "{'time':'T1','level':'info'}") ["time"; "level"]
       [color.New color.FgRed] "" []
     = (str1 ESC ++ "[31mT1" ++ str1 TAB ++ str1 ESC ++ "[0m" ++ "info" ++ str1 TAB ++ str1 LF,
        [str1 ESC ++ "[31mT1" ++ str1 TAB ++ str1 ESC ++ "[0m" ++ "info" ++ str1 TAB
         ++ str1 LF]).
Proof.
  split.
  - destruct (color_by_field_position false (q "{'time':'T1','level':'info','msg':'hi'}")
                ["time"] "level" ["msg"]
                [color.New color.FgRed; color.New color.FgGreen; color.New color.FgBlue] [])
      as [H _]; [vm_compute; discriminate|].
    exact H.
  - destruct (color_by_field_position false (q "{'time':'T1','level':'info'}")
                ["time"] "level" [] [color.New color.FgRed] [])
      as [H _]; [vm_compute; discriminate|].
    exact H.
Defined.

(** C8 on two colour specs. *)
Lemma getColorFormat_tokens_witness :
  getColorFormat (fun s => s) " Red, GREEN ,,x"
  = [color.New color.FgRed; color.New color.FgGreen;
     color.New color.Reset; color.New color.Reset]
  /\ getColorFormat (fun s => s) "   " = [].
Proof.
  split.
  - destruct (getColorFormat_tokens (fun s => s) " Red, GREEN ,,x") as (_ & H & _).
    destruct H as [H _]; [vm_compute; discriminate|].
    rewrite H. reflexivity.
  - destruct (getColorFormat_tokens (fun s => s) "   ") as (H & _).
    apply H. right; left. reflexivity.
Defined.

(** ** The scanners on well-formed text *)

Lemma scanString_body (body : string) :
  forall n, String.length body < n -> okBody body = true ->
  forall e rest,
    gjson.scanString false e (body ++ String QUOTE rest)
    = Some (body, rest, e || hasEscape body).
Proof.
  intros n. revert body. induction n as [|n IH]; intros body Hlen Hok e rest; [lia|].
  destruct body as [|c r].
  - simpl. now rewrite orb_false_r.
  - cbn [okBody] in Hok. cbn [append gjson.scanString hasEscape].
    destruct (byteIs c 34) eqn:E34; [discriminate|]. cbn [andb].
    destruct (byteIs c 92) eqn:E92.
    + destruct r as [|c' r']; [discriminate|].
      cbn [append gjson.scanString]. cbn [negb andb].
      rewrite andb_false_r.
      assert (H : gjson.scanString false true (r' ++ String QUOTE rest)
                  = Some (r', rest, true || hasEscape r')).
      { apply IH; [simpl in Hlen; lia | exact Hok]. }
      destruct (byteIs c' 92); rewrite H; cbn [orb]; now rewrite orb_true_r.
    + rewrite (IH r) by (simpl in Hlen; try lia; exact Hok).
      reflexivity.
Qed.

Lemma numberTail_raw (r rest : string) :
  allBytes numberByte r = true -> delimited rest = true ->
  gjson.numberTail (r ++ rest) = (r, rest).
Proof.
  intros Hr Hrest. induction r as [|c r IH].
  - simpl. destruct rest as [|d rest]; [reflexivity|].
    simpl in Hrest. cbn [gjson.numberTail]. now rewrite Hrest.
  - simpl in Hr. apply andb_true_iff in Hr as [Hc Hr].
    cbn [append gjson.numberTail]. rewrite (IH Hr).
    replace (N.leb (code c) 32 || byteIs c 44 || byteIs c 93 || byteIs c 125) with false;
      [reflexivity|].
    symmetry. unfold numberByte, byteIs in *.
    destruct (N.leb_spec 48 (code c)), (N.leb_spec (code c) 57); simpl in Hc.
    + repeat rewrite orb_false_iff. repeat split;
        [apply N.leb_gt | apply N.eqb_neq | apply N.eqb_neq | apply N.eqb_neq]; lia.
    + repeat rewrite orb_true_iff in Hc. rewrite !N.eqb_eq in Hc.
      repeat rewrite orb_false_iff. repeat split;
        [apply N.leb_gt | apply N.eqb_neq | apply N.eqb_neq | apply N.eqb_neq]; lia.
    + repeat rewrite orb_true_iff in Hc. rewrite !N.eqb_eq in Hc.
      repeat rewrite orb_false_iff. repeat split;
        [apply N.leb_gt | apply N.eqb_neq | apply N.eqb_neq | apply N.eqb_neq]; lia.
    + repeat rewrite orb_true_iff in Hc. rewrite !N.eqb_eq in Hc.
      repeat rewrite orb_false_iff. repeat split;
        [apply N.leb_gt | apply N.eqb_neq | apply N.eqb_neq | apply N.eqb_neq]; lia.
Qed.

Lemma delimited_not_letter (rest : string) :
  delimited rest = true ->
  match rest with
  | EmptyString => True
  | String c _ => N.ltb (code c) 97 || N.ltb 122 (code c) = true
  end.
Proof.
  destruct rest as [|c r]; [trivial|]. unfold delimited, byteIs.
  rewrite !orb_true_iff, N.leb_le, !N.eqb_eq, !N.ltb_lt. lia.
Qed.

Lemma literalTail_word (w rest : string) :
  allBytes (fun c => N.leb 97 (code c) && N.leb (code c) 122) w = true ->
  delimited rest = true ->
  gjson.literalTail (w ++ rest) = (w, rest).
Proof.
  intros Hw Hrest. induction w as [|c w IH].
  - simpl. destruct rest as [|d rest]; [reflexivity|].
    apply delimited_not_letter in Hrest. cbn [gjson.literalTail]. now rewrite Hrest.
  - simpl in Hw. apply andb_true_iff in Hw as [Hc Hw].
    cbn [append gjson.literalTail]. rewrite (IH Hw).
    apply andb_true_iff in Hc as [H1 H2]. apply N.leb_le in H1, H2.
    replace (N.ltb (code c) 97) with false by (symmetry; apply N.ltb_ge; lia).
    replace (N.ltb 122 (code c)) with false by (symmetry; apply N.ltb_ge; lia).
    reflexivity.
Qed.

(** Facts on classes of bytes, by arithmetic on their codes. *)
Ltac byte_solve :=
  unfold jsonSpace, numberByte, keySkip, elemSkip, valSkip, neutral,
    gjson.isNumberStart, gjson.isLiteralStart, byteIs in *;
  repeat (rewrite ?negb_true_iff, ?negb_false_iff, ?andb_true_iff, ?orb_true_iff,
            ?andb_false_iff, ?orb_false_iff, ?N.leb_le, ?N.eqb_eq, ?N.ltb_lt,
            ?N.eqb_neq, ?N.leb_gt, ?N.ltb_ge in *);
  lia.

Lemma jsonSpace_keySkip (c : ascii) : jsonSpace c = true -> keySkip c = true.
Proof. intro H. byte_solve. Qed.

Lemma jsonSpace_valSkip (c : ascii) : jsonSpace c = true -> valSkip c = true.
Proof. intro H. byte_solve. Qed.

Lemma jsonSpace_elemSkip (c : ascii) : jsonSpace c = true -> elemSkip c = true.
Proof. intro H. byte_solve. Qed.

Lemma jsonSpace_neutral (c : ascii) : jsonSpace c = true -> neutral c = true.
Proof. intro H. byte_solve. Qed.

Lemma jsonSpace_low (c : ascii) : jsonSpace c = true -> N.leb (code c) 32 = true.
Proof. intro H. byte_solve. Qed.

Lemma numberByte_neutral (c : ascii) : numberByte c = true -> neutral c = true.
Proof. intro H. byte_solve. Qed.

Lemma numberStart_neutral (c : ascii) : gjson.isNumberStart c = true -> neutral c = true.
Proof. intro H. byte_solve. Qed.

Lemma allBytes_impl (p q : ascii -> bool) (s : string) :
  (forall c, p c = true -> q c = true) -> allBytes p s = true -> allBytes q s = true.
Proof.
  intro H. induction s as [|c s IH]; [reflexivity|]. simpl.
  rewrite !andb_true_iff. intros [Hc Hs]. auto.
Qed.

(** Equality of texts up to the bracketing of [++]. *)
Ltac str_eq :=
  unfold consStr, str1; cbn [fst snd];
  repeat (rewrite ?append_assoc, ?append_nil_r; cbn [append]);
  reflexivity.

Lemma consStr_nil (p : string * string) : consStr "" p = p.
Proof. now destruct p. Qed.

Lemma squash_neutral (s : string) (d : nat) (rest : string) :
  allBytes neutral s = true ->
  gjson.squash None d (s ++ rest) = consStr s (gjson.squash None d rest).
Proof.
  induction s as [|c s IH]; intro H; [simpl; now rewrite consStr_nil|].
  simpl in H. apply andb_true_iff in H as [Hc Hs].
  cbn [append gjson.squash]. rewrite (IH Hs).
  unfold neutral in Hc. rewrite !andb_true_iff, !negb_true_iff in Hc.
  destruct Hc as [[[[-> ->] ->] ->] ->]. reflexivity.
Qed.

Lemma squash_neutral_cons (c : ascii) (d : nat) (rest : string) :
  neutral c = true ->
  gjson.squash None d (String c rest) = consStr (str1 c) (gjson.squash None d rest).
Proof. intro H. apply (squash_neutral (str1 c)). simpl. now rewrite H. Qed.

Lemma squash_body (body : string) :
  forall n, String.length body < n -> okBody body = true ->
  forall d rest,
    gjson.squash (Some false) d (body ++ String QUOTE rest)
    = consStr (body ++ str1 QUOTE) (gjson.squash None d rest).
Proof.
  intros n. revert body. induction n as [|n IH]; intros body Hlen Hok d rest; [lia|].
  destruct body as [|c r]; [reflexivity|].
  cbn [okBody] in Hok. cbn [append gjson.squash].
  destruct (byteIs c 34) eqn:E34; [discriminate|].
  destruct (byteIs c 92) eqn:E92.
  - destruct r as [|c' r']; [discriminate|].
    cbn [append gjson.squash negb].
    assert (H : gjson.squash (Some false) d (r' ++ String QUOTE rest)
                = consStr (r' ++ str1 QUOTE) (gjson.squash None d rest)).
    { apply IH; [simpl in Hlen; lia | exact Hok]. }
    destruct (byteIs c' 34); [|destruct (byteIs c' 92)]; rewrite H; reflexivity.
  - rewrite (IH r) by (simpl in Hlen; try lia; exact Hok). reflexivity.
Qed.

Lemma renderMembers_cons_app (pre key mid pre' : string) (v : value) (post : string)
    (rest_ms : members) (rest : string) :
  renderMembers (MCons pre key mid pre' v post rest_ms) ++ rest
  = pre ++ String QUOTE (key ++ String QUOTE
      (mid ++ String ":" (pre' ++ render v ++ post ++ memberSep rest_ms
                           ++ renderMembers rest_ms ++ rest))).
Proof. cbn [renderMembers]. rewrite !append_assoc. cbn [append str1]. now rewrite ?append_assoc. Qed.

(** A complete value, and a complete run of elements or members, leaves
    the depth of [parseSquash] as it was. *)
Lemma squash_render :
  (forall v, wf v = true -> forall d rest,
      gjson.squash None (S d) (render v ++ rest)
      = consStr (render v) (gjson.squash None (S d) rest))
  /\ (forall es, wfElems es = true -> forall d rest,
      gjson.squash None (S d) (renderElems es ++ rest)
      = consStr (renderElems es) (gjson.squash None (S d) rest))
  /\ (forall ms, wfMembers ms = true -> forall d rest,
      gjson.squash None (S d) (renderMembers ms ++ rest)
      = consStr (renderMembers ms) (gjson.squash None (S d) rest)).
Proof.
  apply value_elements_members_ind.
  - intros _ d rest. now apply (squash_neutral "null").
  - intros _ d rest. now apply (squash_neutral "true").
  - intros _ d rest. now apply (squash_neutral "false").
  - intros raw H d rest. apply squash_neutral.
    destruct raw as [|c r]; [discriminate|]. simpl in *.
    apply andb_true_iff in H as [H1 H2].
    rewrite (numberStart_neutral c H1). simpl.
    now apply (allBytes_impl numberByte), H2; apply numberByte_neutral.
  - intros body H d rest. cbn [render wf] in *.
    cbn [append gjson.squash]. change (byteIs QUOTE 34) with true. cbv iota.
    rewrite append_assoc. change (str1 QUOTE ++ rest) with (String QUOTE rest).
    rewrite (squash_body body (S (String.length body))) by (auto; lia).
    reflexivity.
  - intros inner es IH H d rest. cbn [wf] in H. apply andb_true_iff in H as [Hi He].
    assert (E : forall body, allBytes neutral body = true \/ body = renderElems es ->
                gjson.squash None (S d) (("[" ++ body ++ "]") ++ rest)
                = consStr ("[" ++ body ++ "]") (gjson.squash None (S d) rest)).
    { intros body Hb. cbn [append gjson.squash]. change (byteIs "["%char 34) with false.
      change (byteIs "["%char 123 || byteIs "["%char 91) with true. cbv iota.
      rewrite append_assoc.
      assert (E' : gjson.squash None (S (S d)) (body ++ "]" ++ rest)
                   = consStr body (gjson.squash None (S (S d)) ("]" ++ rest))).
      { destruct Hb as [Hb| ->]; [now apply squash_neutral | now apply IH]. }
      rewrite E'. cbn [append gjson.squash]. unfold consStr. simpl.
      now rewrite append_assoc. }
    destruct es; cbn [render]; apply E;
      [left; now apply (allBytes_impl jsonSpace), Hi; apply jsonSpace_neutral | now right].
  - intros inner ms IH H d rest. cbn [wf] in H. apply andb_true_iff in H as [Hi He].
    assert (E : forall body, allBytes neutral body = true \/ body = renderMembers ms ->
                gjson.squash None (S d) (("{" ++ body ++ "}") ++ rest)
                = consStr ("{" ++ body ++ "}") (gjson.squash None (S d) rest)).
    { intros body Hb. cbn [append gjson.squash]. change (byteIs "{"%char 34) with false.
      change (byteIs "{"%char 123 || byteIs "{"%char 91) with true. cbv iota.
      rewrite append_assoc.
      assert (E' : gjson.squash None (S (S d)) (body ++ "}" ++ rest)
                   = consStr body (gjson.squash None (S (S d)) ("}" ++ rest))).
      { destruct Hb as [Hb| ->]; [now apply squash_neutral | now apply IH]. }
      rewrite E'. cbn [append gjson.squash]. unfold consStr. simpl.
      now rewrite append_assoc. }
    destruct ms; cbn [render]; apply E;
      [left; now apply (allBytes_impl jsonSpace), Hi; apply jsonSpace_neutral | now right].
  - intros _ d rest. simpl. now rewrite consStr_nil.
  - intros pre v IHv post rest_es IHes H d rest. cbn [wfElems] in H.
    rewrite !andb_true_iff in H. destruct H as [[[Hpre Hv] Hpost] Hes].
    cbn [renderElems]. rewrite !append_assoc.
    rewrite (squash_neutral pre) by (now apply (allBytes_impl jsonSpace), Hpre; apply jsonSpace_neutral).
    rewrite (IHv Hv).
    rewrite (squash_neutral post) by (now apply (allBytes_impl jsonSpace), Hpost; apply jsonSpace_neutral).
    rewrite (squash_neutral (elemSep rest_es)) by (now destruct rest_es).
    rewrite (IHes Hes). str_eq.
  - intros _ d rest. simpl. now rewrite consStr_nil.
  - intros pre key mid pre' v IHv post rest_ms IHms H d rest. cbn [wfMembers] in H.
    rewrite !andb_true_iff in H.
    destruct H as [[[[[[Hpre Hkey] Hmid] Hpre'] Hv] Hpost] Hms].
    assert (Hsp : forall s, isJsonSpace s = true -> allBytes neutral s = true).
    { intros s Hs. now apply (allBytes_impl jsonSpace), Hs; apply jsonSpace_neutral. }
    rewrite renderMembers_cons_app.
    rewrite (squash_neutral pre) by auto.
    cbn [gjson.squash]. change (byteIs QUOTE 34) with true. cbv iota.
    rewrite (squash_body key (S (String.length key))) by (auto; lia).
    rewrite (squash_neutral mid) by auto.
    rewrite (squash_neutral_cons ":"%char) by reflexivity.
    rewrite (squash_neutral pre') by auto.
    rewrite (IHv Hv).
    rewrite (squash_neutral post) by auto.
    rewrite (squash_neutral (memberSep rest_ms)) by (now destruct rest_ms).
    rewrite (IHms Hms). cbn [renderMembers]. str_eq.
Qed.

Lemma render_object (inner : string) (ms : members) :
  render (VObject inner ms) = String "{" (objBody inner ms ++ "}").
Proof. now destruct ms. Qed.

Lemma render_array (inner : string) (es : elements) :
  render (VArray inner es) = String "[" (arrBody inner es ++ "]").
Proof. now destruct es. Qed.

Lemma isJsonSpace_neutral (s : string) : isJsonSpace s = true -> allBytes neutral s = true.
Proof. apply allBytes_impl, jsonSpace_neutral. Qed.

Lemma squash_objBody (inner : string) (ms : members) (d : nat) (rest : string) :
  wf (VObject inner ms) = true ->
  gjson.squash None (S d) (objBody inner ms ++ rest)
  = consStr (objBody inner ms) (gjson.squash None (S d) rest).
Proof.
  cbn [wf]. intros [Hi Hm]%andb_true_iff. destruct ms.
  - now apply squash_neutral, isJsonSpace_neutral.
  - now apply squash_render.
Qed.

Lemma squash_arrBody (inner : string) (es : elements) (d : nat) (rest : string) :
  wf (VArray inner es) = true ->
  gjson.squash None (S d) (arrBody inner es ++ rest)
  = consStr (arrBody inner es) (gjson.squash None (S d) rest).
Proof.
  cbn [wf]. intros [Hi Hm]%andb_true_iff. destruct es.
  - now apply squash_neutral, isJsonSpace_neutral.
  - now apply squash_render.
Qed.

(** [parseSquash] reads exactly the text of a container. *)
Lemma parseSquash_object (inner : string) (ms : members) (rest : string) :
  wf (VObject inner ms) = true ->
  gjson.parseSquash "{" ((objBody inner ms ++ "}") ++ rest)
  = (render (VObject inner ms), rest).
Proof.
  intro H. unfold gjson.parseSquash. rewrite append_assoc.
  rewrite (squash_objBody inner ms 0 _ H). rewrite render_object. reflexivity.
Qed.

Lemma parseSquash_array (inner : string) (es : elements) (rest : string) :
  wf (VArray inner es) = true ->
  gjson.parseSquash "[" ((arrBody inner es ++ "]") ++ rest)
  = (render (VArray inner es), rest).
Proof.
  intro H. unfold gjson.parseSquash. rewrite append_assoc.
  rewrite (squash_arrBody inner es 0 _ H). rewrite render_array. reflexivity.
Qed.

(** Each loop steps over the bytes it does not look for. *)
Lemma objKey_skip (lead : string) (fuel : nat) (path s : string) :
  allBytes keySkip lead = true ->
  gjson.objKey (String.length lead + fuel) path (lead ++ s) = gjson.objKey fuel path s.
Proof.
  induction lead as [|c lead IH]; intro H; [reflexivity|].
  simpl in H. apply andb_true_iff in H as [Hc Hl].
  unfold keySkip in Hc. rewrite andb_true_iff, !negb_true_iff in Hc. destruct Hc as [H1 H2].
  cbn [String.length Nat.add append gjson.objKey]. rewrite H1, H2. now apply IH.
Qed.

Lemma valSkip_inv (c : ascii) :
  valSkip c = true ->
  byteIs c 34 = false /\ byteIs c 123 = false /\ byteIs c 91 = false
  /\ gjson.isNumberStart c = false /\ gjson.isLiteralStart c = false.
Proof.
  unfold valSkip. rewrite !andb_true_iff, !negb_true_iff. tauto.
Qed.

Lemma objVal_skip (lead : string) (fuel : nat) (path : string) (pm : bool) (s : string) :
  allBytes valSkip lead = true ->
  gjson.objVal (String.length lead + fuel) path pm (lead ++ s) = gjson.objVal fuel path pm s.
Proof.
  induction lead as [|c lead IH]; intro H; [reflexivity|].
  simpl in H. apply andb_true_iff in H as [Hc Hl].
  apply valSkip_inv in Hc as (H1 & H2 & H3 & H4 & H5).
  cbn [String.length Nat.add append gjson.objVal].
  destruct (gjson.splitPath path) as [part more].
  rewrite H1, H2, H3, H4, H5. now apply IH.
Qed.

Lemma arrVal_skip (lead : string) (fuel : nat) (path : string) (h : N) (s : string) :
  allBytes elemSkip lead = true ->
  gjson.arrVal (String.length lead + fuel) path h (lead ++ s) = gjson.arrVal fuel path h s.
Proof.
  induction lead as [|c lead IH]; intro H; [reflexivity|].
  simpl in H. apply andb_true_iff in H as [Hc Hl].
  unfold elemSkip in Hc. apply andb_true_iff in Hc as [Hc H6].
  apply negb_true_iff in H6.
  apply valSkip_inv in Hc as (H1 & H2 & H3 & H4 & H5).
  cbn [String.length Nat.add append gjson.arrVal].
  destruct (gjson.splitPath path) as [part more].
  rewrite H1, H2, H3, H4, H5, H6. now apply IH.
Qed.

Lemma literalStart_inv (c : ascii) :
  gjson.isLiteralStart c = true ->
  byteIs c 34 = false /\ byteIs c 123 = false /\ byteIs c 91 = false
  /\ gjson.isNumberStart c = false.
Proof. intro H. byte_solve. Qed.

Lemma numberStart_inv (c : ascii) :
  gjson.isNumberStart c = true ->
  byteIs c 34 = false /\ byteIs c 123 = false /\ byteIs c 91 = false.
Proof. intro H. byte_solve. Qed.

(** One value read by the loop over the members of an object. *)
Lemma objVal_literal (c : ascii) (w cont : string) (f : nat) (path : string) (pm : bool) :
  gjson.isLiteralStart c = true -> lowerWord w = true -> delimited cont = true ->
  gjson.objVal (S f) path pm (String c (w ++ cont))
  = if hitOf path pm then (Some (gjson.literalResult c (String c w)), cont)
    else gjson.objKey f path cont.
Proof.
  intros Hc Hw Hd. unfold hitOf, pathMore. cbn [gjson.objVal].
  destruct (gjson.splitPath path) as [part more]. cbn [snd].
  destruct (literalStart_inv c Hc) as (-> & -> & -> & ->). rewrite Hc.
  unfold gjson.parseLiteral. rewrite (literalTail_word w cont Hw Hd). reflexivity.
Qed.

Lemma objVal_number (c : ascii) (r cont : string) (f : nat) (path : string) (pm : bool) :
  okNumber (String c r) = true -> delimited cont = true ->
  gjson.objVal (S f) path pm (String c (r ++ cont))
  = if hitOf path pm then (Some (gjson.mkResult gjson.Number (String c r) ""), cont)
    else gjson.objKey f path cont.
Proof.
  intros [Hc Hr]%andb_true_iff Hd. unfold hitOf, pathMore. cbn [gjson.objVal].
  destruct (gjson.splitPath path) as [part more]. cbn [snd].
  destruct (numberStart_inv c Hc) as (-> & -> & ->). rewrite Hc.
  unfold gjson.parseNumber. rewrite (numberTail_raw r cont Hr Hd). reflexivity.
Qed.

Lemma objVal_string (body cont : string) (f : nat) (path : string) (pm : bool) :
  okBody body = true ->
  gjson.objVal (S f) path pm (String QUOTE (body ++ String QUOTE cont))
  = if hitOf path pm then (Some (gjson.stringResult body (hasEscape body)), cont)
    else gjson.objKey f path cont.
Proof.
  intros Hb. unfold hitOf, pathMore. cbn [gjson.objVal].
  destruct (gjson.splitPath path) as [part more]. cbn [snd].
  change (byteIs QUOTE 34) with true. cbv iota.
  rewrite (scanString_body body (S (String.length body))) by (auto; lia).
  reflexivity.
Qed.

Lemma objVal_scalar (v : value) (cont : string) (f : nat) (path : string) (pm : bool) :
  wf v = true -> isContainer v = false -> delimited cont = true ->
  gjson.objVal (S f) path pm (render v ++ cont)
  = if hitOf path pm then (Some (resultOf v), cont) else gjson.objKey f path cont.
Proof.
  intros Hwf Hc Hd. destruct v; try discriminate; cbn [render resultOf wf] in *.
  - now apply (objVal_literal "n" "ull").
  - now apply (objVal_literal "t" "rue").
  - now apply (objVal_literal "f" "alse").
  - destruct raw as [|c r]; [discriminate|]. now apply objVal_number.
  - rewrite append_assoc. cbn [append str1]. now apply objVal_string.
Qed.

Lemma objVal_squash_object (inner : string) (ms : members) (cont : string) (f : nat)
    (path : string) (pm : bool) :
  wf (VObject inner ms) = true -> pm && negb (hitOf path pm) = false ->
  gjson.objVal (S f) path pm (render (VObject inner ms) ++ cont)
  = if hitOf path pm then (Some (resultOf (VObject inner ms)), cont)
    else gjson.objKey f path cont.
Proof.
  intros Hwf Hpm. rewrite render_object. unfold hitOf, pathMore in *.
  cbn [append gjson.objVal].
  destruct (gjson.splitPath path) as [part more]. cbn [snd] in *.
  change (byteIs "{" 34) with false. change (byteIs "{" 123) with true. cbv iota.
  rewrite Hpm. rewrite (parseSquash_object inner ms cont Hwf). reflexivity.
Qed.

Lemma objVal_squash_array (inner : string) (es : elements) (cont : string) (f : nat)
    (path : string) (pm : bool) :
  wf (VArray inner es) = true -> pm && negb (hitOf path pm) = false ->
  gjson.objVal (S f) path pm (render (VArray inner es) ++ cont)
  = if hitOf path pm then (Some (resultOf (VArray inner es)), cont)
    else gjson.objKey f path cont.
Proof.
  intros Hwf Hpm. rewrite render_array. unfold hitOf, pathMore in *.
  cbn [append gjson.objVal].
  destruct (gjson.splitPath path) as [part more]. cbn [snd] in *.
  change (byteIs "[" 34) with false. change (byteIs "[" 123) with false.
  change (byteIs "[" 91) with true. cbv iota.
  rewrite Hpm. rewrite (parseSquash_array inner es cont Hwf). reflexivity.
Qed.

Lemma objVal_descend_object (inner : string) (ms : members) (cont : string) (f : nat)
    (path : string) (pm : bool) :
  pm && negb (hitOf path pm) = true ->
  gjson.objVal (S f) path pm (render (VObject inner ms) ++ cont)
  = match gjson.objKey f (subOf path) (objBody inner ms ++ String "}" cont) with
    | (Some r, r') => (Some r, r')
    | (None, r') => gjson.objKey f path r'
    end.
Proof.
  intros Hpm. rewrite render_object. unfold hitOf, subOf, pathMore in *.
  cbn [append gjson.objVal].
  destruct (gjson.splitPath path) as [part more]. cbn [snd] in *.
  change (byteIs "{" 34) with false. change (byteIs "{" 123) with true. cbv iota.
  rewrite Hpm. rewrite append_assoc. reflexivity.
Qed.

Lemma objVal_descend_array (inner : string) (es : elements) (cont : string) (f : nat)
    (path : string) (pm : bool) :
  pm && negb (hitOf path pm) = true ->
  gjson.objVal (S f) path pm (render (VArray inner es) ++ cont)
  = match gjson.arrVal f (subOf path) 0 (arrBody inner es ++ String "]" cont) with
    | (Some r, r') => (Some r, r')
    | (None, r') => gjson.objKey f path r'
    end.
Proof.
  intros Hpm. rewrite render_array. unfold hitOf, subOf, pathMore in *.
  cbn [append gjson.objVal].
  destruct (gjson.splitPath path) as [part more]. cbn [snd] in *.
  change (byteIs "[" 34) with false. change (byteIs "[" 123) with false.
  change (byteIs "[" 91) with true. cbv iota.
  rewrite Hpm. rewrite append_assoc. reflexivity.
Qed.

Lemma arrVal_literal (c : ascii) (w cont : string) (f : nat) (path : string) (h : N) :
  gjson.isLiteralStart c = true -> lowerWord w = true -> delimited cont = true ->
  gjson.arrVal (S f) path h (String c (w ++ cont))
  = if hitAt path h then (Some (gjson.literalResult c (String c w)), cont)
    else gjson.arrVal f path (h + 1) cont.
Proof.
  intros Hc Hw Hd. unfold hitAt, pmAt, pathMore. cbn [gjson.arrVal].
  destruct (gjson.splitPath path) as [part more]. cbn [fst snd].
  destruct (literalStart_inv c Hc) as (-> & -> & -> & ->). rewrite Hc.
  unfold gjson.parseLiteral. rewrite (literalTail_word w cont Hw Hd). reflexivity.
Qed.

Lemma arrVal_number (c : ascii) (r cont : string) (f : nat) (path : string) (h : N) :
  okNumber (String c r) = true -> delimited cont = true ->
  gjson.arrVal (S f) path h (String c (r ++ cont))
  = if hitAt path h then (Some (gjson.mkResult gjson.Number (String c r) ""), cont)
    else gjson.arrVal f path (h + 1) cont.
Proof.
  intros [Hc Hr]%andb_true_iff Hd. unfold hitAt, pmAt, pathMore. cbn [gjson.arrVal].
  destruct (gjson.splitPath path) as [part more]. cbn [fst snd].
  destruct (numberStart_inv c Hc) as (-> & -> & ->). rewrite Hc.
  unfold gjson.parseNumber. rewrite (numberTail_raw r cont Hr Hd). reflexivity.
Qed.

Lemma arrVal_string (body cont : string) (f : nat) (path : string) (h : N) :
  okBody body = true ->
  gjson.arrVal (S f) path h (String QUOTE (body ++ String QUOTE cont))
  = if hitAt path h then (Some (gjson.stringResult body (hasEscape body)), cont)
    else gjson.arrVal f path (h + 1) cont.
Proof.
  intros Hb. unfold hitAt, pmAt, pathMore. cbn [gjson.arrVal].
  destruct (gjson.splitPath path) as [part more]. cbn [fst snd].
  change (byteIs QUOTE 34) with true. cbv iota.
  rewrite (scanString_body body (S (String.length body))) by (auto; lia).
  reflexivity.
Qed.

Lemma arrVal_scalar (v : value) (cont : string) (f : nat) (path : string) (h : N) :
  wf v = true -> isContainer v = false -> delimited cont = true ->
  gjson.arrVal (S f) path h (render v ++ cont)
  = if hitAt path h then (Some (resultOf v), cont) else gjson.arrVal f path (h + 1) cont.
Proof.
  intros Hwf Hc Hd. destruct v; try discriminate; cbn [render resultOf wf] in *.
  - now apply (arrVal_literal "n" "ull").
  - now apply (arrVal_literal "t" "rue").
  - now apply (arrVal_literal "f" "alse").
  - destruct raw as [|c r]; [discriminate|]. now apply arrVal_number.
  - rewrite append_assoc. cbn [append str1]. now apply arrVal_string.
Qed.

Lemma arrVal_squash_object (inner : string) (ms : members) (cont : string) (f : nat)
    (path : string) (h : N) :
  wf (VObject inner ms) = true -> pmAt path h && negb (hitAt path h) = false ->
  gjson.arrVal (S f) path h (render (VObject inner ms) ++ cont)
  = if hitAt path h then (Some (resultOf (VObject inner ms)), cont)
    else gjson.arrVal f path (h + 1) cont.
Proof.
  intros Hwf Hpm. rewrite render_object. unfold hitAt, pmAt, pathMore in *.
  cbn [append gjson.arrVal].
  destruct (gjson.splitPath path) as [part more]. cbn [fst snd] in *.
  change (byteIs "{" 34) with false. change (byteIs "{" 123) with true. cbv iota.
  rewrite Hpm. rewrite (parseSquash_object inner ms cont Hwf). reflexivity.
Qed.

Lemma arrVal_squash_array (inner : string) (es : elements) (cont : string) (f : nat)
    (path : string) (h : N) :
  wf (VArray inner es) = true -> pmAt path h && negb (hitAt path h) = false ->
  gjson.arrVal (S f) path h (render (VArray inner es) ++ cont)
  = if hitAt path h then (Some (resultOf (VArray inner es)), cont)
    else gjson.arrVal f path (h + 1) cont.
Proof.
  intros Hwf Hpm. rewrite render_array. unfold hitAt, pmAt, pathMore in *.
  cbn [append gjson.arrVal].
  destruct (gjson.splitPath path) as [part more]. cbn [fst snd] in *.
  change (byteIs "[" 34) with false. change (byteIs "[" 123) with false.
  change (byteIs "[" 91) with true. cbv iota.
  rewrite Hpm. rewrite (parseSquash_array inner es cont Hwf). reflexivity.
Qed.

Lemma arrVal_descend_object (inner : string) (ms : members) (cont : string) (f : nat)
    (path : string) (h : N) :
  pmAt path h && negb (hitAt path h) = true ->
  gjson.arrVal (S f) path h (render (VObject inner ms) ++ cont)
  = match gjson.objKey f (subOf path) (objBody inner ms ++ String "}" cont) with
    | (Some r, r') => (Some r, r')
    | (None, r') => gjson.arrVal f path (h + 1) r'
    end.
Proof.
  intros Hpm. rewrite render_object. unfold hitAt, pmAt, subOf, pathMore in *.
  cbn [append gjson.arrVal].
  destruct (gjson.splitPath path) as [part more]. cbn [fst snd] in *.
  change (byteIs "{" 34) with false. change (byteIs "{" 123) with true. cbv iota.
  rewrite Hpm. rewrite append_assoc. reflexivity.
Qed.

Lemma arrVal_descend_array (inner : string) (es : elements) (cont : string) (f : nat)
    (path : string) (h : N) :
  pmAt path h && negb (hitAt path h) = true ->
  gjson.arrVal (S f) path h (render (VArray inner es) ++ cont)
  = match gjson.arrVal f (subOf path) 0 (arrBody inner es ++ String "]" cont) with
    | (Some r, r') => (Some r, r')
    | (None, r') => gjson.arrVal f path (h + 1) r'
    end.
Proof.
  intros Hpm. rewrite render_array. unfold hitAt, pmAt, subOf, pathMore in *.
  cbn [append gjson.arrVal].
  destruct (gjson.splitPath path) as [part more]. cbn [fst snd] in *.
  change (byteIs "[" 34) with false. change (byteIs "[" 123) with false.
  change (byteIs "[" 91) with true. cbv iota.
  rewrite Hpm. rewrite append_assoc. reflexivity.
Qed.

Lemma findMembers_cons (path pre key mid pre' : string) (v : value) (post : string)
    (rest : members) :
  findMembers path (MCons pre key mid pre' v post rest)
  = let pm := String.eqb (fst (gjson.splitPath path)) (keyText key) in
    if hitOf path pm then Some (resultOf v)
    else if pm then
      match v with
      | VObject _ ms' =>
          match findMembers (subOf path) ms' with
          | Some r => Some r
          | None => findMembers path rest
          end
      | VArray _ es' =>
          match findElems (subOf path) 0 es' with
          | Some r => Some r
          | None => findMembers path rest
          end
      | _ => findMembers path rest
      end
    else findMembers path rest.
Proof.
  cbn [findMembers]. unfold hitOf, subOf, pathMore.
  destruct (gjson.splitPath path) as [part [sub|]]; cbn [fst snd gjson.isSome negb];
    destruct (String.eqb part (keyText key)); cbn [andb]; reflexivity.
Qed.

Lemma findElems_cons (path : string) (h : N) (pre : string) (v : value) (post : string)
    (rest : elements) :
  findElems path h (ECons pre v post rest)
  = if hitAt path h then Some (resultOf v)
    else if pmAt path h then
      match v with
      | VObject _ ms' =>
          match findMembers (subOf path) ms' with
          | Some r => Some r
          | None => findElems path (h + 1) rest
          end
      | VArray _ es' =>
          match findElems (subOf path) 0 es' with
          | Some r => Some r
          | None => findElems path (h + 1) rest
          end
      | _ => findElems path (h + 1) rest
      end
    else findElems path (h + 1) rest.
Proof.
  cbn [findElems]. unfold hitAt, pmAt, subOf, pathMore.
  destruct (gjson.splitPath path) as [part [sub|]]; cbn [fst snd gjson.isSome negb];
    destruct (gjson.indexMatches part h); cbn [andb]; reflexivity.
Qed.

Lemma objKey_key (key rest : string) (f : nat) (path : string) :
  okBody key = true ->
  gjson.objKey (S f) path (String QUOTE (key ++ String QUOTE rest))
  = gjson.objVal f path (String.eqb (fst (gjson.splitPath path)) (keyText key)) rest.
Proof.
  intro H. cbn [gjson.objKey]. change (byteIs QUOTE 34) with true. cbv iota.
  rewrite (scanString_body key (S (String.length key))) by (auto; lia).
  cbn [orb]. unfold keyText. now destruct (gjson.splitPath path).
Qed.

Lemma isJsonSpace_keySkip (s : string) : isJsonSpace s = true -> allBytes keySkip s = true.
Proof. apply allBytes_impl, jsonSpace_keySkip. Qed.

Lemma isJsonSpace_valSkip (s : string) : isJsonSpace s = true -> allBytes valSkip s = true.
Proof. apply allBytes_impl, jsonSpace_valSkip. Qed.

Lemma isJsonSpace_elemSkip (s : string) : isJsonSpace s = true -> allBytes elemSkip s = true.
Proof. apply allBytes_impl, jsonSpace_elemSkip. Qed.

Lemma delimited_after (post k : string) :
  isJsonSpace post = true -> delimited k = true -> delimited (post ++ k) = true.
Proof.
  destruct post as [|c post]; [auto|]. cbn [isJsonSpace allBytes append delimited].
  intros [Hc _]%andb_true_iff _. now rewrite (jsonSpace_low c Hc).
Qed.

Lemma render_nonempty (v : value) : wf v = true -> 0 < String.length (render v).
Proof.
  destruct v; cbn [wf render]; intro H; try (simpl; lia).
  - destruct raw; [discriminate | simpl; lia].
  - destruct elems; simpl; lia.
  - destruct membs; simpl; lia.
Qed.

Lemma objKey_close (f : nat) (path rest : string) :
  gjson.objKey (S f) path (String "}" rest) = (None, rest).
Proof. reflexivity. Qed.

Lemma arrVal_close (f : nat) (path : string) (h : N) (rest : string) :
  gjson.arrVal (S f) path h (String "]" rest) = (None, rest).
Proof. cbn [gjson.arrVal]. now destruct (gjson.splitPath path). Qed.

(** ** The scanners find what the search on the tree finds *)

Ltac len_lia :=
  repeat (progress (rewrite ?length_append in *; cbn [String.length] in *)); lia.

Lemma scans_elements_step (pre : string) (v : value) (post : string) (rest : elements) :
  scansValue v -> scansElems rest -> scansElems (ECons pre v post rest).
Proof.
  intros IHv IHrest Hwf path h fuel lead rest0 Hlead Hfuel.
  cbn [wfElems] in Hwf. rewrite !andb_true_iff in Hwf.
  destruct Hwf as [[[Hpre Hv] Hpost] Hrest].
  set (cont := (post ++ elemSep rest) ++ renderElems rest ++ String "]" rest0).
  assert (Etext : lead ++ renderElems (ECons pre v post rest) ++ String "]" rest0
                  = (lead ++ pre) ++ render v ++ cont)
    by (unfold cont; cbn [renderElems]; str_eq).
  rewrite Etext in *. clear Etext.
  assert (Hcont : delimited cont = true).
  { unfold cont. rewrite append_assoc. apply delimited_after; [exact Hpost|].
    now destruct rest. }
  pose proof (render_nonempty v Hv) as Hne.
  rewrite length_append, (length_append (render v)) in Hfuel.
  remember (fuel - String.length (lead ++ pre) - 1) as f4 eqn:Ef4.
  replace fuel with (String.length (lead ++ pre) + S f4) by lia.
  rewrite arrVal_skip
    by (rewrite allBytes_app, Hlead; now apply isJsonSpace_elemSkip).
  assert (Hnext : agrees (gjson.arrVal f4 path (h + 1) cont)
                    (findElems path (h + 1) rest) rest0).
  { unfold cont. apply IHrest; [exact Hrest| |fold cont; lia].
    rewrite allBytes_app, (isJsonSpace_elemSkip post Hpost). now destruct rest. }
  clearbody cont.
  rewrite findElems_cons.
  destruct (hitAt path h) eqn:Ehit.
  - assert (E : gjson.arrVal (S f4) path h (render v ++ cont) = (Some (resultOf v), cont)).
    { destruct (isContainer v) eqn:Ec.
      - destruct v; try discriminate.
        + rewrite arrVal_squash_array by (auto; rewrite Ehit; apply andb_false_r).
          now rewrite Ehit.
        + rewrite arrVal_squash_object by (auto; rewrite Ehit; apply andb_false_r).
          now rewrite Ehit.
      - rewrite arrVal_scalar by auto. now rewrite Ehit. }
    rewrite E. split; [reflexivity | discriminate].
  - destruct (pmAt path h) eqn:Epm.
    + destruct v; try (rewrite arrVal_scalar, Ehit by auto; exact Hnext).
      * rewrite arrVal_descend_array by (now rewrite Epm, Ehit).
        rewrite render_array in Hfuel, Hne.
        assert (I : agrees (gjson.arrVal f4 (subOf path) 0
                              (arrBody inner elems ++ String "]" cont))
                      (findElems (subOf path) 0 elems) cont).
        { apply (IHv Hv). len_lia. }
        destruct I as [I1 I2].
        destruct (gjson.arrVal f4 (subOf path) 0 _) as [[r|] r']; cbn [fst snd] in *.
        -- rewrite <- I1. split; [reflexivity | discriminate].
        -- rewrite <- I1. rewrite (I2 (eq_sym I1)). exact Hnext.
      * rewrite arrVal_descend_object by (now rewrite Epm, Ehit).
        rewrite render_object in Hfuel, Hne.
        assert (I : agrees (gjson.objKey f4 (subOf path)
                              (objBody inner membs ++ String "}" cont))
                      (findMembers (subOf path) membs) cont).
        { apply (IHv Hv). len_lia. }
        destruct I as [I1 I2].
        destruct (gjson.objKey f4 (subOf path) _) as [[r|] r']; cbn [fst snd] in *.
        -- rewrite <- I1. split; [reflexivity | discriminate].
        -- rewrite <- I1. rewrite (I2 (eq_sym I1)). exact Hnext.
    + destruct (isContainer v) eqn:Ec.
      * destruct v; try discriminate.
        -- rewrite arrVal_squash_array by (auto; now rewrite Epm).
           rewrite Ehit. exact Hnext.
        -- rewrite arrVal_squash_object by (auto; now rewrite Epm).
           rewrite Ehit. exact Hnext.
      * rewrite arrVal_scalar, Ehit by auto. exact Hnext.
Qed.

Lemma scans_members_step (pre key mid pre' : string) (v : value) (post : string)
    (rest : members) :
  scansValue v -> scansMembers rest -> scansMembers (MCons pre key mid pre' v post rest).
Proof.
  intros IHv IHrest Hwf path fuel lead rest0 Hlead Hfuel.
  cbn [wfMembers] in Hwf. rewrite !andb_true_iff in Hwf.
  destruct Hwf as [[[[[[Hpre Hkey] Hmid] Hpre'] Hv] Hpost] Hrest].
  set (cont := (post ++ memberSep rest) ++ renderMembers rest ++ String "}" rest0).
  set (lead2 := mid ++ ":" ++ pre').
  set (pm := String.eqb (fst (gjson.splitPath path)) (keyText key)).
  assert (Etext : lead ++ renderMembers (MCons pre key mid pre' v post rest)
                       ++ String "}" rest0
                  = (lead ++ pre)
                    ++ String QUOTE (key ++ String QUOTE (lead2 ++ render v ++ cont)))
    by (unfold cont, lead2; cbn [renderMembers]; str_eq).
  rewrite Etext in *. clear Etext.
  assert (Hcont : delimited cont = true).
  { unfold cont. rewrite append_assoc. apply delimited_after; [exact Hpost|].
    now destruct rest. }
  assert (Hlead2 : allBytes valSkip lead2 = true).
  { unfold lead2. rewrite !allBytes_app.
    now rewrite (isJsonSpace_valSkip mid Hmid), (isJsonSpace_valSkip pre' Hpre'). }
  pose proof (render_nonempty v Hv) as Hne.
  assert (Hlen : String.length (lead ++ pre) + String.length key + String.length lead2
                 + String.length (render v) + String.length cont + 2 < fuel).
  { clearbody cont lead2. len_lia. }
  clear Hfuel.
  remember (fuel - String.length (lead ++ pre) - String.length lead2 - 2) as f4 eqn:Ef4.
  replace fuel with (String.length (lead ++ pre) + S (String.length lead2 + S f4)) by lia.
  rewrite objKey_skip
    by (rewrite allBytes_app, Hlead; now apply isJsonSpace_keySkip).
  rewrite objKey_key by exact Hkey. fold pm.
  rewrite objVal_skip by exact Hlead2.
  assert (Hnext : agrees (gjson.objKey f4 path cont) (findMembers path rest) rest0).
  { unfold cont. apply IHrest; [exact Hrest| |fold cont; lia].
    rewrite allBytes_app, (isJsonSpace_keySkip post Hpost). now destruct rest. }
  clearbody cont lead2.
  rewrite findMembers_cons. cbv zeta. fold pm.
  destruct (hitOf path pm) eqn:Ehit.
  - assert (E : gjson.objVal (S f4) path pm (render v ++ cont) = (Some (resultOf v), cont)).
    { destruct (isContainer v) eqn:Ec.
      - destruct v; try discriminate.
        + rewrite objVal_squash_array by (auto; rewrite Ehit; apply andb_false_r).
          now rewrite Ehit.
        + rewrite objVal_squash_object by (auto; rewrite Ehit; apply andb_false_r).
          now rewrite Ehit.
      - rewrite objVal_scalar by auto. now rewrite Ehit. }
    rewrite E. split; [reflexivity | discriminate].
  - destruct pm eqn:Epm.
    + destruct v; try (rewrite objVal_scalar, Ehit by auto; exact Hnext).
      * rewrite objVal_descend_array by (now rewrite Ehit).
        rewrite render_array in Hlen, Hne.
        assert (I : agrees (gjson.arrVal f4 (subOf path) 0
                              (arrBody inner elems ++ String "]" cont))
                      (findElems (subOf path) 0 elems) cont).
        { apply (IHv Hv). len_lia. }
        destruct I as [I1 I2].
        destruct (gjson.arrVal f4 (subOf path) 0 _) as [[r|] r']; cbn [fst snd] in *.
        -- rewrite <- I1. split; [reflexivity | discriminate].
        -- rewrite <- I1. rewrite (I2 (eq_sym I1)). exact Hnext.
      * rewrite objVal_descend_object by (now rewrite Ehit).
        rewrite render_object in Hlen, Hne.
        assert (I : agrees (gjson.objKey f4 (subOf path)
                              (objBody inner membs ++ String "}" cont))
                      (findMembers (subOf path) membs) cont).
        { apply (IHv Hv). len_lia. }
        destruct I as [I1 I2].
        destruct (gjson.objKey f4 (subOf path) _) as [[r|] r']; cbn [fst snd] in *.
        -- rewrite <- I1. split; [reflexivity | discriminate].
        -- rewrite <- I1. rewrite (I2 (eq_sym I1)). exact Hnext.
    + destruct (isContainer v) eqn:Ec.
      * destruct v; try discriminate.
        -- rewrite objVal_squash_array by auto. rewrite Ehit. exact Hnext.
        -- rewrite objVal_squash_object by auto. rewrite Ehit. exact Hnext.
      * rewrite objVal_scalar, Ehit by auto. exact Hnext.
Qed.

Lemma scans_all :
  (forall v, scansValue v) /\ (forall es, scansElems es) /\ (forall ms, scansMembers ms).
Proof.
  apply value_elements_members_ind.
  - intros _. exact I.
  - intros _. exact I.
  - intros _. exact I.
  - intros raw _. exact I.
  - intros body _. exact I.
  - intros inner es IH Hwf path h fuel rest Hfuel.
    cbn [wf] in Hwf. apply andb_true_iff in Hwf as [Hi He].
    destruct es.
    + apply (IH He path h fuel inner rest); [now apply isJsonSpace_elemSkip | exact Hfuel].
    + apply (IH He path h fuel "" rest); [reflexivity | exact Hfuel].
  - intros inner ms IH Hwf path fuel rest Hfuel.
    cbn [wf] in Hwf. apply andb_true_iff in Hwf as [Hi Hm].
    destruct ms.
    + apply (IH Hm path fuel inner rest); [now apply isJsonSpace_keySkip | exact Hfuel].
    + apply (IH Hm path fuel "" rest); [reflexivity | exact Hfuel].
  - intros _ path h fuel lead rest Hlead Hfuel. cbn [renderElems append] in *.
    rewrite length_append in Hfuel. cbn [String.length] in Hfuel.
    replace fuel with (String.length lead + S (fuel - String.length lead - 1)) by lia.
    rewrite arrVal_skip by exact Hlead. rewrite arrVal_close. now split.
  - intros pre v IHv post rest IHrest. now apply scans_elements_step.
  - intros _ path fuel lead rest Hlead Hfuel. cbn [renderMembers append] in *.
    rewrite length_append in Hfuel. cbn [String.length] in Hfuel.
    replace fuel with (String.length lead + S (fuel - String.length lead - 1)) by lia.
    rewrite objKey_skip by exact Hlead. rewrite objKey_close. now split.
  - intros pre key mid pre' v IHv post rest IHrest. now apply scans_members_step.
Qed.

(** ** A query on a well-formed line *)

Lemma Parse_container (pre s : string) (c : ascii) :
  isJsonSpace pre = true -> byteIs c 123 || byteIs c 91 = true ->
  gjson.Parse (pre ++ String c s) = gjson.mkResult gjson.JSON (String c s) "".
Proof.
  intros Hpre Hc. induction pre as [|p pre IH].
  - cbn [append gjson.Parse]. now rewrite Hc.
  - cbn [isJsonSpace allBytes] in Hpre. apply andb_true_iff in Hpre as [Hp Hpre].
    cbn [append gjson.Parse]. rewrite (jsonSpace_low p Hp).
    replace (byteIs p 123 || byteIs p 91) with false by (symmetry; byte_solve).
    now apply IH.
Qed.

(** On the text of a document, with white space before it and anything
    after it, the query gives what the search on the tree gives. *)
Theorem Get_finds (pre : string) (doc : value) (post path : string) :
  isJsonSpace pre = true -> wf doc = true -> isContainer doc = true ->
  gjson.Result_Get (gjson.ParseBytes (pre ++ render doc ++ post)) path
  = match find doc path with Some r => r | None => gjson.zero end.
Proof.
  intros Hpre Hwf Hc. unfold gjson.Result_Get, gjson.ParseBytes.
  destruct doc as [| | | | |inner es|inner ms]; try discriminate.
  - rewrite render_array. cbn [append].
    rewrite Parse_container by auto. cbn [gjson.Raw gjson.Get find].
    change (byteIs "[" 123) with false. change (byteIs "[" 91) with true. cbv iota.
    unfold gjson.valueOf, gjson.parseArray. rewrite append_assoc. cbn [append].
    destruct (proj1 scans_all (VArray inner es) Hwf path 0%N
                (S (String.length (arrBody inner es ++ String "]" post))) post) as [E _];
      [lia|].
    now rewrite E.
  - rewrite render_object. cbn [append].
    rewrite Parse_container by auto. cbn [gjson.Raw gjson.Get find].
    change (byteIs "{" 123) with true. cbv iota.
    unfold gjson.valueOf, gjson.parseObject. rewrite append_assoc. cbn [append].
    destruct (proj1 scans_all (VObject inner ms) Hwf path
                (S (String.length (objBody inner ms ++ String "}" post))) post) as [E _];
      [lia|].
    now rewrite E.
Qed.

(** ** The value at a path *)

Lemma splitPath_plain (part rest : string) :
  plainPart part = true ->
  gjson.splitPath (part ++ rest)
  = match gjson.splitPath rest with
    | (p, more) => (part ++ p, more)
    end.
Proof.
  intros [_ H]%andb_true_iff. induction part as [|c part IH].
  - simpl. now destruct (gjson.splitPath rest).
  - cbn [allBytes] in H. apply andb_true_iff in H as [Hc Hp].
    cbn [append gjson.splitPath].
    replace (byteIs c 46) with false by (symmetry; unfold plainByte in Hc; byte_solve).
    rewrite (IH Hp). now destruct (gjson.splitPath rest).
Qed.

Lemma splitPath_join (part : string) (rest : list string) :
  plainPart part = true ->
  gjson.splitPath (joinPath (part :: rest))
  = (part, match rest with [] => None | _ => Some (joinPath rest) end).
Proof.
  intro H. destruct rest as [|p ps].
  - cbn [joinPath]. rewrite <- (append_nil_r part) at 1.
    rewrite (splitPath_plain part "" H). simpl. now rewrite append_nil_r.
  - cbn [joinPath]. rewrite (splitPath_plain part _ H). cbn [append gjson.splitPath].
    change (byteIs "." 46) with true. cbv iota. now rewrite append_nil_r.
Qed.

(** The search finds the member the path names, and what the rest of the
    path leads to inside it. *)
Lemma findMembers_named (path part : string) (v : value) (ms : members) :
  fst (gjson.splitPath path) = part ->
  memberNamed part ms = Some v ->
  (pathMore path = None -> findMembers path ms = Some (resultOf v))
  /\ (forall sub r, pathMore path = Some sub -> find v sub = Some r ->
        findMembers path ms = Some r).
Proof.
  intros Hpart. induction ms as [|pre key mid pre' v0 post rest IH]; [discriminate|].
  cbn [memberNamed]. rewrite findMembers_cons. cbv zeta. rewrite Hpart.
  unfold hitOf, subOf.
  destruct (String.eqb part (keyText key)) eqn:E.
  - intros [= ->]. split.
    + intros ->. reflexivity.
    + intros sub r Hsub Hr. rewrite Hsub. cbn [gjson.isSome negb andb].
      destruct v; try discriminate; cbn [find] in Hr; now rewrite Hr.
  - intro Hm. cbn [andb]. exact (IH Hm).
Qed.

Lemma findElems_at (path : string) (n : N) (v : value) (es : elements) :
  gjson.parseUint (fst (gjson.splitPath path)) = Some n ->
  forall h, elementAt n h es = Some v ->
  (pathMore path = None -> findElems path h es = Some (resultOf v))
  /\ (forall sub r, pathMore path = Some sub -> find v sub = Some r ->
        findElems path h es = Some r).
Proof.
  intros Hn. induction es as [|pre v0 post rest IH]; intros h; [discriminate|].
  cbn [elementAt]. rewrite findElems_cons.
  unfold hitAt, pmAt, subOf, gjson.indexMatches. rewrite Hn.
  destruct (N.eqb n h) eqn:E.
  - intros [= ->]. split.
    + intros ->. reflexivity.
    + intros sub r Hsub Hr. rewrite Hsub. cbn [gjson.isSome negb andb].
      destruct v; try discriminate; cbn [find] in Hr; now rewrite Hr.
  - intro Hm. cbn [andb]. exact (IH _ Hm).
Qed.

(** The search on the tree reaches the value at the path. *)
Lemma find_valueAt (parts : list string) :
  Forall (fun part => plainPart part = true) parts ->
  forall (doc : value) (part : string) (v : value),
    plainPart part = true ->
    valueAt doc (part :: parts) = Some v ->
    find doc (joinPath (part :: parts)) = Some (resultOf v).
Proof.
  induction 1 as [|p ps Hp Hps IH]; intros doc part v Hpart Hv.
  - cbn [valueAt] in Hv. destruct (child doc part) as [v'|] eqn:Ec; [|discriminate].
    injection Hv as ->.
    pose proof (splitPath_join part [] Hpart) as Es.
    destruct doc; try discriminate; cbn [child find] in *.
    + destruct (gjson.parseUint part) as [n|] eqn:En; [|discriminate].
      apply (findElems_at (joinPath [part]) n v elems); [now rewrite Es | exact Ec |].
      unfold pathMore. now rewrite Es.
    + apply (findMembers_named (joinPath [part]) part v membs); [now rewrite Es | exact Ec |].
      unfold pathMore. now rewrite Es.
  - cbn [valueAt] in Hv. destruct (child doc part) as [v'|] eqn:Ec; [|discriminate].
    pose proof (IH v' p v Hp Hv) as Hin.
    pose proof (splitPath_join part (p :: ps) Hpart) as Es.
    destruct doc; try discriminate; cbn [child find] in *.
    + destruct (gjson.parseUint part) as [n|] eqn:En; [|discriminate].
      apply (findElems_at (joinPath (part :: p :: ps)) n v' elems) with (sub := joinPath (p :: ps));
        [now rewrite Es | exact Ec | | exact Hin].
      unfold pathMore. now rewrite Es.
    + apply (findMembers_named (joinPath (part :: p :: ps)) part v' membs)
        with (sub := joinPath (p :: ps));
        [now rewrite Es | exact Ec | | exact Hin].
      unfold pathMore. now rewrite Es.
Qed.

Lemma occurs_refl (s : string) : occurs s s.
Proof. exists "", "". simpl. now rewrite append_nil_r. Qed.

Lemma occurs_trans (s t u : string) : occurs s t -> occurs t u -> occurs s u.
Proof.
  intros (a & b & ->) (c & d & ->). exists (c ++ a), (b ++ d). now rewrite !append_assoc.
Qed.

Lemma occurs_app (s a t b : string) : occurs s t -> occurs s (a ++ t ++ b).
Proof. intro H. apply (occurs_trans s t); [exact H | now exists a, b]. Qed.

Lemma occurs_memberNamed (name : string) (v : value) (ms : members) :
  memberNamed name ms = Some v -> occurs (render v) (renderMembers ms).
Proof.
  induction ms as [|pre key mid pre' v0 post rest IH]; [discriminate|].
  cbn [memberNamed renderMembers]. destruct (String.eqb name (keyText key)).
  - intros [= ->].
    exists (pre ++ String QUOTE key ++ str1 QUOTE ++ mid ++ ":" ++ pre'),
      (post ++ memberSep rest ++ renderMembers rest).
    str_eq.
  - intro H. destruct (IH H) as (a & b & E).
    exists (pre ++ String QUOTE key ++ str1 QUOTE ++ mid ++ ":" ++ pre'
            ++ render v0 ++ post ++ memberSep rest ++ a), b.
    rewrite E. str_eq.
Qed.

Lemma occurs_elementAt (n : N) (v : value) (es : elements) :
  forall h, elementAt n h es = Some v -> occurs (render v) (renderElems es).
Proof.
  induction es as [|pre v0 post rest IH]; intro h; [discriminate|].
  cbn [elementAt renderElems]. destruct (N.eqb n h).
  - intros [= ->]. exists pre, (post ++ elemSep rest ++ renderElems rest). str_eq.
  - intro H. destruct (IH _ H) as (a & b & E).
    exists (pre ++ render v0 ++ post ++ elemSep rest ++ a), b.
    rewrite E. str_eq.
Qed.

Lemma occurs_child (doc : value) (part : string) (v : value) :
  child doc part = Some v -> occurs (render v) (render doc).
Proof.
  destruct doc; try discriminate; cbn [child].
  - destruct (gjson.parseUint part) as [n|]; [|discriminate]. intro H.
    rewrite render_array.
    replace (arrBody inner elems) with (renderElems elems)
      by (destruct elems; [discriminate H | reflexivity]).
    change (occurs (render v) ("[" ++ renderElems elems ++ "]")).
    apply occurs_app. exact (occurs_elementAt n v elems 0%N H).
  - intro H. rewrite render_object.
    replace (objBody inner membs) with (renderMembers membs)
      by (destruct membs; [discriminate H | reflexivity]).
    change (occurs (render v) ("{" ++ renderMembers membs ++ "}")).
    apply occurs_app. exact (occurs_memberNamed part v membs H).
Qed.

Lemma occurs_valueAt (parts : list string) :
  forall doc v, valueAt doc parts = Some v -> occurs (render v) (render doc).
Proof.
  induction parts as [|p ps IH]; intros doc v; cbn [valueAt].
  - intros [= ->]. apply occurs_refl.
  - destruct (child doc p) as [v'|] eqn:Ec; [|discriminate]. intro H.
    apply (occurs_trans _ (render v')); [now apply IH | now apply (occurs_child doc p)].
Qed.

(** C7: on every well-formed line (a JSON object or array, white space
    before it, anything after it) and for every path of plain parts that
    leads to an object or an array, the lookup gives a result of type
    [JSON], and the value [print] takes for the field is its [Raw]: the
    text of that container exactly as it stands in the line. *)
Theorem container_field_is_raw_text (pre : string) (doc : value) (post : string)
    (part : string) (parts : list string) (v : value) :
  isJsonSpace pre = true -> wf doc = true -> isContainer doc = true ->
  plainPart part = true -> Forall (fun p => plainPart p = true) parts ->
  valueAt doc (part :: parts) = Some v -> isContainer v = true ->
  gjson.Result_Get (gjson.ParseBytes (pre ++ render doc ++ post))
    (joinPath (part :: parts))
  = gjson.mkResult gjson.JSON (render v) ""
  /\ fieldValue (gjson.Result_Get (gjson.ParseBytes (pre ++ render doc ++ post))
                   (joinPath (part :: parts)))
     = render v
  /\ occurs (render v) (pre ++ render doc ++ post).
Proof.
  intros Hpre Hwf Hdoc Hpart Hparts Hv Hc.
  assert (E : gjson.Result_Get (gjson.ParseBytes (pre ++ render doc ++ post))
                (joinPath (part :: parts))
              = gjson.mkResult gjson.JSON (render v) "").
  { rewrite Get_finds by assumption.
    rewrite (find_valueAt parts Hparts doc part v Hpart Hv).
    now destruct v. }
  split; [exact E|]. split.
  - now rewrite E.
  - apply occurs_app. now apply (occurs_valueAt (part :: parts)).
Qed.

(** ** Lines that hold no container *)

Lemma Get_noOpen (s path : string) :
  allBytes noOpen s = true -> gjson.Get s path = gjson.zero.
Proof.
  induction s as [|c s IH]; [reflexivity|].
  cbn [allBytes gjson.Get]. intros [Hc Hs]%andb_true_iff.
  unfold noOpen in Hc. apply negb_true_iff, orb_false_iff in Hc as [-> ->].
  now apply IH.
Qed.

Lemma literalTail_allBytes (p : ascii -> bool) (s : string) :
  allBytes p s = true -> allBytes p (fst (gjson.literalTail s)) = true.
Proof.
  induction s as [|c s IH]; [reflexivity|].
  cbn [allBytes gjson.literalTail]. intros [Hc Hs]%andb_true_iff.
  destruct (N.ltb (code c) 97 || N.ltb 122 (code c)); [reflexivity|].
  specialize (IH Hs). destruct (gjson.literalTail s). simpl in *. now rewrite Hc.
Qed.

Lemma tonumTail_allBytes (p : ascii -> bool) (s : string) :
  allBytes p s = true -> allBytes p (gjson.tonumTail s) = true.
Proof.
  induction s as [|c s IH]; [reflexivity|].
  cbn [allBytes gjson.tonumTail]. intros [Hc Hs]%andb_true_iff.
  repeat match goal with |- context [if ?b then _ else _] => destruct b end;
    simpl; rewrite ?Hc; auto.
Qed.

Lemma scanString_allBytes (p : ascii -> bool) (s : string) :
  allBytes p s = true ->
  forall odd esc k rest e,
    gjson.scanString odd esc s = Some (k, rest, e) -> allBytes p k = true.
Proof.
  induction s as [|c s IH]; [discriminate|].
  cbn [allBytes gjson.scanString]. intros [Hc Hs]%andb_true_iff odd esc k rest e.
  destruct (byteIs c 34 && negb odd); [now intros [= <- _ _]|].
  destruct (byteIs c 92).
  - destruct (gjson.scanString (negb odd) true s) as [[[k' r'] e']|] eqn:E; [|discriminate].
    intros [= <- _ _]. simpl. rewrite Hc. exact (IH Hs _ _ _ _ _ E).
  - destruct (gjson.scanString false esc s) as [[[k' r'] e']|] eqn:E; [|discriminate].
    intros [= <- _ _]. simpl. rewrite Hc. exact (IH Hs _ _ _ _ _ E).
Qed.

Lemma Parse_noOpen (line : string) :
  allBytes noOpen line = true -> allBytes noOpen (gjson.Raw (gjson.Parse line)) = true.
Proof.
  induction line as [|c s IH]; [reflexivity|].
  cbn [allBytes gjson.Parse]. intros [Hc Hs]%andb_true_iff.
  pose proof Hc as Hc'. unfold noOpen in Hc'. apply negb_true_iff in Hc'. rewrite Hc'.
  destruct (N.leb (code c) 32); [now apply IH|].
  assert (Hlit : allBytes noOpen (gjson.tolit c s) = true).
  { unfold gjson.tolit, gjson.parseLiteral.
    pose proof (literalTail_allBytes noOpen s Hs) as H.
    destruct (gjson.literalTail s). simpl in *. now rewrite Hc. }
  destruct (byteIs c 110); [exact Hlit|].
  destruct (byteIs c 116); [exact Hlit|].
  destruct (byteIs c 102); [exact Hlit|].
  destruct (byteIs c 34).
  - unfold gjson.tostr.
    destruct (gjson.scanString false false s) as [[[k r] e]|] eqn:E.
    + pose proof (scanString_allBytes noOpen s Hs _ _ _ _ _ E) as Hk.
      destruct e; cbn [gjson.Raw]; cbn [allBytes append];
        rewrite allBytes_app, Hk; [now destruct (isEmpty r) | reflexivity].
    + cbn [gjson.Raw allBytes]. now rewrite Hs.
  - destruct (gjson.isNumberStart c); [|reflexivity].
    cbn [gjson.Raw gjson.tonum allBytes]. now rewrite Hc, tonumTail_allBytes.
Qed.

(** C3, as the code has it: the line is never checked to be JSON, and no
    line makes [print] fail. On a line that holds no [{] and no [[] (plain
    text, for one) every lookup by a plain path gives [Result{}], every
    field is left out and nothing is written. A damaged object or array is
    read as far as the lookup needs, so it can still give values. *)
Theorem line_without_container_no_output (NoColor : bool) (line : string)
    (outFields : list string) (outColors : list color.Color) (out : list string) :
  allBytes noOpen line = true ->
  Forall (fun field => plainPath field = true) outFields ->
  Forall (fun field => gjson.Result_Get (gjson.ParseBytes line) field = gjson.zero)
    outFields
  /\ print NoColor line outFields outColors "" out = ("", out).
Proof.
  intros H _.
  assert (Hz : forall field, gjson.Result_Get (gjson.ParseBytes line) field = gjson.zero).
  { intro field. unfold gjson.Result_Get, gjson.ParseBytes.
    apply Get_noOpen. now apply Parse_noOpen. }
  split; [apply Forall_forall; intros field _; apply Hz|].
  unfold print. rewrite (writeFields_all_blank NoColor); [reflexivity|].
  apply Forall_forall. intros field _. right. now rewrite Hz.
Qed.

(** C3 on a line of plain text. *)
Lemma line_without_container_no_output_witness :
  print false "panic: runtime error: index out of range" ["time"; "msg"] [] "" []
  = ("", []).
Proof.
  apply (line_without_container_no_output false
           "panic: runtime error: index out of range" ["time"; "msg"] [] []).
  - reflexivity.
  - repeat constructor.
Defined.

(** C7 on a nested line with white space between its tokens. *)
Lemma container_field_is_raw_text_witness :
  fieldValue (gjson.Result_Get
                (gjson.ParseBytes (q " {'a': {'b': [1, {'c':'x'}]}, 'd': true}"))
                "a.b")
  = q "[1, {'c':'x'}]".
Proof.
  apply (container_field_is_raw_text " "
           (VObject ""
              (MCons "" "a" "" " "
                 (VObject ""
                    (MCons "" "b" "" " "
                       (VArray ""
                          (ECons "" (VNumber "1") ""
                             (ECons " "
                                (VObject "" (MCons "" "c" "" "" (VString "x") "" MNil))
                                "" ENil)))
                       "" MNil))
                 ""
                 (MCons " " "d" "" " " VTrue "" MNil)))
           "" "a" ["b"]
           (VArray ""
              (ECons "" (VNumber "1") ""
                 (ECons " "
                    (VObject "" (MCons "" "c" "" "" (VString "x") "" MNil))
                    "" ENil))));
    try reflexivity.
  repeat constructor.
Defined.

(** ** What the pumps write *)

Section PumpFacts.

Variable NoColor : bool.

Lemma print_out_app (line : string) (outFields : list string)
    (outColors : list color.Color) (buff : string) (out : list string) :
  snd (print NoColor line outFields outColors buff out)
  = (out ++ snd (print NoColor line outFields outColors buff []))%list.
Proof.
  unfold print. destruct (Nat.eqb _ 0); simpl; [now rewrite app_nil_r | reflexivity].
Qed.

Lemma lineOutput_complete (outFields : list string) (outColors : list color.Color)
    (line : string) :
  lineOutput NoColor outFields outColors line = []
  \/ exists payload, lineOutput NoColor outFields outColors line = [payload]
                     /\ completeLine payload.
Proof.
  unfold lineOutput, print. destruct (Nat.eqb _ 0) eqn:E; simpl; [now left | right].
  eexists. split; [reflexivity|]. eexists. split; [|reflexivity].
  intro H. rewrite H in E. discriminate.
Qed.

Lemma emitLines_cons (outFields : list string) (outColors : list color.Color)
    (line : string) (lines : list string) (out : list string) :
  emitLines NoColor outFields outColors (line :: lines) out
  = emitLines NoColor outFields outColors lines
      (out ++ lineOutput NoColor outFields outColors line)%list.
Proof.
  unfold emitLines, lineOutput. cbn [fold_left]. now rewrite print_out_app.
Qed.

Lemma emitLines_flat (outFields : list string) (outColors : list color.Color)
    (lines : list string) (out : list string) :
  emitLines NoColor outFields outColors lines out
  = (out ++ flat_map (lineOutput NoColor outFields outColors) lines)%list.
Proof.
  revert out. induction lines as [|l ls IH]; intro out.
  - simpl. now rewrite app_nil_r.
  - rewrite emitLines_cons, IH. cbn [flat_map]. now rewrite app_assoc.
Qed.

Lemma flat_lineOutput_complete (outFields : list string) (outColors : list color.Color)
    (lines : list string) :
  Forall completeLine (flat_map (lineOutput NoColor outFields outColors) lines)
  /\ length (flat_map (lineOutput NoColor outFields outColors) lines) <= length lines.
Proof.
  induction lines as [|l ls [IH1 IH2]]; cbn [flat_map length]; [split; [constructor | lia]|].
  destruct (lineOutput_complete outFields outColors l) as [E|[p [E Hp]]]; rewrite E.
  - split; [exact IH1 | simpl; lia].
  - split; [constructor; assumption | simpl; lia].
Qed.

Lemma scanLoop_prefix (done : nat -> bool) (err : bool)
    (outFields : list string) (outColors : list color.Color) :
  forall (lines : list string) (n : nat) (buff : string) (out : list string)
         (log : list LogEntry),
  exists k, k <= length lines
    /\ (forall j, j < k -> done (n + j) = false)
    /\ scanLoop NoColor done n lines err outFields outColors buff out log
       = (emitLines NoColor outFields outColors (firstn k lines) out,
          (log ++ [if done (n + k) then LogCancelReceived
                   else if err then LogScannerError else LogAllProcessed])%list)
    /\ (done (n + k) = false -> k = length lines).
Proof.
  induction lines as [|l ls IH]; intros n buff out log.
  - exists 0. rewrite Nat.add_0_r. cbn [scanLoop firstn length].
    split; [lia|]. split; [intros j Hj; lia|]. split; [now destruct (done n) | reflexivity].
  - cbn [scanLoop]. destruct (done n) eqn:Ed.
    + exists 0. rewrite Nat.add_0_r, Ed.
      split; [lia|]. split; [intros j Hj; lia|]. split; [reflexivity | discriminate].
    + destruct (print NoColor l outFields outColors "" out) as [buff' out'] eqn:E.
      destruct (IH (S n) buff' out' log) as [k [Hk [Hb [Hrun Hend]]]].
      exists (S k). rewrite <- Nat.add_succ_comm.
      split; [simpl; lia|]. split; [|split].
      * intros [|j] Hj; [now rewrite Nat.add_0_r|].
        rewrite <- Nat.add_succ_comm. apply Hb. lia.
      * rewrite Hrun. unfold emitLines. cbn [firstn fold_left]. now rewrite E.
      * intro H. simpl. f_equal. now apply Hend.
Qed.

(** X1: a pump whose context is not cancelled while it runs reads its
    file to the end: to what was written before it adds, for every line of
    the file in order, what [print] writes for that line alone on a buffer
    that was reset; then it logs the end of the file, or the error of the
    scanner, and after that a failed [Close]. *)
Theorem pipeFile_reads_to_end (done : nat -> bool) (f : File)
    (outputFields : list string) (outColors : list color.Color) (out : list string) :
  (forall n, n <= length (tokens f) -> done n = false) ->
  pipeFile NoColor done (Some f) outputFields outColors out
  = ((out ++ flat_map (lineOutput NoColor outputFields outColors) (tokens f))%list,
     (if scanErr f then LogScannerError else LogAllProcessed)
     :: (if closeErr f then [LogCloseFailed] else [])).
Proof.
  intro Hd. unfold pipeFile.
  destruct (scanLoop_prefix done (scanErr f) outputFields outColors (tokens f) 0 "" out [])
    as [k [Hk [_ [Hrun Hend]]]].
  rewrite Hrun. cbn [Nat.add] in *. rewrite (Hd k Hk) in *.
  rewrite (Hend eq_refl), firstn_all, emitLines_flat. cbn [app].
  now destruct (closeErr f).
Qed.

(** X2: whatever the context does and whether or not the file opens, a
    pump leaves what was written before as it is and adds the payloads of
    the first [k] lines of the file, for some [k]: no line is skipped or
    taken out of order. Every payload is a whole line, and a line of the
    file gives at most one. *)
Theorem pipeFile_writes_whole_lines (done : nat -> bool) (file : option File)
    (outputFields : list string) (outColors : list color.Color) (out : list string) :
  exists k written,
    k <= length (linesOf file)
    /\ written = flat_map (lineOutput NoColor outputFields outColors) (firstn k (linesOf file))
    /\ fst (pipeFile NoColor done file outputFields outColors out) = (out ++ written)%list
    /\ Forall completeLine written
    /\ length written <= k
    /\ (forall line, length (lineOutput NoColor outputFields outColors line) <= 1).
Proof.
  assert (Hone : forall line, length (lineOutput NoColor outputFields outColors line) <= 1).
  { intro line. destruct (lineOutput_complete outputFields outColors line) as [E|[p [E _]]];
      rewrite E; simpl; lia. }
  destruct file as [f|]; cbn [linesOf].
  - destruct (scanLoop_prefix done (scanErr f) outputFields outColors (tokens f) 0 "" out [])
      as [k [Hk [_ [Hrun _]]]].
    exists k, (flat_map (lineOutput NoColor outputFields outColors) (firstn k (tokens f))).
    split; [exact Hk|]. split; [reflexivity|]. split.
    + unfold pipeFile. rewrite Hrun. cbn [fst]. apply emitLines_flat.
    + destruct (flat_lineOutput_complete outputFields outColors (firstn k (tokens f))) as [H1 H2].
      split; [exact H1|]. split; [|exact Hone]. rewrite length_firstn in H2. lia.
  - exists 0, []. cbn [firstn flat_map length]. rewrite app_nil_r.
    repeat split; auto.
Qed.

Lemma segment_no_color (jl : gjson.Result) (cs : list color.Color) (idx : nat) (f : string) :
  NoColor = true -> segment NoColor jl cs idx f = segment NoColor jl [] 0 f.
Proof.
  intros ->. unfold segment. destruct (String.eqb _ ""); [reflexivity|].
  now destruct (nth_error cs idx).
Qed.

Lemma writeFields_no_color (jl : gjson.Result) (cs : list color.Color) (fs : list string) :
  NoColor = true ->
  forall idx buff, writeFields NoColor jl cs idx fs buff = writeFields NoColor jl [] idx fs buff.
Proof.
  intro H. induction fs as [|f fs IH]; intros idx buff; [reflexivity|].
  cbn [writeFields]. rewrite IH, (segment_no_color jl cs idx f H).
  now rewrite (segment_no_color jl [] idx f H).
Qed.

End PumpFacts.

(** X3: when the colour package has colours switched off (its
    [NoColor] is set when the standard output is no terminal), the colour
    list makes no difference to [print]: the payload is the non-blank
    values, each with its tab, and the newline, with no escape sequence. *)
Theorem print_without_color (line : string) (outFields : list string)
    (outColors : list color.Color) (buff : string) (out : list string) :
  print true line outFields outColors buff out = print true line outFields [] buff out
  /\ print true line outFields outColors "" out
     = (let body := tabbed (filter notBlank (fieldValues line outFields)) in
        if Nat.eqb (String.length body) 0 then ("", out)
        else (body ++ str1 LF, (out ++ [(body ++ str1 LF)%string])%list)).
Proof.
  assert (E : forall buff, print true line outFields outColors buff out
                           = print true line outFields [] buff out).
  { intro b. unfold print. now rewrite (writeFields_no_color true _ outColors outFields eq_refl). }
  split; [apply E|].
  rewrite E. unfold print. cbv zeta. rewrite writeFields_plain.
  destruct (Nat.eqb _ 0) eqn:E0; [|reflexivity].
  apply length_zero in E0. now rewrite E0.
Qed.

(** ** The fields of a well-formed line *)

Lemma unescape_escapeByte (c : ascii) (r : string) :
  gjson.unescape (escapeByte c ++ r) = String c (gjson.unescape r).
Proof.
  destruct c as [[] [] [] [] [] [] [] []]; reflexivity.
Qed.

Lemma unescape_escape (s : string) : gjson.unescape (escape s) = s.
Proof.
  induction s as [|c s IH]; [reflexivity|].
  cbn [escape]. now rewrite unescape_escapeByte, IH.
Qed.

Lemma okBody_escapeByte (c : ascii) (r : string) :
  okBody (escapeByte c ++ r) = okBody r.
Proof.
  destruct c as [[] [] [] [] [] [] [] []]; reflexivity.
Qed.

Lemma okBody_escape (s : string) : okBody (escape s) = true.
Proof.
  induction s as [|c s IH]; [reflexivity|].
  cbn [escape]. now rewrite okBody_escapeByte.
Qed.

Lemma hasEscape_escapeByte (c : ascii) (r : string) :
  hasEscape (escapeByte c ++ r) = false -> escapeByte c = str1 c /\ hasEscape r = false.
Proof.
  destruct c as [[] [] [] [] [] [] [] []]; cbn; intro H; try discriminate; now split.
Qed.

Lemma decoded_escape (s : string) : decoded (escape s) = s.
Proof.
  unfold decoded. destruct (hasEscape (escape s)) eqn:E; [apply unescape_escape|].
  induction s as [|c s IH]; [reflexivity|].
  cbn [escape] in *. apply hasEscape_escapeByte in E as [E1 E2].
  rewrite E1. cbn [append str1]. now rewrite IH.
Qed.

Section LineFacts.

Variable NoColor : bool.

Lemma writeFields_ext (jl1 jl2 : gjson.Result) (cs : list color.Color) (fs : list string) :
  (forall f, In f fs -> gjson.Result_Get jl1 f = gjson.Result_Get jl2 f) ->
  forall idx buff,
    writeFields NoColor jl1 cs idx fs buff = writeFields NoColor jl2 cs idx fs buff.
Proof.
  induction fs as [|f fs IH]; intros H idx buff; [reflexivity|].
  cbn [writeFields]. unfold segment. rewrite (H f) by now left.
  apply IH. intros g Hg. apply H. now right.
Qed.

Lemma Get_found (pre : string) (doc : value) (post path : string) :
  isJsonSpace pre = true -> wf doc = true -> isContainer doc = true ->
  gjson.Result_Get (gjson.ParseBytes (pre ++ render doc ++ post)) path = found doc path.
Proof. intros. unfold found. now apply Get_finds. Qed.

(** X4: on a well-formed line [print] reads the document and nothing
    else: for fields that are plain paths, white space before the document
    and whatever bytes follow its closing bracket change nothing in what
    is written. *)
Theorem print_reads_the_document_only (pre : string) (doc : value) (post : string)
    (outFields : list string) (outColors : list color.Color)
    (buff : string) (out : list string) :
  isJsonSpace pre = true -> wf doc = true -> isContainer doc = true ->
  Forall (fun field => plainPath field = true) outFields ->
  print NoColor (pre ++ render doc ++ post) outFields outColors buff out
  = print NoColor (render doc) outFields outColors buff out.
Proof.
  intros Hpre Hwf Hc _. unfold print.
  rewrite (writeFields_ext (gjson.ParseBytes (pre ++ render doc ++ post))
             (gjson.ParseBytes (render doc))); [reflexivity|].
  intros f _. rewrite Get_found by assumption.
  rewrite <- (append_nil_r (render doc)).
  change (render doc ++ "") with ("" ++ render doc ++ "").
  now rewrite Get_found.
Qed.

Lemma found_valueAt (doc : value) (part : string) (parts : list string) (v : value) :
  plainPart part = true -> Forall (fun p => plainPart p = true) parts ->
  valueAt doc (part :: parts) = Some v ->
  found doc (joinPath (part :: parts)) = resultOf v.
Proof.
  intros Hp Hps Hv. unfold found. now rewrite (find_valueAt parts Hps doc part v Hp Hv).
Qed.

Lemma segment_of_value (jl : gjson.Result) (cs : list color.Color) (idx : nat)
    (f val : string) :
  fieldValue (gjson.Result_Get jl f) = val ->
  segment NoColor jl cs idx f
  = if String.eqb (strings.TrimSpace val) "" then ""
    else match nth_error cs idx with
         | Some c => color.wrap NoColor c (val ++ str1 TAB)
         | None => val ++ str1 TAB
         end.
Proof. intros <-. reflexivity. Qed.

(** X5: on a well-formed line, a path of plain parts that leads to a
    string gives the text of the string: its body without the quotes, with
    the escapes decoded when it has any. When that text is not blank the
    segment written is the text and a tab, wrapped by the colour of the
    field's index when there is one. *)
Theorem string_field_is_decoded (pre : string) (doc : value) (post : string)
    (part : string) (parts : list string) (body : string)
    (outColors : list color.Color) (idx : nat) :
  isJsonSpace pre = true -> wf doc = true -> isContainer doc = true ->
  plainPart part = true -> Forall (fun p => plainPart p = true) parts ->
  valueAt doc (part :: parts) = Some (VString body) ->
  fieldValue (gjson.Result_Get (gjson.ParseBytes (pre ++ render doc ++ post))
                (joinPath (part :: parts)))
  = decoded body
  /\ (hasEscape body = false -> decoded body = body)
  /\ (strings.TrimSpace (decoded body) <> "" ->
      segment NoColor (gjson.ParseBytes (pre ++ render doc ++ post)) outColors idx
        (joinPath (part :: parts))
      = match nth_error outColors idx with
        | Some c => color.wrap NoColor c (decoded body ++ str1 TAB)
        | None => decoded body ++ str1 TAB
        end).
Proof.
  intros Hpre Hwf Hc Hp Hps Hv.
  assert (E : fieldValue (gjson.Result_Get (gjson.ParseBytes (pre ++ render doc ++ post))
                            (joinPath (part :: parts))) = decoded body).
  { rewrite Get_found by assumption. now rewrite (found_valueAt doc part parts _ Hp Hps Hv). }
  split; [exact E|]. split.
  - unfold decoded. now intros ->.
  - intro Hne. rewrite (segment_of_value _ _ _ _ _ E).
    apply String.eqb_neq in Hne. now rewrite Hne.
Qed.

(** X6: what a writer of JSON has escaped, [print] reads back: on a
    well-formed line, the value taken for a string field that holds the
    escaped form of a text is that text, byte for byte. *)
Theorem escaped_text_is_printed_back (pre : string) (doc : value) (post : string)
    (part : string) (parts : list string) (text : string) :
  isJsonSpace pre = true -> wf doc = true -> isContainer doc = true ->
  plainPart part = true -> Forall (fun p => plainPart p = true) parts ->
  valueAt doc (part :: parts) = Some (VString (escape text)) ->
  fieldValue (gjson.Result_Get (gjson.ParseBytes (pre ++ render doc ++ post))
                (joinPath (part :: parts)))
  = text.
Proof.
  intros Hpre Hwf Hc Hp Hps Hv.
  rewrite Get_found by assumption.
  rewrite (found_valueAt doc part parts _ Hp Hps Hv).
  apply decoded_escape.
Qed.

(** X7: on a well-formed line, a path of plain parts that leads to a
    number, [true], [false] or [null] finds the value (the result exists
    and its [Raw] is the text of the value), but the value [print] takes is
    the empty [Str] of the result, so the field gives no segment. *)
Theorem scalar_without_text_is_skipped (pre : string) (doc : value) (post : string)
    (part : string) (parts : list string) (v : value)
    (outColors : list color.Color) (idx : nat) :
  isJsonSpace pre = true -> wf doc = true -> isContainer doc = true ->
  plainPart part = true -> Forall (fun p => plainPart p = true) parts ->
  valueAt doc (part :: parts) = Some v -> isScalarNoText v = true ->
  gjson.Exists (gjson.Result_Get (gjson.ParseBytes (pre ++ render doc ++ post))
                  (joinPath (part :: parts))) = true
  /\ gjson.Raw (gjson.Result_Get (gjson.ParseBytes (pre ++ render doc ++ post))
                  (joinPath (part :: parts))) = render v
  /\ fieldValue (gjson.Result_Get (gjson.ParseBytes (pre ++ render doc ++ post))
                   (joinPath (part :: parts))) = ""
  /\ segment NoColor (gjson.ParseBytes (pre ++ render doc ++ post)) outColors idx
       (joinPath (part :: parts)) = "".
Proof.
  intros Hpre Hwf Hc Hp Hps Hv Hs.
  assert (E : gjson.Result_Get (gjson.ParseBytes (pre ++ render doc ++ post))
                (joinPath (part :: parts)) = resultOf v).
  { rewrite Get_found by assumption. now apply found_valueAt. }
  rewrite E. unfold segment. rewrite E.
  destruct v; try discriminate; cbn; repeat split; reflexivity.
Qed.

Lemma findMembers_unnamed (path : string) (ms : members) :
  memberNamed (fst (gjson.splitPath path)) ms = None -> findMembers path ms = None.
Proof.
  induction ms as [|pre key mid pre' v post rest IH]; [reflexivity|].
  cbn [memberNamed findMembers]. destruct (gjson.splitPath path) as [part more] eqn:Es.
  cbn [fst] in *. destruct (String.eqb part (keyText key)); [discriminate|].
  intro H. destruct more; now apply IH.
Qed.

Lemma findElems_unindexed (path : string) (es : elements) :
  forall h,
    match gjson.parseUint (fst (gjson.splitPath path)) with
    | Some n => elementAt n h es = None
    | None => True
    end ->
    findElems path h es = None.
Proof.
  induction es as [|pre v post rest IH]; intros h H; [reflexivity|].
  cbn [findElems]. destruct (gjson.splitPath path) as [part more] eqn:Es.
  cbn [fst] in *. unfold gjson.indexMatches.
  destruct (gjson.parseUint part) as [n|] eqn:En.
  - cbn [elementAt] in H. destruct (N.eqb n h); [discriminate|].
    destruct more; apply IH; exact H.
  - destruct more; apply IH; exact I.
Qed.

(** X8: on a well-formed line, a path whose first part names no member
    of the object (or no element of the array: an index past the end, or a
    part that is no number) finds nothing, whatever follows in the path,
    and the field gives no segment. *)
Theorem unknown_first_part_is_skipped (pre : string) (doc : value) (post : string)
    (part : string) (parts : list string)
    (outColors : list color.Color) (idx : nat) :
  isJsonSpace pre = true -> wf doc = true -> isContainer doc = true ->
  plainPart part = true ->
  child doc part = None ->
  gjson.Result_Get (gjson.ParseBytes (pre ++ render doc ++ post))
    (joinPath (part :: parts)) = gjson.zero
  /\ segment NoColor (gjson.ParseBytes (pre ++ render doc ++ post)) outColors idx
       (joinPath (part :: parts)) = "".
Proof.
  intros Hpre Hwf Hc Hp Hch.
  assert (E : gjson.Result_Get (gjson.ParseBytes (pre ++ render doc ++ post))
                (joinPath (part :: parts)) = gjson.zero).
  { rewrite Get_found by assumption. unfold found.
    pose proof (splitPath_join part parts Hp) as Es.
    destruct doc; try discriminate; cbn [find child] in *.
    - rewrite findElems_unindexed; [reflexivity|]. rewrite Es. cbn [fst].
      now destruct (gjson.parseUint part).
    - rewrite findMembers_unnamed; [reflexivity|]. now rewrite Es. }
  split; [exact E|]. unfold segment. now rewrite E.
Qed.

End LineFacts.

(** ** A line that starts with text, and the earlier revision *)

Lemma Get_Parse_container (line : string) :
  opensContainer line = true ->
  forall path, gjson.Result_Get (gjson.ParseBytes line) path = gjson.Get line path.
Proof.
  unfold gjson.Result_Get, gjson.ParseBytes, opensContainer.
  induction line as [|c r IH]; [discriminate|].
  cbn [firstByte gjson.Parse]. intros H path.
  destruct (byteIs c 123) eqn:E1.
  - reflexivity.
  - destruct (byteIs c 91) eqn:E2.
    + reflexivity.
    + cbn [orb]. destruct (N.leb (code c) 32) eqn:E3.
      * rewrite (IH H path). cbn [gjson.Get]. now rewrite E1, E2.
      * cbn [orb] in H. rewrite E1, E2 in H. discriminate.
Qed.

Lemma Parse_no_value (line : string) (c : ascii) :
  firstByte line = Some c -> opensValue c = false -> gjson.Parse line = gjson.zero.
Proof.
  unfold opensValue. induction line as [|b r IH]; [discriminate|].
  cbn [firstByte gjson.Parse]. destruct (N.leb (code b) 32) eqn:E3.
  - intros Hf Hc. specialize (IH Hf Hc).
    destruct (byteIs b 123 || byteIs b 91) eqn:E; [|exact IH].
    exfalso. unfold byteIs in E. apply N.leb_le in E3.
    apply orb_true_iff in E as [E|E]; apply N.eqb_eq in E; lia.
  - intros [= ->] Hc.
    rewrite !orb_false_iff in Hc. destruct Hc as [[[[H1 H2] H3] H4] H5].
    rewrite H1, H2, H3, H4. cbn [orb].
    unfold gjson.isLiteralStart in H5. rewrite !orb_false_iff in H5.
    destruct H5 as [[H5 H6] H7]. now rewrite H5, H6, H7.
Qed.

Lemma Get_skip (pre line path : string) :
  allBytes noOpen pre = true -> gjson.Get (pre ++ line) path = gjson.Get line path.
Proof.
  induction pre as [|c r IH]; [reflexivity|].
  cbn [allBytes append gjson.Get]. intro H. apply andb_true_iff in H as [Hc Hr].
  unfold noOpen in Hc. apply negb_true_iff, orb_false_iff in Hc as [H1 H2].
  rewrite H1, H2. now apply IH.
Qed.

Section EarlierFacts.

Variable NoColor : bool.

Lemma Earlier_writeFields (line : string) (outFields : list string) :
  (forall path, gjson.Result_Get (gjson.ParseBytes line) path = gjson.Get line path) ->
  forall idx buff,
    writeFields NoColor (gjson.ParseBytes line) [] idx outFields buff
    = Earlier.writeFields line outFields buff.
Proof.
  intro H. induction outFields as [|f fs IH]; intros idx buff; [reflexivity|].
  cbn [writeFields Earlier.writeFields]. rewrite IH. unfold segment, gjson.GetBytes.
  rewrite H. destruct (String.eqb _ ""); [now rewrite append_nil_r|].
  now destruct idx.
Qed.

(** X9: on a line that starts, after white space, with [{] or [[], and
    for fields that are plain paths, the earlier revision of [print] and
    the present one without colours leave the same buffer and make the
    same write. *)
Theorem earlier_print_agrees (line : string) (outFields : list string)
    (buff : string) (out : list string) :
  opensContainer line = true ->
  Forall (fun field => plainPath field = true) outFields ->
  Earlier.print line outFields buff out = print NoColor line outFields [] buff out.
Proof.
  intros H _. unfold Earlier.print, print.
  now rewrite (Earlier_writeFields line outFields (Get_Parse_container line H)).
Qed.

Lemma Earlier_writeFields_skip (pre line : string) (outFields : list string) :
  allBytes noOpen pre = true ->
  forall buff, Earlier.writeFields (pre ++ line) outFields buff
               = Earlier.writeFields line outFields buff.
Proof.
  intro H. induction outFields as [|f fs IH]; intro buff; [reflexivity|].
  cbn [Earlier.writeFields]. unfold gjson.GetBytes. rewrite Get_skip by exact H.
  apply IH.
Qed.

(** X10: a line that starts with text, such as a prefix before the JSON
    object. When the first byte above the space is none a JSON value can
    start with, [gjson.ParseBytes] gives [Result{}] and [print] writes
    nothing, whatever follows. The earlier revision, which queried the
    line itself, skipped a prefix without brackets and printed the fields
    of the document after it. *)
Theorem text_before_the_document (pre line : string) (c : ascii)
    (outFields : list string) (outColors : list color.Color) (out : list string) :
  firstByte pre = Some c -> opensValue c = false -> allBytes noOpen pre = true ->
  Forall (fun field => plainPath field = true) outFields ->
  print NoColor (pre ++ line) outFields outColors "" out = ("", out)
  /\ Earlier.print (pre ++ line) outFields "" out = Earlier.print line outFields "" out.
Proof.
  intros Hf Hc Hpre _. split.
  - assert (Hz : gjson.ParseBytes (pre ++ line) = gjson.zero).
    { unfold gjson.ParseBytes. apply (Parse_no_value _ c); [|exact Hc].
      clear Hpre Hc. induction pre as [|b r IH]; [discriminate|].
      cbn [firstByte append] in *. destruct (N.leb (code b) 32); [now apply IH | exact Hf]. }
    unfold print. rewrite Hz.
    rewrite (writeFields_all_blank NoColor); [reflexivity|].
    apply Forall_forall. intros f _. now right.
  - unfold Earlier.print. now rewrite Earlier_writeFields_skip.
Qed.

End EarlierFacts.

(** ** The lines of the input *)

Lemma reverse_app1 (s : string) (c : ascii) : reverse (s ++ str1 c) = String c (reverse s).
Proof. rewrite reverse_app. reflexivity. Qed.

Lemma reverse_reverse (s : string) : reverse (reverse s) = s.
Proof.
  induction s as [|c s IH]; [reflexivity|].
  rewrite reverse_cons, reverse_app1. now rewrite IH.
Qed.

Lemma dropLast_app1 (s : string) (c : ascii) : bufio.dropLast c (s ++ str1 c) = s.
Proof.
  unfold bufio.dropLast. rewrite reverse_app1, Ascii.eqb_refl. apply reverse_reverse.
Qed.

Lemma endsIn_app1 (s : string) (c d : ascii) : bufio.endsIn d (s ++ str1 c) = Ascii.eqb c d.
Proof. unfold bufio.endsIn. now rewrite reverse_app1. Qed.

Lemma dropLast_keep (c : ascii) (s : string) : bufio.endsIn c s = false -> bufio.dropLast c s = s.
Proof.
  unfold bufio.endsIn, bufio.dropLast. destruct (reverse s); [reflexivity|]. now intros ->.
Qed.

Section BufferFacts.

Variable size : N.

Lemma fill_line (l rest : string) :
  fits size l -> bufio.fill size (l ++ String LF rest) = (l ++ str1 LF, bufio.Delim, rest).
Proof.
  intros [Hl Hlen]. revert Hlen. generalize size as room. clear size.
  induction l as [|c l IH]; intros room Hlen; cbn [append bufio.fill].
  - destruct (N.eqb_spec room 0); [simpl in Hlen; lia|]. reflexivity.
  - cbn [allBytes] in Hl. apply andb_true_iff in Hl as [Hc Hl].
    destruct (N.eqb_spec room 0); [lia|].
    unfold noLF in Hc. apply negb_true_iff in Hc. rewrite Hc.
    rewrite (IH Hl (N.pred room)); [reflexivity|].
    cbn [String.length] in Hlen. lia.
Qed.

Lemma fill_last (l : string) :
  fits size l -> bufio.fill size l = (l, bufio.EndOfInput, "").
Proof.
  intros [Hl Hlen]. revert Hlen. generalize size as room. clear size.
  induction l as [|c l IH]; intros room Hlen; cbn [bufio.fill].
  - destruct (N.eqb_spec room 0); [simpl in Hlen; lia|]. reflexivity.
  - cbn [allBytes] in Hl. apply andb_true_iff in Hl as [Hc Hl].
    destruct (N.eqb_spec room 0); [lia|].
    unfold noLF in Hc. apply negb_true_iff in Hc. rewrite Hc.
    rewrite (IH Hl (N.pred room)); [reflexivity|].
    cbn [String.length] in Hlen. lia.
Qed.

Lemma fill_full (l rest : string) :
  allBytes noLF l = true -> N.of_nat (String.length l) = size ->
  bufio.fill size (l ++ rest) = (l, bufio.BufferFull, rest).
Proof.
  intros Hl Hlen. revert Hlen. generalize size as room. clear size.
  induction l as [|c l IH]; intros room Hlen; cbn [append].
  - simpl in Hlen. subst room. now destruct rest.
  - cbn [allBytes] in Hl. apply andb_true_iff in Hl as [Hc Hl].
    cbn [bufio.fill]. destruct (N.eqb_spec room 0); [cbn [String.length] in Hlen; lia|].
    unfold noLF in Hc. apply negb_true_iff in Hc. rewrite Hc.
    rewrite (IH Hl (N.pred room)); [reflexivity|].
    cbn [String.length] in Hlen. lia.
Qed.

Lemma isEmpty_app1 (l : string) (c : ascii) : isEmpty (l ++ str1 c) = false.
Proof. now destruct l. Qed.

Lemma ReadLine_line (l rest : string) :
  fits size l ->
  bufio.ReadLine size (l ++ String LF rest) = (bufio.dropLast CR l, false, None, rest).
Proof.
  intro H. unfold bufio.ReadLine. rewrite (fill_line l rest H).
  now rewrite isEmpty_app1, endsIn_app1, dropLast_app1.
Qed.

Lemma endsIn_noLF (l : string) : allBytes noLF l = true -> bufio.endsIn LF l = false.
Proof.
  intro H. unfold bufio.endsIn. pose proof (allBytes_reverse noLF l) as Hr.
  rewrite H in Hr. destruct (reverse l) as [|d r]; [reflexivity|].
  cbn [allBytes] in Hr. apply andb_true_iff in Hr as [Hd _].
  unfold noLF, byteIs, code in Hd. apply negb_true_iff in Hd.
  destruct (Ascii.eqb_spec d LF) as [->|]; [discriminate | reflexivity].
Qed.

Lemma ReadLine_last (l : string) :
  fits size l ->
  bufio.ReadLine size l
  = if isEmpty l then ("", false, Some io.EOF, "") else (l, false, None, "").
Proof.
  intro H. unfold bufio.ReadLine. rewrite (fill_last l H).
  destruct (isEmpty l); [reflexivity|]. now rewrite (endsIn_noLF l (proj1 H)).
Qed.

Lemma ReadLine_full (l rest : string) :
  allBytes noLF l = true -> N.of_nat (String.length l) = size ->
  bufio.endsIn CR l = false ->
  bufio.ReadLine size (l ++ rest) = (l, true, None, rest).
Proof.
  intros Hl Hlen Hcr. unfold bufio.ReadLine. rewrite (fill_full l rest Hl Hlen).
  now rewrite Hcr.
Qed.

End BufferFacts.

Section StdinFacts.

Variable NoColor : bool.

Lemma pipeStdin_ext (r1 r2 : nat -> string * bool * option io.error)
    (outputFields : list string) (outColors : list color.Color) :
  forall fuel n m out,
    (forall j, r1 (n + j) = r2 (m + j)) ->
    pipeStdin NoColor fuel r1 n outputFields outColors out
    = pipeStdin NoColor fuel r2 m outputFields outColors out.
Proof.
  induction fuel as [|fuel IH]; intros n m out H; [reflexivity|].
  cbn [pipeStdin]. pose proof (H 0) as H0. rewrite !Nat.add_0_r in H0. rewrite H0.
  destruct (r2 m) as [[line isPrefix] err].
  assert (Hs : forall j, r1 (S n + j) = r2 (S m + j)).
  { intro j. rewrite !Nat.add_succ_comm. apply (H (S j)). }
  destruct err as [[|]|]; [reflexivity| |];
    destruct (print NoColor line outputFields outColors "" out); now apply IH.
Qed.

(** The loop up to the first end of file. *)
Lemma pipeStdin_rounds (reader : nat -> string * bool * option io.error)
    (outputFields : list string) (outColors : list color.Color) :
  forall k fuel n out,
    (forall j, j < k -> snd (reader (n + j)) <> Some io.EOF) ->
    pipeStdin NoColor (k + fuel) reader n outputFields outColors out
    = pipeStdin NoColor fuel reader (n + k) outputFields outColors
        (out ++ flat_map (lineOutput NoColor outputFields outColors)
                  (map (fun j => fst (fst (reader j))) (seq n k)))%list.
Proof.
  induction k as [|k IH]; intros fuel n out H.
  - cbn. now rewrite Nat.add_0_r, app_nil_r.
  - cbn [Nat.add pipeStdin seq map flat_map].
    pose proof (H 0 (Nat.lt_0_succ k)) as H0. rewrite Nat.add_0_r in H0.
    destruct (reader n) as [[line isPrefix] err] eqn:E. cbn [fst snd] in *.
    assert (Hs : forall j, j < k -> snd (reader (S n + j)) <> Some io.EOF).
    { intros j Hj. rewrite Nat.add_succ_comm. apply H. lia. }
    assert (Hp : snd (print NoColor line outputFields outColors "" out)
                 = (out ++ lineOutput NoColor outputFields outColors line)%list)
      by apply print_out_app.
    destruct (print NoColor line outputFields outColors "" out) as [b o].
    cbn [snd] in Hp. subst o.
    destruct err as [[|]|]; [congruence| |];
      rewrite (IH fuel (S n) _ Hs), <- Nat.add_succ_comm, <- app_assoc; reflexivity.
Qed.

(** X11: [pipeStdin] returns when [ReadLine] reports the end of the
    file for the first time, and not before: by then it has added to the
    writer, in order, what [print] writes for each line that was read. *)
Theorem pipeStdin_returns_at_EOF (reader : nat -> string * bool * option io.error)
    (outputFields : list string) (outColors : list color.Color) (out : list string)
    (k fuel : nat) :
  (forall j, j < k -> snd (reader j) <> Some io.EOF) ->
  snd (reader k) = Some io.EOF ->
  k < fuel ->
  pipeStdin NoColor fuel reader 0 outputFields outColors out
  = (true, (out ++ flat_map (lineOutput NoColor outputFields outColors)
                     (linesRead reader k))%list).
Proof.
  intros Hb Hk Hf. replace fuel with (k + S (fuel - S k)) by lia.
  rewrite pipeStdin_rounds by exact Hb. cbn [Nat.add pipeStdin].
  destruct (reader k) as [[line isPrefix] err]. cbn [snd] in Hk. now subst err.
Qed.

(** X12: no error but [io.EOF] ends the loop of [pipeStdin]: as long as
    [ReadLine] does not report the end of the file, the loop goes on,
    formatting whatever line came with each result. On an input whose
    reads keep failing it never returns. *)
Theorem pipeStdin_runs_until_EOF (reader : nat -> string * bool * option io.error)
    (outputFields : list string) (outColors : list color.Color) (out : list string)
    (fuel : nat) :
  (forall j, j < fuel -> snd (reader j) <> Some io.EOF) ->
  pipeStdin NoColor fuel reader 0 outputFields outColors out
  = (false, (out ++ flat_map (lineOutput NoColor outputFields outColors)
                      (linesRead reader fuel))%list).
Proof.
  intro Hb. rewrite <- (Nat.add_0_r fuel) at 1.
  now rewrite pipeStdin_rounds by exact Hb.
Qed.

Lemma pipeStdin_step (size : N) (s : string) (fuel : nat)
    (outputFields : list string) (outColors : list color.Color) (out : list string) :
  pipeStdin NoColor (S fuel) (bufio.readLineAt size s) 0 outputFields outColors out
  = let '(line, _, err, rest) := bufio.ReadLine size s in
    match err with
    | Some io.EOF => (true, out)
    | _ => pipeStdin NoColor fuel (bufio.readLineAt size rest) 0 outputFields outColors
             (out ++ lineOutput NoColor outputFields outColors line)%list
    end.
Proof.
  cbn [pipeStdin bufio.readLineAt].
  destruct (bufio.ReadLine size s) as [[[line isPrefix] err] rest] eqn:E. cbn [fst].
  assert (Hp : snd (print NoColor line outputFields outColors "" out)
               = (out ++ lineOutput NoColor outputFields outColors line)%list)
    by apply print_out_app.
  destruct (print NoColor line outputFields outColors "" out) as [b o].
  cbn [snd] in Hp. subst o.
  destruct err as [[|]|]; [reflexivity| |];
    apply pipeStdin_ext; intro j; cbn [Nat.add bufio.readLineAt]; now rewrite E.
Qed.

Lemma pipeStdin_short_lines (size : N) (outputFields : list string)
    (outColors : list color.Color) (last : string) :
  fits size last ->
  forall lines fuel out,
    Forall (fits size) lines ->
    length lines + 2 <= fuel ->
    pipeStdin NoColor fuel (bufio.readLineAt size (unlines lines ++ last)) 0
      outputFields outColors out
    = (true, (out ++ flat_map (lineOutput NoColor outputFields outColors)
                       (map bufio.dropCR lines
                        ++ (if isEmpty last then [] else [last])))%list).
Proof.
  intros Hlast. induction lines as [|l ls IH]; intros fuel out Hl Hf.
  - cbn [unlines append map app length] in *.
    destruct fuel as [|[|fuel]]; try lia.
    rewrite pipeStdin_step, (ReadLine_last size last Hlast).
    destruct (isEmpty last) eqn:E.
    + cbn. now rewrite app_nil_r.
    + rewrite pipeStdin_step. cbn [flat_map]. rewrite app_nil_r.
      rewrite (ReadLine_last size ""); [reflexivity|].
      destruct Hlast as [_ Hlen]. split; [reflexivity | simpl; lia].
  - inversion Hl as [|? ? Hfit Hrest]; subst.
    destruct fuel as [|fuel]; [lia|].
    rewrite pipeStdin_step. cbn [unlines]. rewrite append_assoc. cbn [append].
    rewrite (ReadLine_line size l _ Hfit).
    rewrite (IH fuel _ Hrest) by (cbn [length] in Hf; lia).
    cbn [map app flat_map]. now rewrite <- app_assoc.
Qed.

End StdinFacts.

Section ScannerFacts.

Variable maxTokenSize : N.

Lemma scanLines_lines (last : string) :
  fits maxTokenSize last ->
  forall lines fuel,
    Forall (fits maxTokenSize) lines ->
    length lines < fuel ->
    bufio.scanLines fuel maxTokenSize (unlines lines ++ last)
    = ((map bufio.dropCR lines ++ (if isEmpty last then [] else [bufio.dropCR last]))%list,
       false).
Proof.
  intro Hlast. induction lines as [|l ls IH]; intros fuel Hl Hf.
  - destruct fuel as [|fuel]; [lia|].
    cbn [unlines append bufio.scanLines map app]. rewrite (fill_last _ last Hlast).
    now destruct (isEmpty last).
  - inversion Hl as [|? ? Hfit Hrest]; subst.
    destruct fuel as [|fuel]; [simpl in Hf; lia|].
    cbn [unlines bufio.scanLines]. rewrite append_assoc. cbn [append].
    rewrite (fill_line _ l _ Hfit), (IH fuel Hrest) by (simpl in Hf; lia).
    now rewrite dropLast_app1.
Qed.

Lemma scanLines_too_long (long rest : string) :
  allBytes noLF long = true -> N.of_nat (String.length long) = maxTokenSize ->
  forall lines fuel,
    Forall (fits maxTokenSize) lines ->
    length lines < fuel ->
    bufio.scanLines fuel maxTokenSize (unlines lines ++ long ++ rest)
    = (map bufio.dropCR lines, true).
Proof.
  intros Hlong Hlen. induction lines as [|l ls IH]; intros fuel Hl Hf.
  - destruct fuel as [|fuel]; [lia|].
    cbn [unlines append bufio.scanLines map]. now rewrite (fill_full _ long rest Hlong Hlen).
  - inversion Hl as [|? ? Hfit Hrest]; subst.
    destruct fuel as [|fuel]; [simpl in Hf; lia|].
    cbn [unlines bufio.scanLines]. rewrite append_assoc. cbn [append].
    rewrite (fill_line _ l _ Hfit), (IH fuel Hrest) by (simpl in Hf; lia).
    now rewrite dropLast_app1.
Qed.

End ScannerFacts.

Lemma length_unlines (lines : list string) (rest : string) :
  length lines <= String.length (unlines lines ++ rest).
Proof.
  induction lines as [|l ls IH]; [simpl; lia|].
  cbn [unlines length]. rewrite append_assoc, length_append. cbn [append String.length]. lia.
Qed.

Lemma Scan_lines (lines : list string) (last : string) :
  Forall (fits bufio.MaxScanTokenSize) lines -> fits bufio.MaxScanTokenSize last ->
  bufio.Scan (unlines lines ++ last)
  = ((map bufio.dropCR lines ++ (if isEmpty last then [] else [bufio.dropCR last]))%list,
     false).
Proof.
  intros Hl Hlast. unfold bufio.Scan. apply scanLines_lines; [assumption..|].
  pose proof (length_unlines lines last). lia.
Qed.

Lemma Scan_too_long (lines : list string) (long rest : string) :
  Forall (fits bufio.MaxScanTokenSize) lines ->
  allBytes noLF long = true ->
  N.of_nat (String.length long) = bufio.MaxScanTokenSize ->
  bufio.Scan (unlines lines ++ long ++ rest) = (map bufio.dropCR lines, true).
Proof.
  intros Hl Hlong Hlen. unfold bufio.Scan. apply scanLines_too_long; [assumption..|].
  pose proof (length_unlines lines (long ++ rest)). lia.
Qed.

Section ContentFacts.

Variable NoColor : bool.

Lemma pipeFile_never_cancelled (f : File)
    (outputFields : list string) (outColors : list color.Color) (out : list string) :
  pipeFile NoColor (fun _ => false) (Some f) outputFields outColors out
  = ((out ++ flat_map (lineOutput NoColor outputFields outColors) (tokens f))%list,
     (if scanErr f then LogScannerError else LogAllProcessed)
     :: (if closeErr f then [LogCloseFailed] else [])).
Proof.
  unfold pipeFile.
  destruct (scanLoop_prefix NoColor (fun _ => false) (scanErr f) outputFields outColors
              (tokens f) 0 "" out [])
    as [k [Hk [_ [Hrun Hend]]]].
  rewrite Hrun. rewrite (Hend eq_refl), firstn_all, emitLines_flat. cbn [app].
  now destruct (closeErr f).
Qed.

(** X13: on a standard input whose lines are shorter than the buffer
    of the reader (4096 bytes), [pipeStdin] formats each line once, in
    order, and returns at the end of the input. The newline is dropped
    with a carriage return before it; a last line without a newline is
    formatted as it is. *)
Theorem pipeStdin_formats_each_line (lines : list string) (last : string)
    (outputFields : list string) (outColors : list color.Color) (out : list string)
    (fuel : nat) :
  Forall (fits bufio.defaultBufSize) lines -> fits bufio.defaultBufSize last ->
  length lines + 2 <= fuel ->
  pipeStdin NoColor fuel
    (bufio.readLineAt bufio.defaultBufSize (unlines lines ++ last)) 0
    outputFields outColors out
  = (true, (out ++ flat_map (lineOutput NoColor outputFields outColors)
                     (map bufio.dropCR lines
                      ++ (if isEmpty last then [] else [last])))%list).
Proof. intros Hl Hlast Hf. now apply pipeStdin_short_lines. Qed.

(** X14: on a file whose lines are shorter than the largest buffer of
    the scanner (65536 bytes), a pump that is not cancelled formats each
    line once, in order, and logs the end of the file. The newline is
    dropped with a carriage return before it; a last line without a newline
    is formatted too, without a carriage return at its end. *)
Theorem pipeFile_formats_each_line (lines : list string) (last : string) (closeErr : bool)
    (outputFields : list string) (outColors : list color.Color) (out : list string) :
  Forall (fits bufio.MaxScanTokenSize) lines -> fits bufio.MaxScanTokenSize last ->
  pipeFile NoColor (fun _ => false) (Some (fileOf (unlines lines ++ last) closeErr))
    outputFields outColors out
  = ((out ++ flat_map (lineOutput NoColor outputFields outColors)
               (map bufio.dropCR lines
                ++ (if isEmpty last then [] else [bufio.dropCR last])))%list,
     LogAllProcessed :: (if closeErr then [LogCloseFailed] else [])).
Proof.
  intros Hl Hlast. rewrite pipeFile_never_cancelled. unfold fileOf.
  rewrite (Scan_lines lines last Hl Hlast). reflexivity.
Qed.

(** X15: a line of the standard input that does not fit the buffer of
    the reader is not formatted as one line: [ReadLine] hands out its
    first 4096 bytes with [isPrefix] set (when the last of them is no
    carriage return, which would be kept back for the next call), [pipeStdin] does not look at
    [isPrefix] and formats that piece as a line, and goes on with the rest
    of the input as if a new line started there. *)
Theorem pipeStdin_splits_long_line (piece rest : string)
    (outputFields : list string) (outColors : list color.Color) (out : list string)
    (fuel : nat) :
  allBytes noLF piece = true ->
  N.of_nat (String.length piece) = bufio.defaultBufSize ->
  bufio.endsIn CR piece = false ->
  bufio.readLineAt bufio.defaultBufSize (piece ++ rest) 0 = (piece, true, None)
  /\ pipeStdin NoColor (S fuel) (bufio.readLineAt bufio.defaultBufSize (piece ++ rest)) 0
       outputFields outColors out
     = pipeStdin NoColor fuel (bufio.readLineAt bufio.defaultBufSize rest) 0
         outputFields outColors
         (out ++ lineOutput NoColor outputFields outColors piece)%list.
Proof.
  intros Hp Hlen Hcr. split.
  - cbn [bufio.readLineAt]. now rewrite ReadLine_full.
  - rewrite pipeStdin_step. now rewrite ReadLine_full.
Qed.

(** X16: a line of 65536 bytes or more stops a file pump: the lines
    before it are formatted, the scanner then fails, the pump logs the
    error of the scanner and returns; the long line and the lines after it
    are never formatted. *)
Theorem pipeFile_stops_at_long_line (lines : list string) (long rest : string)
    (closeErr : bool)
    (outputFields : list string) (outColors : list color.Color) (out : list string) :
  Forall (fits bufio.MaxScanTokenSize) lines ->
  allBytes noLF long = true ->
  N.of_nat (String.length long) = bufio.MaxScanTokenSize ->
  pipeFile NoColor (fun _ => false) (Some (fileOf (unlines lines ++ long ++ rest) closeErr))
    outputFields outColors out
  = ((out ++ flat_map (lineOutput NoColor outputFields outColors)
               (map bufio.dropCR lines))%list,
     LogScannerError :: (if closeErr then [LogCloseFailed] else [])).
Proof.
  intros Hl Hlong Hlen. rewrite pipeFile_never_cancelled. unfold fileOf.
  rewrite (Scan_too_long lines long rest Hl Hlong Hlen). reflexivity.
Qed.

End ContentFacts.

(** ** The run of [main] *)

Lemma Split_cons (s : string) : exists p ps, strings.Split s = p :: ps.
Proof.
  destruct s as [|c s]; cbn [strings.Split]; [now eexists; eexists|].
  destruct (byteIs c 44); [now eexists; eexists|].
  destruct (strings.Split s); now eexists; eexists.
Qed.

Lemma concat_Split (s : string) : String.concat "," (strings.Split s) = s.
Proof.
  induction s as [|c s IH]; [reflexivity|].
  cbn [strings.Split]. destruct (Split_cons s) as [p [ps Es]]. rewrite Es in *.
  destruct (byteIs c 44) eqn:E.
  - unfold byteIs, code in E. apply N.eqb_eq in E.
    assert (Hc : c = ","%char).
    { rewrite <- (ascii_N_embedding c), E. reflexivity. }
    subst c.
    change (String.concat "," ("" :: p :: ps)) with ("" ++ "," ++ String.concat "," (p :: ps)).
    now rewrite IH.
  - destruct ps as [|p2 ps].
    + simpl in *. now rewrite IH.
    + change (String.concat "," (String c p :: p2 :: ps))
        with (String c (p ++ "," ++ String.concat "," (p2 :: ps))).
      change (String.concat "," (p :: p2 :: ps))
        with (p ++ "," ++ String.concat "," (p2 :: ps)) in IH.
      now rewrite IH.
Qed.

Lemma Split_noComma (s : string) :
  Forall (fun piece => allBytes noComma piece = true) (strings.Split s).
Proof.
  induction s as [|c s IH]; [repeat constructor|].
  cbn [strings.Split]. destruct (byteIs c 44) eqn:E.
  - constructor; [reflexivity | exact IH].
  - destruct (strings.Split s) as [|p ps]; [repeat constructor; cbn; unfold noComma; now rewrite E|].
    inversion IH as [|? ? Hp Hps]; subst. constructor; [|exact Hps].
    cbn [allBytes]. unfold noComma at 1. now rewrite E.
Qed.

(** X17: [main] takes the fields and the files from its flags as they
    are written: joined by commas they give the flag back, so no byte of a
    field is trimmed or changed, and no field holds a comma. There is
    always at least one field (the empty path when [-f] is empty); there is
    no file exactly when [--files] is empty. *)
Theorem main_splits_flags_at_commas (env : Env) :
  String.concat "," (outFields env) = fOutputFormat env
  /\ outFields env <> []
  /\ Forall (fun field => allBytes noComma field = true) (outFields env)
  /\ (fileStrs env = [] <-> fInputFiles env = "")
  /\ String.concat "," (fileStrs env) = fInputFiles env.
Proof.
  unfold outFields, fileStrs. split; [apply concat_Split|]. split.
  - destruct (Split_cons (fOutputFormat env)) as [p [ps ->]]. discriminate.
  - split; [apply Split_noComma|].
    destruct (fInputFiles env) as [|c s] eqn:E; cbn [isEmpty].
    + split; [tauto | reflexivity].
    + split; [|apply concat_Split].
      destruct (Split_cons (String c s)) as [p [ps ->]]. split; discriminate.
Qed.

Lemma Writer_eqb_refl (w : Writer) : Writer_eqb w w = true.
Proof. destruct w; simpl; [reflexivity | apply Nat.eqb_refl]. Qed.

Lemma Writer_eqb_eq (a b : Writer) : Writer_eqb a b = true -> a = b.
Proof.
  destruct a, b; simpl; try discriminate; [reflexivity|].
  intro H. apply Nat.eqb_eq in H. now subst.
Qed.

Lemma payloads_app (w : Writer) (ws1 ws2 : list (Writer * string)) :
  payloads w (ws1 ++ ws2) = (payloads w ws1 ++ payloads w ws2)%list.
Proof. unfold payloads. now rewrite filter_app, map_app. Qed.

Lemma payloads_pair (w v : Writer) (l : list string) :
  payloads w (map (pair v) l) = if Writer_eqb v w then l else [].
Proof.
  unfold payloads. induction l as [|x l IH]; simpl.
  - now destruct (Writer_eqb v w).
  - destruct (Writer_eqb v w); simpl; [now rewrite IH | exact IH].
Qed.

Lemma nth_error_setNth {A : Type} (l : list A) (i j : nat) (x : A) :
  nth_error (setNth i x l) j
  = if Nat.eqb i j then (match nth_error l i with Some _ => Some x | None => None end)
    else nth_error l j.
Proof.
  revert i j. induction l as [|y l IH]; intros i j.
  - simpl. destruct (Nat.eqb i j); destruct i, j; reflexivity.
  - destruct i, j; simpl; try reflexivity. apply IH.
Qed.

Lemma length_setNth {A : Type} (l : list A) (i : nat) (x : A) :
  length (setNth i x l) = length l.
Proof.
  revert i. induction l as [|y l IH]; intro i; [now destruct i|].
  destruct i; simpl; [reflexivity | now rewrite IH].
Qed.

Lemma firstn_skipn_cons {A : Type} (k : nat) (l : list A) (x : A) (r : list A) :
  skipn k l = x :: r -> firstn (S k) l = (firstn k l ++ [x])%list /\ skipn (S k) l = r.
Proof.
  revert l. induction k as [|k IH]; intros l H.
  - simpl in H. subst l. now split.
  - destruct l as [|y l]; [discriminate|]. simpl in H.
    destruct (IH l H) as [H1 H2]. split.
    + change (firstn (S (S k)) (y :: l)) with (y :: firstn (S k) l). rewrite H1. reflexivity.
    + exact H2.
Qed.

Lemma skipn_nil_all {A : Type} (k : nat) (l : list A) : skipn k l = [] -> firstn k l = l.
Proof.
  revert l. induction k as [|k IH]; intros l H.
  - simpl in H. now subst.
  - destruct l as [|y l]; [reflexivity|]. simpl in *. f_equal. now apply IH.
Qed.

Section MainFacts.

Variable NoColor : bool.
Variable mapUnicodeToLower : string -> string.
Variable env : Env.

Lemma payloads_writesOf (w v : Writer) (line : string) :
  payloads w (writesOf NoColor mapUnicodeToLower env v line)
  = if Writer_eqb v w then lineOut NoColor mapUnicodeToLower env line else [].
Proof. unfold writesOf. apply payloads_pair. Qed.

Lemma writesOf_complete (w : Writer) (line : string) :
  Forall completeLine (map snd (writesOf NoColor mapUnicodeToLower env w line)).
Proof.
  unfold writesOf. rewrite map_map. cbn [snd]. rewrite map_id.
  destruct (lineOutput_complete NoColor (outFields env) (outColors mapUnicodeToLower env) line)
    as [E|[p [E Hp]]]; unfold lineOutput in E; rewrite E; auto.
Qed.

Lemma pumpInv_cancel (c : bool) (i : nat) (p : Pump) (ws : list string) :
  pumpInv NoColor mapUnicodeToLower env c i p ws ->
  pumpInv NoColor mapUnicodeToLower env true i p ws.
Proof.
  destruct p; simpl; auto. intros [H _]. split; [exact H | discriminate].
Qed.

Lemma linesRead_S (reader : nat -> string * bool * option io.error) (n : nat) :
  linesRead reader (S n) = (linesRead reader n ++ [fst (fst (reader n))])%list.
Proof. unfold linesRead. now rewrite seq_S, map_app. Qed.

Lemma Inv_start : Inv NoColor mapUnicodeToLower env (start env).
Proof.
  unfold start. destruct (stdinPiped env) as [piped|] eqn:Ep.
  - constructor; cbn [pumps written cancelled phase stdinPump].
    + intros i p H. rewrite nth_error_map in H.
      destruct (nth_error (fileStrs env) i) eqn:E; [|discriminate].
      injection H as <-. simpl. now split.
    + reflexivity.
    + split; [now exists 0|]. destruct piped; simpl; reflexivity.
    + constructor.
    + intros [H|H]; discriminate.
    + unfold isPiped. rewrite Ep. intros ->. now split.
    + intros _. apply length_map.
    + discriminate.
  - constructor; cbn [pumps written cancelled phase stdinPump].
    + intros i p H. destruct i; discriminate.
    + reflexivity.
    + split; [now exists 0 | reflexivity].
    + constructor.
    + reflexivity.
    + now split.
    + congruence.
    + discriminate.
Qed.


Ltac stdin_keeps I3 :=
  let Ha := fresh "Ha" in let Hb := fresh "Hb" in
  destruct I3 as [Ha Hb]; split; [exact Ha|];
  match goal with
  | |- match ?p with _ => _ end => destruct p; try exact Hb; cbn; try discriminate;
                                   try (intros _; apply Hb; reflexivity)
  end.

Lemma Inv_stepMain (st : State) :
  Inv NoColor mapUnicodeToLower env st -> Inv NoColor mapUnicodeToLower env (stepMain env st).
Proof.
  intros HI. pose proof HI as [I1 I2 I3 I4 I5 I6 I7 I8]. unfold stepMain.
  destruct (phase st) eqn:Ep; try exact HI.
  - constructor; cbn [pumps written cancelled phase stdinPump]; try assumption.
    + stdin_keeps I3.
    + intros [H|H]; destruct (isPiped env); discriminate.
    + destruct (isPiped env); [reflexivity | discriminate].
  - destruct (forallb isReturned (pumps st)) eqn:Er; [|exact HI].
    constructor; cbn [pumps written cancelled phase stdinPump]; try assumption.
    + stdin_keeps I3; destruct (closeFails env); discriminate.
    + intros _. exact Er.
    + destruct (closeFails env); discriminate.
  - constructor; cbn [pumps written cancelled phase stdinPump]; try assumption.
    + intros _. apply I5. now left.
    + discriminate.
Qed.

Lemma Inv_stepSignal (st : State) :
  Inv NoColor mapUnicodeToLower env st -> Inv NoColor mapUnicodeToLower env (stepSignal env st).
Proof.
  intros HI. pose proof HI as [I1 I2 I3 I4 I5 I6 I7 I8]. unfold stepSignal.
  assert (Hk : Inv NoColor mapUnicodeToLower env
                 (mkState Killed (cancelled st) (stdinPump st) (pumps st) (written st))).
  { constructor; cbn [pumps written cancelled phase stdinPump]; try assumption.
    - stdin_keeps I3.
    - intros [H|H]; discriminate.
    - discriminate. }
  destruct (phase st) eqn:Ep; try (destruct (isPiped env); assumption); try assumption.
  (* AwaitSignal: the context is cancelled *)
  constructor; cbn [pumps written cancelled phase stdinPump]; try assumption.
  - intros i p H. apply (pumpInv_cancel (cancelled st)). now apply I1.
  - intros [H|H]; discriminate.
  - intro Hu. rewrite (I8 eq_refl) in Hu. discriminate.
  - discriminate.
Qed.

Lemma Inv_stepStdin (st : State) :
  running (phase st) = true ->
  Inv NoColor mapUnicodeToLower env st -> Inv NoColor mapUnicodeToLower env (stepStdin NoColor mapUnicodeToLower env st).
Proof.
  intros Hrun HI. pose proof HI as [I1 I2 I3 I4 I5 I6 I7 I8]. unfold stepStdin.
  destruct (stdinPump st) as [|n|] eqn:Es; try exact HI.
  destruct (stdinReader env n) as [[line isPrefix] err] eqn:Er.
  assert (Hret : Inv NoColor mapUnicodeToLower env
            (mkState (phase st) (cancelled st) StdinReturned (pumps st) (written st))).
  { constructor; cbn [pumps written cancelled phase stdinPump]; try assumption.
    - destruct I3 as [Ha Hb]. now split.
    - intro Hu. destruct (I6 Hu) as [_ H]. discriminate. }
  assert (Hlost : Inv NoColor mapUnicodeToLower env
            (mkState (phase st) (cancelled st) (Reading (S n)) (pumps st) (written st))
          \/ outputOpen (phase st) = true).
  { destruct (outputOpen (phase st)) eqn:Eo; [now right | left].
    constructor; cbn [pumps written cancelled phase stdinPump]; try assumption.
    - destruct I3 as [Ha Hb]. split; [exact Ha|]. congruence.
    - intro Hu. destruct (I6 Hu) as [_ H]. discriminate. }
  assert (Hgo : outputOpen (phase st) = true ->
            Inv NoColor mapUnicodeToLower env
              (mkState (phase st) (cancelled st) (Reading (S n)) (pumps st)
                 (written st ++ writesOf NoColor mapUnicodeToLower env FromStdin line))).
  { intro Eo.
    constructor; cbn [pumps written cancelled phase stdinPump]; try assumption.
    - intros i p H. rewrite payloads_app, payloads_writesOf. cbn [Writer_eqb].
      rewrite app_nil_r. now apply I1.
    - intros i H. rewrite payloads_app, payloads_writesOf. cbn [Writer_eqb].
      rewrite app_nil_r. now apply I2.
    - destruct I3 as [Ha Hb]. specialize (Hb Eo).
      rewrite payloads_app, payloads_writesOf. cbn [Writer_eqb].
      assert (E : (payloads FromStdin (written st)
                   ++ lineOut NoColor mapUnicodeToLower env line)%list
                  = flat_map (lineOut NoColor mapUnicodeToLower env)
                      (linesRead (stdinReader env) (S n))).
      { rewrite linesRead_S, flat_map_app, Er, Hb. cbn. now rewrite app_nil_r. }
      split; [exists (S n); exact E | intros _; exact E].
    - rewrite map_app. apply Forall_app. split; [exact I4 | apply writesOf_complete].
    - intro Hu. destruct (I6 Hu) as [_ H]. discriminate. }
  destruct err as [[|]|]; try exact Hret;
    (destruct (phase st) eqn:Ep; try discriminate;
     [apply Hgo; reflexivity | apply Hgo; reflexivity | apply Hgo; reflexivity
     | destruct Hlost as [H|H]; [exact H | discriminate]]).
Qed.


Lemma fileLines_opened (i : nat) (filepath : string) (f : File) :
  nth_error (fileStrs env) i = Some filepath -> openFile env filepath = Some f ->
  fileLines env i = tokens f.
Proof. unfold fileLines. now intros -> ->. Qed.

Lemma fileLines_failed (i : nat) (filepath : string) :
  nth_error (fileStrs env) i = Some filepath -> openFile env filepath = None ->
  fileLines env i = [].
Proof. unfold fileLines. now intros -> ->. Qed.

(** One step of a pump keeps what the pump has written in line with
    where it stands. *)
Lemma pumpInv_stepPump (cancel : bool) (i : nat) (p : Pump) (ws : list string) :
  pumpInv NoColor mapUnicodeToLower env cancel i p ws ->
  pumpInv NoColor mapUnicodeToLower env cancel i
    (fst (stepPump NoColor mapUnicodeToLower env i p cancel))
    (ws ++ payloads (FromFile i) (snd (stepPump NoColor mapUnicodeToLower env i p cancel))).
Proof.
  destruct p as [filepath|lines|lines|]; cbn [stepPump pumpInv].
  - intros [Hp ->]. destruct (openFile env filepath) as [f|] eqn:Eo; cbn.
    + exists 0. now rewrite (fileLines_opened i filepath f Hp Eo).
    + rewrite (fileLines_failed i filepath Hp Eo). split; [now exists 0 | reflexivity].
  - intros [k [Hl Hw]]. cbn. rewrite app_nil_r. destruct cancel; cbn.
    + split; [now exists k | discriminate].
    + now exists k.
  - intros [k [Hl Hw]]. destruct lines as [|line lines]; cbn [fst snd].
    + cbn. rewrite app_nil_r. symmetry in Hl. apply skipn_nil_all in Hl.
      rewrite Hl in Hw. split; [exists (length (fileLines env i)) | intros _]; 
        rewrite ?firstn_all; exact Hw.
    + symmetry in Hl. apply firstn_skipn_cons in Hl as [H1 H2].
      exists (S k). split; [now rewrite H2|].
      rewrite payloads_writesOf. cbn [Writer_eqb]. rewrite Nat.eqb_refl.
      rewrite H1, flat_map_app, Hw. cbn. now rewrite app_nil_r.
  - cbn. now rewrite app_nil_r.
Qed.

Lemma stepPump_others (i j : nat) (p : Pump) (cancel : bool) :
  i <> j ->
  payloads (FromFile j) (snd (stepPump NoColor mapUnicodeToLower env i p cancel)) = [].
Proof.
  intro H. destruct p as [filepath|lines|[|line lines]|]; cbn [stepPump snd];
    try reflexivity.
  - now destruct (openFile env filepath).
  - rewrite payloads_writesOf. cbn [Writer_eqb].
    destruct (Nat.eqb_spec i j); [contradiction | reflexivity].
Qed.

Lemma stepPump_stdin (i : nat) (p : Pump) (cancel : bool) :
  payloads FromStdin (snd (stepPump NoColor mapUnicodeToLower env i p cancel)) = [].
Proof.
  destruct p as [filepath|lines|[|line lines]|]; cbn [stepPump snd]; try reflexivity.
  - now destruct (openFile env filepath).
  - now rewrite payloads_writesOf.
Qed.

Lemma stepPump_complete (i : nat) (p : Pump) (cancel : bool) :
  Forall completeLine (map snd (snd (stepPump NoColor mapUnicodeToLower env i p cancel))).
Proof.
  destruct p as [filepath|lines|[|line lines]|]; cbn [stepPump snd]; try constructor.
  - destruct (openFile env filepath); constructor.
  - apply writesOf_complete.
Qed.

Lemma stepPump_returned (i : nat) (p : Pump) (cancel : bool) :
  isReturned p = true -> stepPump NoColor mapUnicodeToLower env i p cancel = (Returned, []).
Proof. destruct p; try discriminate. reflexivity. Qed.

Lemma forallb_nth {A : Type} (f : A -> bool) (l : list A) (i : nat) (x : A) :
  forallb f l = true -> nth_error l i = Some x -> f x = true.
Proof.
  intros H Hn. apply nth_error_In in Hn. rewrite forallb_forall in H. now apply H.
Qed.

Lemma setNth_same {A : Type} (l : list A) (i : nat) (x : A) :
  nth_error l i = Some x -> setNth i x l = l.
Proof.
  revert i. induction l as [|y l IH]; intros i H; [now destruct i|].
  destruct i; simpl in *; [now injection H as -> | f_equal; now apply IH].
Qed.

Lemma Inv_stepFile (i : nat) (st : State) :
  Inv NoColor mapUnicodeToLower env st ->
  Inv NoColor mapUnicodeToLower env (stepFile NoColor mapUnicodeToLower env i st).
Proof.
  intros HI. pose proof HI as [I1 I2 I3 I4 I5 I6 I7 I8]. unfold stepFile.
  destruct (nth_error (pumps st) i) as [p|] eqn:En; [|exact HI].
  destruct (stepPump NoColor mapUnicodeToLower env i p (cancelled st)) as [p' ws] eqn:Es.
  constructor; cbn [pumps written cancelled phase stdinPump]; try assumption.
  - intros j q Hq. rewrite nth_error_setNth, En in Hq. rewrite payloads_app.
    destruct (Nat.eqb_spec i j) as [->|Hij].
    + injection Hq as <-.
      pose proof (pumpInv_stepPump (cancelled st) j p _ (I1 j p En)) as H.
      now rewrite Es in H.
    + replace (payloads (FromFile j) ws) with (@nil string).
      * rewrite app_nil_r. now apply I1.
      * symmetry. pose proof (stepPump_others i j p (cancelled st) Hij) as H.
        now rewrite Es in H.
  - intros j Hq. rewrite nth_error_setNth, En in Hq. rewrite payloads_app.
    destruct (Nat.eqb_spec i j) as [->|Hij]; [discriminate|].
    rewrite (I2 j Hq). pose proof (stepPump_others i j p (cancelled st) Hij) as H.
    now rewrite Es in H.
  - rewrite payloads_app. pose proof (stepPump_stdin i p (cancelled st)) as H.
    rewrite Es in H. cbn [snd] in H. rewrite H, app_nil_r. exact I3.
  - rewrite map_app. apply Forall_app. split; [exact I4|].
    pose proof (stepPump_complete i p (cancelled st)) as H. now rewrite Es in H.
  - intro Hph. specialize (I5 Hph).
    pose proof (forallb_nth _ _ _ _ I5 En) as Hr.
    rewrite (stepPump_returned i p (cancelled st) Hr) in Es. injection Es as <- <-.
    destruct p; try discriminate. now rewrite (setNth_same _ _ _ En).
  - intro Hp. rewrite length_setNth. now apply I7.
Qed.

Lemma Inv_step (e : Event) (st : State) :
  Inv NoColor mapUnicodeToLower env st ->
  Inv NoColor mapUnicodeToLower env (step NoColor mapUnicodeToLower env e st).
Proof.
  intro HI. unfold step. destruct (running (phase st)) eqn:Er; [|exact HI].
  destruct e.
  - now apply Inv_stepSignal.
  - now apply Inv_stepMain.
  - now apply Inv_stepStdin.
  - now apply Inv_stepFile.
Qed.

Lemma Inv_fold (schedule : list Event) (st : State) :
  Inv NoColor mapUnicodeToLower env st ->
  Inv NoColor mapUnicodeToLower env
    (fold_left (fun st e => step NoColor mapUnicodeToLower env e st) schedule st).
Proof.
  revert st. induction schedule as [|e es IH]; intros st HI; [exact HI|].
  cbn [fold_left]. apply IH. now apply Inv_step.
Qed.

Lemma Inv_run (schedule : list Event) :
  Inv NoColor mapUnicodeToLower env (run NoColor mapUnicodeToLower env schedule).
Proof. unfold run. apply Inv_fold, Inv_start. Qed.

(** X18: however the goroutines of [main] are interleaved, and whenever
    a signal arrives, what has been written to the output is a sequence of
    whole lines: each write is a payload of [print], never a part of a
    line. *)
Theorem main_writes_whole_lines (schedule : list Event) :
  Forall completeLine (map snd (written (run NoColor mapUnicodeToLower env schedule))).
Proof. apply (inv_lines _ _ _ _ (Inv_run schedule)). Qed.

(** X19: however the goroutines are interleaved, the writes of each
    pump, taken by themselves, are what that pump writes for the first [k]
    lines of its input, in order, for some [k]: the lines of different
    inputs can alternate, the lines of one input are never reordered,
    repeated or dropped in between. *)
Theorem main_keeps_the_order_of_each_input (schedule : list Event) :
  (forall i, exists k,
      payloads (FromFile i) (written (run NoColor mapUnicodeToLower env schedule))
      = flat_map (lineOut NoColor mapUnicodeToLower env) (firstn k (fileLines env i)))
  /\ exists k,
      payloads FromStdin (written (run NoColor mapUnicodeToLower env schedule))
      = flat_map (lineOut NoColor mapUnicodeToLower env) (linesRead (stdinReader env) k).
Proof.
  pose proof (Inv_run schedule) as [I1 I2 I3 _ _ _ _ _]. split.
  - intro i. destruct (nth_error (pumps (run NoColor mapUnicodeToLower env schedule)) i)
      as [p|] eqn:En.
    + specialize (I1 i p En). destruct p; cbn [pumpInv] in I1.
      * destruct I1 as [_ ->]. now exists 0.
      * destruct I1 as [k [_ H]]. now exists k.
      * destruct I1 as [k [_ H]]. now exists k.
      * destruct I1 as [[k H] _]. now exists k.
    + rewrite (I2 i En). now exists 0.
  - destruct I3 as [H _]. exact H.
Qed.

(** X20: when the standard input is a terminal, [main] traps no signal
    and never cancels the context: if it reaches its end, every line of
    every file that could be opened has been formatted, and the standard
    input has no pump: nothing was read from it or written for it. *)
Theorem main_unpiped_reads_files_whole (schedule : list Event) :
  stdinPiped env = Some false ->
  phase (run NoColor mapUnicodeToLower env schedule) = Exited ->
  (forall i,
      payloads (FromFile i) (written (run NoColor mapUnicodeToLower env schedule))
      = flat_map (lineOut NoColor mapUnicodeToLower env) (fileLines env i))
  /\ payloads FromStdin (written (run NoColor mapUnicodeToLower env schedule)) = []
  /\ stdinPump (run NoColor mapUnicodeToLower env schedule) = NoStdin
  /\ cancelled (run NoColor mapUnicodeToLower env schedule) = false.
Proof.
  intros Hp He. pose proof (Inv_run schedule) as [I1 I2 I3 _ I5 I6 I7 _].
  assert (Hu : isPiped env = false) by (unfold isPiped; now rewrite Hp).
  destruct (I6 Hu) as [Hc Hs]. split; [|split; [|split; [exact Hs | exact Hc]]].
  - intro i. destruct (nth_error (pumps (run NoColor mapUnicodeToLower env schedule)) i)
      as [p|] eqn:En.
    + specialize (I1 i p En).
      pose proof (forallb_nth _ _ _ _ (I5 (or_intror He)) En) as Hr.
      destruct p; try discriminate. destruct I1 as [_ H]. now apply H.
    + rewrite (I2 i En). apply nth_error_None in En.
      rewrite I7 in En by congruence. apply nth_error_None in En.
      unfold fileLines. now rewrite En.
  - destruct I3 as [_ H]. now rewrite Hs in H.
Qed.


Lemma run_app (s1 s2 : list Event) :
  run NoColor mapUnicodeToLower env (s1 ++ s2)
  = fold_left (fun st e => step NoColor mapUnicodeToLower env e st) s2
      (run NoColor mapUnicodeToLower env s1).
Proof. unfold run. apply fold_left_app. Qed.

(** X21: when the standard input is piped, [main] does not get past
    its wait for [SIGINT] or [SIGTERM] by itself: as long as no signal
    arrives it neither cancels the context nor closes the output nor
    returns, even after the standard input and all the files have come to
    their end. *)
Theorem main_piped_waits_for_the_signal (schedule : list Event) :
  stdinPiped env = Some true ->
  ~ In Signal schedule ->
  (phase (run NoColor mapUnicodeToLower env schedule) = Starting
   \/ phase (run NoColor mapUnicodeToLower env schedule) = AwaitSignal)
  /\ cancelled (run NoColor mapUnicodeToLower env schedule) = false.
Proof.
  intros Hp. unfold run.
  assert (H0 : (phase (start env) = Starting \/ phase (start env) = AwaitSignal)
               /\ cancelled (start env) = false).
  { unfold start. rewrite Hp. cbn. auto. }
  revert H0. generalize (start env) as st.
  induction schedule as [|e es IH]; intros st H0 Hs; [exact H0|].
  cbn [fold_left]. apply IH; [|intro H; apply Hs; now right].
  assert (He : e <> Signal) by (intros ->; apply Hs; now left).
  destruct H0 as [Hph Hc]. unfold step.
  destruct (running (phase st)); [|auto].
  destruct e; [congruence| | |].
  - unfold stepMain. destruct Hph as [Hph|Hph]; rewrite Hph; cbn [phase cancelled].
    + unfold isPiped. rewrite Hp. auto.
    + auto.
  - unfold stepStdin. destruct (stdinPump st); auto.
    destruct (stdinReader env n) as [[line isPrefix] [[|]|]]; cbn [phase cancelled]; auto.
  - unfold stepFile. destruct (nth_error (pumps st) i); auto.
    destruct (stepPump _ _ _ _ _ _); cbn [phase cancelled]; auto.
Qed.

Lemma lineOut_short (line : string) :
  length (lineOut NoColor mapUnicodeToLower env line) <= 1.
Proof.
  unfold lineOut.
  destruct (lineOutput_complete NoColor (outFields env) (outColors mapUnicodeToLower env) line)
    as [E|[p [E _]]]; rewrite E; simpl; lia.
Qed.

Lemma cancelled_step (e : Event) (st : State) :
  cancelled st = true -> cancelled (step NoColor mapUnicodeToLower env e st) = true.
Proof.
  intro Hc. unfold step. destruct (running (phase st)); [|exact Hc].
  destruct e.
  - unfold stepSignal. destruct (phase st); try destruct (isPiped env); auto.
  - unfold stepMain. destruct (phase st); try destruct (forallb _ _); auto.
  - unfold stepStdin. destruct (stdinPump st); auto.
    destruct (stdinReader env n) as [[line isPrefix] [[|]|]]; auto.
  - unfold stepFile. destruct (nth_error (pumps st) i); auto.
    destruct (stepPump _ _ _ _ _ _); auto.
Qed.

(** Once the context is cancelled, a step adds to the lines of a file
    pump at most the one line that is in flight. *)
Lemma cancelled_step_bound (e : Event) (st : State) (i : nat) :
  cancelled st = true ->
  length (payloads (FromFile i) (written (step NoColor mapUnicodeToLower env e st)))
  + inFlight (nth_error (pumps (step NoColor mapUnicodeToLower env e st)) i)
  <= length (payloads (FromFile i) (written st)) + inFlight (nth_error (pumps st) i).
Proof.
  intro Hc. unfold step. destruct (running (phase st)); [|lia].
  destruct e.
  - unfold stepSignal. destruct (phase st); try destruct (isPiped env);
      cbn [written pumps]; lia.
  - unfold stepMain. destruct (phase st); try destruct (forallb _ _);
      cbn [written pumps]; lia.
  - unfold stepStdin. destruct (stdinPump st); try lia.
    destruct (stdinReader env n) as [[line isPrefix] [[|]|]]; cbn [written pumps]; try lia;
      destruct (phase st); rewrite ?payloads_app, ?payloads_writesOf; cbn [Writer_eqb];
      rewrite ?app_nil_r; lia.
  - unfold stepFile. destruct (nth_error (pumps st) i0) as [p|] eqn:En; [|lia].
    destruct (stepPump NoColor mapUnicodeToLower env i0 p (cancelled st)) as [p' ws] eqn:Es.
    cbn [written pumps]. rewrite payloads_app, length_app, nth_error_setNth, En.
    destruct (Nat.eqb_spec i0 i) as [->|Hne].
    + rewrite En. rewrite Hc in Es.
      destruct p as [filepath|lines|[|line lines]|]; cbn [stepPump] in Es.
      * destruct (openFile env filepath); injection Es as <- <-; cbn; lia.
      * injection Es as <- <-. cbn. lia.
      * injection Es as <- <-. cbn. lia.
      * injection Es as <- <-. rewrite payloads_writesOf. cbn [Writer_eqb].
        rewrite Nat.eqb_refl. pose proof (lineOut_short line). cbn [inFlight]. lia.
      * injection Es as <- <-. cbn. lia.
    + pose proof (stepPump_others i0 i p (cancelled st) Hne) as H.
      rewrite Es in H. cbn [snd] in H. rewrite H. cbn [length]. lia.
Qed.

Lemma cancelled_fold_bound (schedule : list Event) (i : nat) :
  forall st,
    cancelled st = true ->
    length (payloads (FromFile i)
              (written (fold_left (fun st e => step NoColor mapUnicodeToLower env e st)
                          schedule st)))
    <= length (payloads (FromFile i) (written st)) + inFlight (nth_error (pumps st) i).
Proof.
  induction schedule as [|e es IH]; intros st Hc; cbn [fold_left]; [lia|].
  pose proof (IH _ (cancelled_step e st Hc)) as H1.
  pose proof (cancelled_step_bound e st i Hc) as H2. lia.
Qed.

(** X22: once the context is cancelled, a file pump writes at most the
    one line it had already taken the [default] case of its [select] for:
    whatever happens afterwards, the number of its writes grows by that
    line at most. *)
Theorem cancel_stops_each_pump_within_a_line (before after : list Event) (i : nat) :
  cancelled (run NoColor mapUnicodeToLower env before) = true ->
  length (payloads (FromFile i)
            (written (run NoColor mapUnicodeToLower env (before ++ after))))
  <= length (payloads (FromFile i) (written (run NoColor mapUnicodeToLower env before)))
     + inFlight (nth_error (pumps (run NoColor mapUnicodeToLower env before)) i)
  /\ inFlight (nth_error (pumps (run NoColor mapUnicodeToLower env before)) i) <= 1.
Proof.
  intro Hc. rewrite run_app. split; [now apply cancelled_fold_bound|].
  destruct (nth_error _ i) as [[| |[|]|]|]; cbn; lia.
Qed.

End MainFacts.

(** ** A pump and the cancel *)

Section CancelFacts.

Variable NoColor : bool.
Variable mapUnicodeToLower : string -> string.
Variable env : Env.

Lemma step_written (e : Event) (st : State) :
  exists more, written (step NoColor mapUnicodeToLower env e st) = (written st ++ more)%list.
Proof.
  unfold step. destruct (running (phase st)); [|exists []; now rewrite app_nil_r].
  destruct e.
  - exists []. rewrite app_nil_r. unfold stepSignal.
    destruct (phase st); try destruct (isPiped env); reflexivity.
  - exists []. rewrite app_nil_r. unfold stepMain.
    destruct (phase st); try destruct (forallb _ _); reflexivity.
  - unfold stepStdin. destruct (stdinPump st); try (exists []; now rewrite app_nil_r).
    destruct (stdinReader env n) as [[line isPrefix] [[|]|]]; cbn [written];
      try (exists []; now rewrite app_nil_r);
      destruct (phase st); try (exists []; now rewrite app_nil_r); eexists; reflexivity.
  - unfold stepFile. destruct (nth_error (pumps st) i); [|exists []; now rewrite app_nil_r].
    destruct (stepPump _ _ _ _ _ _). cbn [written]. eexists; reflexivity.
Qed.

Lemma fold_written (schedule : list Event) :
  forall st, exists more,
    written (fold_left (fun st e => step NoColor mapUnicodeToLower env e st) schedule st)
    = (written st ++ more)%list.
Proof.
  induction schedule as [|e es IH]; intro st; cbn [fold_left].
  - exists []. now rewrite app_nil_r.
  - destruct (IH (step NoColor mapUnicodeToLower env e st)) as [m2 H2].
    destruct (step_written e st) as [m1 H1].
    exists (m1 ++ m2)%list. now rewrite H2, H1, app_assoc.
Qed.

(** Under a cancelled context, a step of the run leaves a pump that has
    no line in flight without one, and adds nothing to its writes. *)
Lemma cancelled_step_settled (e : Event) (st : State) (i : nat) :
  cancelled st = true -> settled (nth_error (pumps st) i) = true ->
  payloads (FromFile i) (written (step NoColor mapUnicodeToLower env e st))
  = payloads (FromFile i) (written st)
  /\ settled (nth_error (pumps (step NoColor mapUnicodeToLower env e st)) i) = true.
Proof.
  intros Hc Hs. unfold step. destruct (running (phase st)); [|now split].
  destruct e.
  - unfold stepSignal. destruct (phase st); try destruct (isPiped env); now split.
  - unfold stepMain. destruct (phase st); try destruct (forallb _ _); now split.
  - unfold stepStdin. destruct (stdinPump st); try now split.
    destruct (stdinReader env n) as [[line isPrefix] [[|]|]]; cbn [written pumps];
      try (now split);
      (split; [|exact Hs]);
      destruct (phase st); rewrite ?payloads_app, ?payloads_writesOf; cbn [Writer_eqb];
      rewrite ?app_nil_r; reflexivity.
  - unfold stepFile. destruct (nth_error (pumps st) i0) as [p|] eqn:En; [|now split].
    destruct (stepPump NoColor mapUnicodeToLower env i0 p (cancelled st)) as [p' ws] eqn:Es.
    cbn [written pumps]. rewrite payloads_app, nth_error_setNth, En.
    destruct (Nat.eqb_spec i0 i) as [->|Hne].
    + rewrite En in Hs. rewrite Hc in Es.
      destruct p as [filepath|lines|[|line lines]|]; cbn [stepPump] in Es;
        try discriminate Hs.
      * destruct (openFile env filepath); injection Es as <- <-; cbn;
          now rewrite app_nil_r.
      * injection Es as <- <-. cbn. now rewrite app_nil_r.
      * injection Es as <- <-. cbn. now rewrite app_nil_r.
      * injection Es as <- <-. cbn. now rewrite app_nil_r.
    + pose proof (stepPump_others NoColor mapUnicodeToLower env i0 i p (cancelled st) Hne) as H.
      rewrite Es in H. cbn [snd] in H. rewrite H, app_nil_r. now split.
Qed.

Lemma cancelled_fold_settled (schedule : list Event) (i : nat) :
  forall st,
    cancelled st = true -> settled (nth_error (pumps st) i) = true ->
    payloads (FromFile i)
      (written (fold_left (fun st e => step NoColor mapUnicodeToLower env e st) schedule st))
    = payloads (FromFile i) (written st).
Proof.
  induction schedule as [|e es IH]; intros st Hc Hs; cbn [fold_left]; [reflexivity|].
  destruct (cancelled_step_settled e st i Hc Hs) as [H1 H2].
  rewrite IH; [exact H1 | now apply cancelled_step | exact H2].
Qed.

(** Under a cancelled context, a step of the run either leaves the line
    in flight of a pump where it is, or has the pump format that line and
    leaves it with none. *)
Lemma cancelled_step_in_flight (e : Event) (st : State) (i : nat)
    (line : string) (lines : list string) :
  cancelled st = true -> nth_error (pumps st) i = Some (Scanning (line :: lines)) ->
  (payloads (FromFile i) (written (step NoColor mapUnicodeToLower env e st))
   = payloads (FromFile i) (written st)
   /\ nth_error (pumps (step NoColor mapUnicodeToLower env e st)) i
      = Some (Scanning (line :: lines)))
  \/ (payloads (FromFile i) (written (step NoColor mapUnicodeToLower env e st))
      = (payloads (FromFile i) (written st) ++ lineOut NoColor mapUnicodeToLower env line)%list
      /\ settled (nth_error (pumps (step NoColor mapUnicodeToLower env e st)) i) = true).
Proof.
  intros Hc Hp. unfold step. destruct (running (phase st)); [|now left].
  destruct e.
  - left. unfold stepSignal. destruct (phase st); try destruct (isPiped env); now split.
  - left. unfold stepMain. destruct (phase st); try destruct (forallb _ _); now split.
  - left. unfold stepStdin. destruct (stdinPump st); try now split.
    destruct (stdinReader env n) as [[l isPrefix] [[|]|]]; cbn [written pumps];
      try (now split);
      (split; [|exact Hp]);
      destruct (phase st); rewrite ?payloads_app, ?payloads_writesOf; cbn [Writer_eqb];
      rewrite ?app_nil_r; reflexivity.
  - unfold stepFile. destruct (nth_error (pumps st) i0) as [p|] eqn:En; [|now left].
    destruct (stepPump NoColor mapUnicodeToLower env i0 p (cancelled st)) as [p' ws] eqn:Es.
    cbn [written pumps]. rewrite payloads_app, nth_error_setNth, En.
    destruct (Nat.eqb_spec i0 i) as [->|Hne].
    + right. rewrite Hp in En. injection En as <-. cbn [stepPump] in Es.
      injection Es as <- <-. rewrite payloads_writesOf. cbn [Writer_eqb].
      rewrite Nat.eqb_refl. now split.
    + left. pose proof (stepPump_others NoColor mapUnicodeToLower env i0 i p (cancelled st) Hne) as H.
      rewrite Es in H. cbn [snd] in H. rewrite H, app_nil_r. now split.
Qed.

Lemma cancelled_fold_in_flight (schedule : list Event) (i : nat)
    (line : string) (lines : list string) :
  forall st,
    cancelled st = true -> nth_error (pumps st) i = Some (Scanning (line :: lines)) ->
    payloads (FromFile i)
      (written (fold_left (fun st e => step NoColor mapUnicodeToLower env e st) schedule st))
    = payloads (FromFile i) (written st)
    \/ payloads (FromFile i)
         (written (fold_left (fun st e => step NoColor mapUnicodeToLower env e st) schedule st))
       = (payloads (FromFile i) (written st) ++ lineOut NoColor mapUnicodeToLower env line)%list.
Proof.
  induction schedule as [|e es IH]; intros st Hc Hp; cbn [fold_left]; [now left|].
  destruct (cancelled_step_in_flight e st i line lines Hc Hp) as [[H1 H2]|[H1 H2]].
  - destruct (IH _ (cancelled_step NoColor mapUnicodeToLower env e st Hc) H2) as [H|H];
      rewrite H, H1; auto.
  - right. rewrite cancelled_fold_settled; [exact H1 | now apply cancelled_step | exact H2].
Qed.

(** C4, as the code has it: a file pump looks at the context before every
    line. When the check before line [k] finds the context cancelled (the
    checks before found it open), the pump stops there: it has formatted
    the first [k] lines of the file and no other, it logs the cancellation
    and does not go on to the end of the file. In a run of [main], once the
    context is cancelled, what has been written stays written; a pump that
    stands anywhere but between its check and the scan of a line writes
    nothing more; a pump that has passed its check for a line writes at
    most what [print] writes for that one line. *)
Theorem pump_stops_at_its_next_check :
  (forall (done : nat -> bool) (f : File) (outputFields : list string)
          (outColors : list color.Color) (out : list string) (k : nat),
      (forall j, j < k -> done j = false) ->
      done k = true ->
      k <= length (tokens f) ->
      pipeFile NoColor done (Some f) outputFields outColors out
      = ((out ++ flat_map (lineOutput NoColor outputFields outColors)
                   (firstn k (tokens f)))%list,
         LogCancelReceived :: (if closeErr f then [LogCloseFailed] else [])))
  /\ (forall (before after : list Event) (i : nat),
        cancelled (run NoColor mapUnicodeToLower env before) = true ->
        (exists more,
            written (run NoColor mapUnicodeToLower env (before ++ after))
            = (written (run NoColor mapUnicodeToLower env before) ++ more)%list)
        /\ match nth_error (pumps (run NoColor mapUnicodeToLower env before)) i with
           | Some (Scanning (line :: _)) =>
               payloads (FromFile i)
                 (written (run NoColor mapUnicodeToLower env (before ++ after)))
               = payloads (FromFile i) (written (run NoColor mapUnicodeToLower env before))
               \/ payloads (FromFile i)
                    (written (run NoColor mapUnicodeToLower env (before ++ after)))
                  = (payloads (FromFile i)
                       (written (run NoColor mapUnicodeToLower env before))
                     ++ lineOut NoColor mapUnicodeToLower env line)%list
           | _ =>
               payloads (FromFile i)
                 (written (run NoColor mapUnicodeToLower env (before ++ after)))
               = payloads (FromFile i) (written (run NoColor mapUnicodeToLower env before))
           end).
Proof.
  split.
  - intros done f outputFields outColors out k Hbefore Hat Hlen. unfold pipeFile.
    rewrite (scanLoop_cancel NoColor done (scanErr f) outputFields outColors k
               (tokens f) 0 "" out []); [|exact Hbefore|exact Hat|exact Hlen].
    rewrite emitLines_flat. cbn [app]. now destruct (closeErr f).
  - intros before after i Hc. rewrite run_app. split; [apply fold_written|].
    destruct (nth_error (pumps (run NoColor mapUnicodeToLower env before)) i)
      as [[filepath|lines|[|line lines]|]|] eqn:En;
      try (apply cancelled_fold_settled; [exact Hc | now rewrite En]).
    now apply (cancelled_fold_in_flight after i line lines).
Qed.

End CancelFacts.

(** ** The properties on sample inputs *)

(** X1 on a file of three lines, the second of them no JSON, whose
    [Close] fails. *)
Lemma pipeFile_reads_to_end_witness :
  pipeFile false (fun _ => false)
    (Some (mkFile [q "{'msg':'a'}"; "not json"; q "{'msg':'b'}"] false true))
    ["msg"] [] []
  = (["a" ++ str1 TAB ++ str1 LF; "b" ++ str1 TAB ++ str1 LF],
     [LogAllProcessed; LogCloseFailed]).
Proof.
  rewrite (pipeFile_reads_to_end false (fun _ => false)
             (mkFile [q "{'msg':'a'}"; "not json"; q "{'msg':'b'}"] false true)
             ["msg"] [] []).
  - reflexivity.
  - intros n Hn. reflexivity.
Defined.

(** X4 on the sample document with blanks before it and text after it. *)
Lemma print_reads_the_document_only_witness :
  print false ("  " ++ render sampleDoc ++ " } trailing [") ["time"; "tags"] [] "" []
  = print false (render sampleDoc) ["time"; "tags"] [] "" [].
Proof.
  apply (print_reads_the_document_only false "  " sampleDoc " } trailing [");
    try reflexivity.
  repeat constructor.
Defined.

(** X5 on the field [msg] of the sample document: the escapes of a tab
    and of U+00E9 are decoded. *)
Lemma string_field_is_decoded_witness :
  fieldValue (gjson.Result_Get (gjson.ParseBytes (" " ++ render sampleDoc ++ " trailing")) "msg")
  = "a" ++ str1 TAB ++ "b" ++ String (ascii_of_N 195) (str1 (ascii_of_N 169)).
Proof.
  refine (proj1 (string_field_is_decoded false " " sampleDoc " trailing" "msg" []
                   (String "a" (String BACKSLASH ("tb" ++ String BACKSLASH "u00e9"))) [] 0
                   _ _ _ _ _ _)); try reflexivity.
  constructor.
Defined.

(** X6 on a text with quotes, a newline and a backslash. *)
Lemma escaped_text_is_printed_back_witness :
  fieldValue (gjson.Result_Get
                (gjson.ParseBytes
                   (render (msgDoc ("say " ++ str1 QUOTE ++ "hi" ++ str1 QUOTE
                                    ++ str1 LF ++ "c:" ++ str1 BACKSLASH ++ "tmp"))))
                "msg")
  = "say " ++ str1 QUOTE ++ "hi" ++ str1 QUOTE ++ str1 LF ++ "c:" ++ str1 BACKSLASH ++ "tmp".
Proof.
  apply (escaped_text_is_printed_back ""
           (msgDoc ("say " ++ str1 QUOTE ++ "hi" ++ str1 QUOTE
                    ++ str1 LF ++ "c:" ++ str1 BACKSLASH ++ "tmp"))
           "" "msg" []); try reflexivity.
  constructor.
Defined.

(** X7 on the number and the boolean of the sample document. *)
Lemma scalar_without_text_is_skipped_witness :
  segment false (gjson.ParseBytes (render sampleDoc)) [] 0 "n" = ""
  /\ segment false (gjson.ParseBytes (render sampleDoc)) [] 0 "ok" = "".
Proof.
  split.
  - apply (scalar_without_text_is_skipped false "" sampleDoc "" "n" [] (VNumber "5") [] 0);
      try reflexivity. constructor.
  - apply (scalar_without_text_is_skipped false "" sampleDoc "" "ok" [] VTrue [] 0);
      try reflexivity. constructor.
Defined.

(** X8 on a path whose first part is no key of the sample document. *)
Lemma unknown_first_part_is_skipped_witness :
  segment false (gjson.ParseBytes (render sampleDoc)) [] 0 "level.name" = "".
Proof.
  apply (unknown_first_part_is_skipped false "" sampleDoc "" "level" ["name"] [] 0);
    reflexivity.
Defined.

(** X9 on the sample document after a blank. *)
Lemma earlier_print_agrees_witness :
  Earlier.print (" " ++ render sampleDoc) ["time"; "msg"] "" []
  = print false (" " ++ render sampleDoc) ["time"; "msg"] [] "" [].
Proof.
  apply (earlier_print_agrees false (" " ++ render sampleDoc) ["time"; "msg"] "" []).
  - reflexivity.
  - repeat constructor.
Defined.

(** X10 on a line with a level in front of the object: nothing is
    written now, the earlier revision printed the message. *)
Lemma text_before_the_document_witness :
  print false ("INFO " ++ q "{'msg':'hi'}") ["msg"] [] "" [] = ("", [])
  /\ Earlier.print ("INFO " ++ q "{'msg':'hi'}") ["msg"] "" []
     = ("hi" ++ str1 TAB ++ str1 LF, ["hi" ++ str1 TAB ++ str1 LF]).
Proof.
  destruct (text_before_the_document false "INFO " (q "{'msg':'hi'}") "I"%char
              ["msg"] [] []) as [H1 H2]; try reflexivity.
  - repeat constructor.
  - split; [exact H1 | rewrite H2; reflexivity].
Defined.

(** X11 on an input of three lines, the second of them empty. *)
Lemma pipeStdin_returns_at_EOF_witness :
  pipeStdin false 5 (readerOf [q "{'msg':'a'}"; ""; q "{'msg':'b'}"]) 0 ["msg"] [] []
  = (true, ["a" ++ str1 TAB ++ str1 LF; "b" ++ str1 TAB ++ str1 LF]).
Proof.
  rewrite (pipeStdin_returns_at_EOF false (readerOf [q "{'msg':'a'}"; ""; q "{'msg':'b'}"])
             ["msg"] [] [] 3 5).
  - reflexivity.
  - intros j Hj. destruct j as [|[|[|j]]]; [discriminate.. | lia].
  - reflexivity.
  - lia.
Defined.

(** X12 on a reader whose every read fails: after seven rounds the loop
    has not returned and nothing is written. *)
Lemma pipeStdin_runs_until_EOF_witness :
  pipeStdin false 7 brokenReader 0 ["msg"] [] [] = (false, []).
Proof.
  rewrite (pipeStdin_runs_until_EOF false brokenReader ["msg"] [] [] 7).
  - reflexivity.
  - intros j Hj. discriminate.
Defined.

(** X13 on an input of three lines: one ended by a carriage return and
    a newline, one by a newline, the last by nothing. *)
Lemma pipeStdin_formats_each_line_witness :
  pipeStdin false 4
    (bufio.readLineAt bufio.defaultBufSize
       (unlines [q "{'msg':'a'}" ++ str1 CR; q "{'msg':'b'}"] ++ q "{'msg':'c'}"))
    0 ["msg"] [] []
  = (true, ["a" ++ str1 TAB ++ str1 LF; "b" ++ str1 TAB ++ str1 LF;
            "c" ++ str1 TAB ++ str1 LF]).
Proof.
  rewrite (pipeStdin_formats_each_line false
             [q "{'msg':'a'}" ++ str1 CR; q "{'msg':'b'}"] (q "{'msg':'c'}") ["msg"] [] [] 4).
  - reflexivity.
  - repeat constructor.
  - split; reflexivity.
  - simpl. lia.
Defined.

(** X14 on a file with the same three lines, the last ended by a
    carriage return only. *)
Lemma pipeFile_formats_each_line_witness :
  pipeFile false (fun _ => false)
    (Some (fileOf (unlines [q "{'msg':'a'}" ++ str1 CR; q "{'msg':'b'}"]
                   ++ q "{'msg':'c'}" ++ str1 CR) false))
    ["msg"] [] []
  = (["a" ++ str1 TAB ++ str1 LF; "b" ++ str1 TAB ++ str1 LF;
      "c" ++ str1 TAB ++ str1 LF], [LogAllProcessed]).
Proof.
  rewrite (pipeFile_formats_each_line false
             [q "{'msg':'a'}" ++ str1 CR; q "{'msg':'b'}"] (q "{'msg':'c'}" ++ str1 CR)
             false ["msg"] [] []).
  - reflexivity.
  - repeat constructor.
  - split; reflexivity.
Defined.

(** X20 on two files read in alternation, with a terminal as standard
    input. *)
Lemma main_unpiped_reads_files_whole_witness :
  payloads (FromFile 0)
    (written (run false (fun s => s) (sampleEnv false)
                [StepFile 0; StepFile 1; StepFile 0; StepFile 0; StepFile 1; StepFile 1;
                 StepFile 0; StepFile 0; StepFile 1; StepFile 1; StepFile 0; StepFile 0;
                 StepMain; StepMain; StepMain]))
  = ["a1" ++ str1 TAB ++ str1 LF; "a2" ++ str1 TAB ++ str1 LF].
Proof.
  destruct (main_unpiped_reads_files_whole false (fun s => s) (sampleEnv false)
              [StepFile 0; StepFile 1; StepFile 0; StepFile 0; StepFile 1; StepFile 1;
               StepFile 0; StepFile 0; StepFile 1; StepFile 1; StepFile 0; StepFile 0;
               StepMain; StepMain; StepMain]) as [H _].
  - reflexivity.
  - reflexivity.
  - rewrite (H 0). reflexivity.
Defined.

(** X21 on a run in which the standard input and both files come to
    their end and no signal arrives. *)
Lemma main_piped_waits_for_the_signal_witness :
  (phase (run false (fun s => s) (sampleEnv true)
            [StepMain; StepStdin; StepStdin; StepFile 0; StepFile 1; StepFile 0; StepFile 0;
             StepFile 1; StepFile 1; StepFile 0; StepFile 0; StepFile 1; StepFile 1;
             StepFile 0; StepFile 0; StepMain; StepMain; StepMain]) = Starting
   \/ phase (run false (fun s => s) (sampleEnv true)
               [StepMain; StepStdin; StepStdin; StepFile 0; StepFile 1; StepFile 0; StepFile 0;
                StepFile 1; StepFile 1; StepFile 0; StepFile 0; StepFile 1; StepFile 1;
                StepFile 0; StepFile 0; StepMain; StepMain; StepMain]) = AwaitSignal)
  /\ cancelled (run false (fun s => s) (sampleEnv true)
                  [StepMain; StepStdin; StepStdin; StepFile 0; StepFile 1; StepFile 0; StepFile 0;
                   StepFile 1; StepFile 1; StepFile 0; StepFile 0; StepFile 1; StepFile 1;
                   StepFile 0; StepFile 0; StepMain; StepMain; StepMain]) = false.
Proof.
  apply (main_piped_waits_for_the_signal false (fun s => s) (sampleEnv true)).
  - reflexivity.
  - cbn. intuition discriminate.
Defined.

(** X22 on a run in which the signal arrives when the first pump has
    passed its [select] and not yet scanned its first line. *)
Lemma cancel_stops_each_pump_within_a_line_witness :
  length (payloads (FromFile 0)
            (written (run false (fun s => s) (sampleEnv true)
                        ([StepMain; StepFile 0; StepFile 0; Signal]
                         ++ [StepFile 0; StepFile 0; StepFile 0; StepFile 0])))) <= 0 + 1.
Proof.
  destruct (cancel_stops_each_pump_within_a_line false (fun s => s) (sampleEnv true)
              [StepMain; StepFile 0; StepFile 0; Signal]
              [StepFile 0; StepFile 0; StepFile 0; StepFile 0] 0) as [H _].
  - reflexivity.
  - exact H.
Defined.

(** X15 on a line of 4101 bytes: its first 4096 bytes are formatted as a
    line, which prints the field [msg]; the rest gives nothing. *)
Lemma pipeStdin_splits_long_line_witness :
  pipeStdin false 3
    (bufio.readLineAt bufio.defaultBufSize
       ((q "{'msg':'hi','pad':'" ++ bytes 4077 "a") ++ q "aaa'}" ++ str1 LF))
    0 ["msg"; "pad"] [] []
  = (true, ["hi" ++ str1 TAB ++ str1 LF]).
Proof.
  destruct (pipeStdin_splits_long_line false (q "{'msg':'hi','pad':'" ++ bytes 4077 "a")
              (q "aaa'}" ++ str1 LF) ["msg"; "pad"] [] [] 2) as [_ H];
    [vm_compute; reflexivity | vm_compute; reflexivity | vm_compute; reflexivity |].
  rewrite H. vm_compute. reflexivity.
Defined.

(** X16 on a file whose second line has 65536 bytes: the first line is
    formatted, the third never. *)
Lemma pipeFile_stops_at_long_line_witness :
  pipeFile false (fun _ => false)
    (Some (fileOf (unlines [q "{'msg':'a'}"] ++ bytes 65536 "x" ++ str1 LF ++ q "{'msg':'b'}")
             false))
    ["msg"] [] []
  = (["a" ++ str1 TAB ++ str1 LF], [LogScannerError]).
Proof.
  rewrite (pipeFile_stops_at_long_line false [q "{'msg':'a'}"] (bytes 65536 "x")
             (str1 LF ++ q "{'msg':'b'}") false ["msg"] [] []).
  - reflexivity.
  - repeat constructor.
  - vm_compute. reflexivity.
  - vm_compute. reflexivity.
Defined.

(** C4: the signal arrives when the first pump has passed its check and
    not yet scanned its first line; the context is cancelled and nothing is
    written yet, and the next step of the pump still reads and writes that
    line: the pump has not stopped before every further line. *)
Lemma line_written_after_cancel :
  cancelled (run false (fun s => s) (sampleEnv true)
               [StepMain; StepFile 0; StepFile 0; Signal]) = true
  /\ written (run false (fun s => s) (sampleEnv true)
                [StepMain; StepFile 0; StepFile 0; Signal]) = []
  /\ written (run false (fun s => s) (sampleEnv true)
                [StepMain; StepFile 0; StepFile 0; Signal; StepFile 0])
     = [(FromFile 0, "a1" ++ str1 TAB ++ str1 LF)].
Proof. repeat split. Qed.

(** C4 on a file of four lines whose third check finds the context
    cancelled, and on a run in which the signal finds the first pump at its
    check, one line written: it writes no other. *)
Lemma pump_stops_at_its_next_check_witness :
  pipeFile false (fun n => Nat.leb 2 n)
    (Some (mkFile [q "{'msg':'a'}"; q "{'msg':'b'}"; q "{'msg':'c'}"; q "{'msg':'d'}"]
             false false))
    ["msg"] [] []
  = (["a" ++ str1 TAB ++ str1 LF; "b" ++ str1 TAB ++ str1 LF], [LogCancelReceived])
  /\ payloads (FromFile 0)
       (written (run false (fun s => s) (sampleEnv true)
                   ([StepMain; StepFile 0; StepFile 0; StepFile 0; Signal]
                    ++ [StepFile 0; StepFile 0; StepFile 1; StepFile 0])))
     = ["a1" ++ str1 TAB ++ str1 LF].
Proof.
  destruct (pump_stops_at_its_next_check false (fun s => s) (sampleEnv true)) as [HA HB].
  split.
  - rewrite (HA (fun n => Nat.leb 2 n)
               (mkFile [q "{'msg':'a'}"; q "{'msg':'b'}"; q "{'msg':'c'}"; q "{'msg':'d'}"]
                  false false) ["msg"] [] [] 2).
    + reflexivity.
    + intros j Hj. destruct j as [|[|j]]; [reflexivity | reflexivity | lia].
    + reflexivity.
    + simpl. lia.
  - destruct (HB [StepMain; StepFile 0; StepFile 0; StepFile 0; Signal]
                [StepFile 0; StepFile 0; StepFile 1; StepFile 0] 0) as [_ H].
    + reflexivity.
    + vm_compute in H. vm_compute. exact H.
Defined.
